(** * EDHREC Retriever: a shallow embedding of the extraction core

    The development embeds the parts of the JavaScript sources that the
    specification's testable properties talk about:

    - [exactClean], the text de-duplication loop of the strict
      upgrade-guide extractor;
    - [looksLikeCardName], the card-name heuristic of the legacy extractor;
    - [extractDecklist] and the two [extractUpgradeGuide] entry points;
    - [parseHTML] of the commander-statistics extractor;
    - [exportToText], [parseCardList] and [filterCardsByInclusion] of the
      export manager.

    JavaScript strings are sequences of UTF-16 code units; they are
    modelled as lists of [N].  The DOM is modelled as a finite tree. *)

From Stdlib Require Import NArith ZArith QArith Ascii String List Lia Bool.
From Stdlib Require Import Sorting.Sorted Sorting.Permutation.
From stdpp Require Import base list gmap.

Local Open Scope nat_scope.
Set Warnings "-register-all".

(** ** JavaScript strings *)

Abbreviation char := N (only parsing).
Abbreviation jsstring := (list N) (only parsing).

(** An ASCII literal as a JavaScript string: one code unit for each
    character. *)
Fixpoint js (s : string) : jsstring :=
  match s with
  | EmptyString => []
  | String a s' => N_of_ascii a :: js s'
  end.

Fixpoint jsstring_eqb (a b : jsstring) : bool :=
  match a, b with
  | [], [] => true
  | x :: a', y :: b' => N.eqb x y && jsstring_eqb a' b'
  | _, _ => false
  end.

Definition in_range (lo hi c : N) : bool := (N.leb lo c) && (N.leb c hi).

(** [[a-z]], [[A-Z]], [\d] and [\w] of a regular expression without the
    [u] flag. *)
Definition is_lower (c : N) : bool := in_range 97 122 c.
Definition is_upper (c : N) : bool := in_range 65 90 c.
Definition is_digit (c : N) : bool := in_range 48 57 c.
Definition is_word (c : N) : bool :=
  is_lower c || is_upper c || is_digit c || N.eqb c 95.

(** Line terminators: LF, CR, LS, PS (what [.] does not match). *)
Definition is_line_terminator (c : N) : bool :=
  N.eqb c 10 || N.eqb c 13 || N.eqb c 8232 || N.eqb c 8233.

(** [\s]: WhiteSpace and LineTerminator code units; also what
    [String.prototype.trim] strips. *)
Definition is_space (c : N) : bool :=
  in_range 9 13 c || N.eqb c 32 || N.eqb c 160 || N.eqb c 5760
  || in_range 8192 8202 c || N.eqb c 8232 || N.eqb c 8233
  || N.eqb c 8239 || N.eqb c 8287 || N.eqb c 12288 || N.eqb c 65279.

(** [s.substring(a, b)]: both indices are clamped to the length and
    swapped when out of order. *)
Definition substring (s : jsstring) (a b : nat) : jsstring :=
  let a' := Nat.min a (length s) in
  let b' := Nat.min b (length s) in
  take (Nat.max a' b' - Nat.min a' b') (drop (Nat.min a' b') s).

(** [s.substring(a)]. *)
Definition substringFrom (s : jsstring) (a : nat) : jsstring :=
  substring s a (length s).

Fixpoint startsWith (s p : jsstring) {struct p} : bool :=
  match p, s with
  | [], _ => true
  | y :: p', x :: s' => N.eqb x y && startsWith s' p'
  | _ :: _, [] => false
  end.

(** [s.indexOf(p)], [None] standing for [-1]. *)
Fixpoint indexOf_from (i : nat) (s p : jsstring) : option nat :=
  if startsWith s p then Some i
  else match s with
       | [] => None
       | _ :: s' => indexOf_from (S i) s' p
       end.

Definition indexOf (s p : jsstring) : option nat := indexOf_from 0 s p.

Definition includes (s p : jsstring) : bool :=
  match indexOf s p with Some _ => true | None => false end.

Definition endsWith (s p : jsstring) : bool :=
  (length p <=? length s) && jsstring_eqb (drop (length s - length p) s) p.

Fixpoint trimStart (s : jsstring) : jsstring :=
  match s with
  | c :: s' => if is_space c then trimStart s' else s
  | [] => []
  end.

Definition trimEnd (s : jsstring) : jsstring := rev (trimStart (rev s)).

Definition trim (s : jsstring) : jsstring := trimEnd (trimStart s).

(** Value of a string of decimal digits. *)
Definition digitsValue (ds : jsstring) : N :=
  fold_left (fun acc d => (10 * acc + (d - 48))%N) ds 0%N.

(** The longest prefix whose characters satisfy [p], and the rest. *)
Fixpoint span (p : N -> bool) (s : jsstring) : jsstring * jsstring :=
  match s with
  | c :: s' => if p c then let '(a, b) := span p s' in (c :: a, b) else ([], s)
  | [] => ([], [])
  end.

(** ** The text normalizer: [exactClean] (strict extractor) *)

Module Normalizer.

(** [cleaned.match(/[a-z][A-Z]/)]: the text of the first match. *)
Fixpoint boundaryMatch (s : jsstring) : option jsstring :=
  match s with
  | a :: ((b :: _) as t) =>
      if is_lower a && is_upper b then Some [a; b] else boundaryMatch t
  | _ => None
  end.

(** Number of leading characters that are not white space. *)
Fixpoint tokenLen (t : jsstring) : nat :=
  match t with
  | c :: t' => if is_space c then 0 else S (tokenLen t')
  | [] => 0
  end.

(** [while (e < cleaned.length && !/\s/.test(cleaned[e])) e++]: the loop
    advances [e] over the non-space characters that start at [e]. *)
Definition tokenEnd (cleaned : jsstring) (e : nat) : nat :=
  e + tokenLen (drop e cleaned).

(** [while (stringStart > 0 && !/\s/.test(cleaned[stringStart - 1]))
    stringStart--]: the loop retreats over the non-space characters that
    end just before [stringStart]. *)
Definition tokenStart (cleaned : jsstring) (stringStart : nat) : nat :=
  stringStart - tokenLen (rev (take stringStart cleaned)).

(** The backward collection loop [while (currentPos >= 0) { ... }].
    [strings.unshift] is the cons; [currentPos = stringStart - 2;
    if (currentPos < 0) break] is the test [stringStart < 2].  Every round
    lowers [currentPos] by at least two, so [fuel = currentPos] rounds are
    enough (lemma [collectStrings_fuel]). *)
Fixpoint collectStrings (fuel : nat) (cleaned firstStringAfterBoundary : jsstring)
    (currentPos : nat) (strings : list jsstring) : list jsstring :=
  let stringStart := tokenStart cleaned currentPos in
  let string := substring cleaned stringStart (S currentPos) in
  let strings' := string :: strings in
  if jsstring_eqb string firstStringAfterBoundary then strings'
  else if stringStart <? 2 then strings'
  else match fuel with
       | 0 => strings'
       | S fuel' =>
           collectStrings fuel' cleaned firstStringAfterBoundary
             (stringStart - 2) strings'
       end.

(** The replay loop [for (let i = 0; i < stringCount; i++) { ... }],
    by recursion on the strings still to be matched; the last one
    ([i === stringCount - 1]) may match as a substring.  Returns
    [(deletionEnd, stringsMatched)]. *)
Fixpoint matchStrings (cleaned : jsstring) (strings : list jsstring)
    (deletionEnd stringsMatched : nat) : nat * nat :=
  match strings with
  | [] => (deletionEnd, stringsMatched)
  | expectedString :: rest =>
      let currentStringStart := deletionEnd in
      let deletionEnd' := tokenEnd cleaned deletionEnd in
      let currentString := substring cleaned currentStringStart deletionEnd' in
      match rest with
      | [] =>
          if includes currentString expectedString
          then (currentStringStart + length expectedString, S stringsMatched)
          else (deletionEnd', stringsMatched)
      | _ :: _ =>
          if jsstring_eqb currentString expectedString
          then matchStrings cleaned rest (S deletionEnd') (S stringsMatched)
          else (deletionEnd', stringsMatched)
      end
  end.

(** One round of [while (changed)]: [Some cleaned'] when the round ends
    with [changed = true], [None] when it leaves the loop.  When
    [indexOf] answers [-1] JavaScript computes [midWordCapitalIndex = 0],
    an empty [strings] and [deletionEnd = 0], so the round "changes"
    [cleaned] into itself. *)
Definition exactClean_round (cleaned : jsstring) : option jsstring :=
  match boundaryMatch cleaned with
  | None => None
  | Some boundaryMatch0 =>
      match indexOf cleaned boundaryMatch0 with
      | None => Some (substring cleaned 0 0 ++ substringFrom cleaned 0)
      | Some boundaryIndex =>
          let midWordCapitalIndex := boundaryIndex + 1 in
          let firstStringEnd := tokenEnd cleaned midWordCapitalIndex in
          let firstStringAfterBoundary :=
            substring cleaned midWordCapitalIndex firstStringEnd in
          let strings :=
            collectStrings boundaryIndex cleaned firstStringAfterBoundary
              boundaryIndex [] in
          let stringCount := length strings in
          let '(deletionEnd, stringsMatched) :=
            matchStrings cleaned strings midWordCapitalIndex 0 in
          if stringsMatched =? stringCount
          then Some (substring cleaned 0 midWordCapitalIndex
                       ++ substringFrom cleaned deletionEnd)
          else None
      end
  end.

(** The [while (changed)] loop with an explicit bound on the number of
    rounds; [None] means the bound was reached with [changed] still
    true. *)
Fixpoint exactClean_loop (fuel : nat) (cleaned : jsstring) : option jsstring :=
  match fuel with
  | 0 => None
  | S fuel' =>
      match exactClean_round cleaned with
      | None => Some cleaned
      | Some cleaned' => exactClean_loop fuel' cleaned'
      end
  end.

(** [exactClean(text)] on a string.  The empty string is falsy and is
    returned at once.  The loop is run for [length text + 1] rounds, which
    is shown below to be enough: the bound is never reached. *)
Definition exactClean (text : jsstring) : jsstring :=
  match text with
  | [] => text
  | _ => match exactClean_loop (S (length text)) text with
         | Some cleaned => cleaned
         | None => text
         end
  end.

End Normalizer.

(** ** Thrown values and results *)

(** The classes of the values the modelled code throws; messages and
    diagnostic payloads are left out. *)
Inductive error : Type :=
  | JsError              (* new Error(...) *)
  | JsTypeError          (* raised by the engine *)
  | EDHRECFetchError
  | EDHRECParseError
  | EDHRECContentError.

(** The three error kinds of the strict extractor. *)
Definition typed (e : error) : bool :=
  match e with
  | EDHRECFetchError | EDHRECParseError | EDHRECContentError => true
  | JsError | JsTypeError => false
  end.

(** A computation either returns a value or throws. *)
Inductive result (A : Type) : Type :=
  | Return (a : A)
  | Throw (e : error).
Arguments Return {A} a.
Arguments Throw {A} e.

Definition bind {A B : Type} (r : result A) (k : A -> result B) : result B :=
  match r with
  | Return a => k a
  | Throw e => Throw e
  end.

Notation "'let?' x ':=' c1 'in' c2" := (bind c1 (fun x => c2))
  (at level 10, x name, c1 at level 100, c2 at level 200).

(** [array.forEach(f)] with a callback that may throw, threading the
    state the callback mutates. *)
Fixpoint forEach {A S : Type} (f : A -> S -> result S) (l : list A) (st : S)
  : result S :=
  match l with
  | [] => Return st
  | a :: l' => let? st' := f a st in forEach f l' st'
  end.

(** ** The card-name heuristic: [looksLikeCardName] (legacy extractor) *)

Module CardName.

Definition MAX_CARDNAME_LENGTH : nat := 100.

(** Canonicalization of the [i] flag.  The patterns below are ASCII
    letters, and no code unit outside ASCII canonicalizes to an ASCII
    letter without the [u] flag, so folding ASCII case is exact here. *)
Definition canonicalize (c : N) : N := if is_lower c then (c - 32)%N else c.

Fixpoint startsWith_ci (s p : jsstring) {struct p} : bool :=
  match p, s with
  | [], _ => true
  | y :: p', x :: s' => N.eqb (canonicalize x) (canonicalize y) && startsWith_ci s' p'
  | _ :: _, [] => false
  end.

Definition is_word_opt (c : option N) : bool :=
  match c with Some c => is_word c | None => false end.

(** [\b] between two neighbouring positions. *)
Definition wordBoundary (before after : option N) : bool :=
  xorb (is_word_opt before) (is_word_opt after).

(** The alternatives of [/\b(deck|card|...)\b/i]. *)
Definition commonWords : list jsstring :=
  map js ["deck"; "card"; "magic"; "the"; "a"; "an"; "and"; "or"; "but";
          "in"; "on"; "at"; "to"; "for"; "of"]%string.

(** The pattern [\bw\b] matched at the head of [s], [prev] being the
    character before it. *)
Definition wordAt (prev : option N) (s w : jsstring) : bool :=
  wordBoundary prev (head s)
  && startsWith_ci s w
  && wordBoundary (last (take (length w) s)) (head (drop (length w) s)).

Fixpoint testCommonWords (prev : option N) (s : jsstring) : bool :=
  existsb (wordAt prev s) commonWords
  || match s with
     | [] => false
     | c :: s' => testCommonWords (Some c) s'
     end.

(** [/^\d/], [/^[a-z]/], [/^\d+$/]. *)
Definition startsWithDigit (s : jsstring) : bool :=
  match s with c :: _ => is_digit c | [] => false end.
Definition startsWithLower (s : jsstring) : bool :=
  match s with c :: _ => is_lower c | [] => false end.
Definition allDigits (s : jsstring) : bool :=
  match s with [] => false | _ => forallb is_digit s end.

Definition excludePatterns : list (jsstring -> bool) :=
  [ (fun text => includes text (js "..."));
    testCommonWords None;
    (fun text => startsWith text (js "http"));
    allDigits ].

Definition looksLikeCardName (text : jsstring) : bool :=
  if match text with [] => true | _ => false end
     || (length text <? 2) || (MAX_CARDNAME_LENGTH <? length text)
  then false
  else if startsWithDigit text then false
  else if startsWithLower text then false
  else negb (existsb (fun pattern => pattern text) excludePatterns).

End CardName.

(** ** The document tree *)

(** A parsed document: text nodes and elements.  [tagName] is what the
    DOM reports: the name in upper case for an HTML element, the name as
    the parser keeps it (lower case, or the mixed case of a few SVG
    names) for an SVG or MathML element. *)
Inductive node : Type :=
  | Text (data : jsstring)
  | Element (tagName : jsstring) (attributes : list (jsstring * jsstring))
            (childNodes : list node).

Module Dom.

Definition isElement (n : node) : bool :=
  match n with Element _ _ _ => true | Text _ => false end.

Definition tagName (n : node) : jsstring :=
  match n with Element t _ _ => t | Text _ => [] end.

Definition childNodes (n : node) : list node :=
  match n with Element _ _ cs => cs | Text _ => [] end.

(** [element.children]: the child elements. *)
Definition children (n : node) : list node := filter (fun c => isElement c = true) (childNodes n).

Fixpoint textContent (n : node) : jsstring :=
  match n with
  | Text d => d
  | Element _ _ cs =>
      (fix go (cs : list node) : jsstring :=
         match cs with
         | [] => []
         | c :: cs' => textContent c ++ go cs'
         end) cs
  end.

Fixpoint assoc {V : Type} (k : jsstring) (l : list (jsstring * V)) : option V :=
  match l with
  | [] => None
  | (k', v) :: l' => if jsstring_eqb k' k then Some v else assoc k l'
  end.

Definition getAttribute (n : node) (name : jsstring) : option jsstring :=
  match n with
  | Element _ attrs _ => assoc name attrs
  | Text _ => None
  end.

(** ASCII white space separates class names. *)
Definition is_ascii_space (c : N) : bool :=
  N.eqb c 9 || N.eqb c 10 || N.eqb c 12 || N.eqb c 13 || N.eqb c 32.

Fixpoint tokens (cur : jsstring) (s : jsstring) : list jsstring :=
  match s with
  | [] => match cur with [] => [] | _ => [rev cur] end
  | c :: s' =>
      if is_ascii_space c
      then match cur with [] => tokens [] s' | _ => rev cur :: tokens [] s' end
      else tokens (c :: cur) s'
  end.

Definition classList (n : node) : list jsstring :=
  match getAttribute n (js "class") with
  | Some v => tokens [] v
  | None => []
  end.

Definition classList_contains (n : node) (cls : jsstring) : bool :=
  existsb (jsstring_eqb cls) (classList n).

(** [element.id]. *)
Definition id (n : node) : jsstring :=
  match getAttribute n (js "id") with Some v => v | None => [] end.

(** The selectors the sources use: a type selector (given in upper
    case), a class selector, [[name="value"]], [tag[name*="value"]], and
    comma-separated groups of these.  Class names compare exactly, as in
    a document that is not in quirks mode. *)
Inductive simple_selector : Type :=
  | SelTag (t : jsstring)
  | SelClass (cls : jsstring)
  | SelAttrEq (name value : jsstring)
  | SelTagAttrContains (t name value : jsstring).

Definition selector : Type := list simple_selector.

Definition asciiLower (s : jsstring) : jsstring :=
  map (fun c => if is_upper c then (c + 32)%N else c) s.

(** An HTML element is told from an SVG or MathML one by its tag name,
    which has no lower-case letter. *)
Definition isHTMLElement (n : node) : bool :=
  isElement n && forallb (fun c => negb (is_lower c)) (tagName n).

(** A type selector, written in lower case in the sources: it matches
    the HTML elements of that name, whose tag name is its upper-case
    spelling [t], and the SVG or MathML elements whose name is the
    selector as written. *)
Definition matchesTag (t : jsstring) (n : node) : bool :=
  jsstring_eqb (tagName n) t || jsstring_eqb (tagName n) (asciiLower t).

(** The attributes whose values a selector compares without regard to
    ASCII case on the HTML elements of an HTML document. *)
Definition caseInsensitiveAttributes : list jsstring :=
  map js ["accept"; "accept-charset"; "align"; "alink"; "axis"; "bgcolor";
          "charset"; "checked"; "clear"; "codetype"; "color"; "compact";
          "declare"; "defer"; "dir"; "direction"; "disabled"; "enctype";
          "face"; "frame"; "hreflang"; "http-equiv"; "lang"; "language";
          "link"; "media"; "method"; "multiple"; "nohref"; "noresize";
          "noshade"; "nowrap"; "readonly"; "rel"; "rev"; "rules"; "scope";
          "scrolling"; "selected"; "shape"; "target"; "text"; "type";
          "valign"; "valuetype"; "vlink"]%string.

Definition attributeValue_eqb (n : node) (name v value : jsstring) : bool :=
  if isHTMLElement n && existsb (jsstring_eqb name) caseInsensitiveAttributes
  then jsstring_eqb (asciiLower v) (asciiLower value)
  else jsstring_eqb v value.

Definition matches1 (sel : simple_selector) (n : node) : bool :=
  isElement n &&
  match sel with
  | SelTag t => matchesTag t n
  | SelClass cls => classList_contains n cls
  | SelAttrEq name value =>
      match getAttribute n name with
      | Some v => attributeValue_eqb n name v value
      | None => false
      end
  | SelTagAttrContains t name value =>
      matchesTag t n
      && match getAttribute n name with
         | Some v => includes v value
         | None => false
         end
  end.

Definition matches (sel : selector) (n : node) : bool :=
  existsb (fun s1 => matches1 s1 n) sel.

(** A node together with its following siblings and its ancestors
    (nearest first): what [nextElementSibling] and [closest] look at. *)
Record located : Type := Located {
  here : node;
  following : list node;
  ancestors : list node
}.

(** The descendants of a node in document order. *)
Fixpoint descendants (above : list node) (n : node) : list located :=
  match n with
  | Text _ => []
  | Element _ _ cs =>
      (fix go (cs : list node) : list located :=
         match cs with
         | [] => []
         | c :: rest =>
             Located c rest (n :: above) :: descendants (n :: above) c ++ go rest
         end) cs
  end.

(** [element.querySelectorAll(sel)], keeping each hit's position. *)
Definition querySelectorAll_located (sel : selector) (above : list node) (n : node)
  : list located :=
  filter (fun l => matches sel (here l) = true) (descendants above n).

Definition querySelectorAll (sel : selector) (n : node) : list node :=
  map here (querySelectorAll_located sel [] n).

Definition querySelector (sel : selector) (n : node) : option node :=
  head (querySelectorAll sel n).

(** [document.querySelectorAll(sel)]: the root element is itself a
    candidate. *)
Definition document_querySelectorAll_located (sel : selector) (doc : node)
  : list located :=
  filter (fun l => matches sel (here l) = true)
         (Located doc [] [] :: descendants [] doc).

Definition document_querySelector (sel : selector) (doc : node) : option node :=
  head (map here (document_querySelectorAll_located sel doc)).

(** [element.closest(sel)]. *)
Definition closest (sel : selector) (l : located) : option node :=
  head (filter (fun n => matches sel n = true) (here l :: ancestors l)).

(** [document.body]. *)
Definition body (doc : node) : option node :=
  head (filter (fun c => jsstring_eqb (tagName c) (js "BODY") = true) (children doc)).

End Dom.

(** ** Numbers *)

Module JsNumber.

(** A JavaScript number: a finite double, given by its exact rational
    value, an infinity, or NaN.  Negative zero is not told apart from
    zero; the modelled code never observes the difference. *)
Inductive jsnum : Type :=
  | NaN
  | Num (q : Q)
  | PosInf
  | NegInf.

(** Round a positive rational [a / b] to the nearest double, ties to
    even: the significand has 53 bits and the exponent of its last bit is
    at least [-1074]; results from [2^1024] on are infinite.  The value is
    kept in lowest terms. *)
Definition roundPositive (a b : Z) : jsnum :=
  let l := (Z.log2 a - Z.log2 b)%Z in
  let lg := if (if (0 <=? l)%Z then (b * 2 ^ l <=? a)%Z else (b <=? a * 2 ^ (- l))%Z)
            then l else (l - 1)%Z in
  let e := Z.max (lg - 52) (-1074) in
  let n := if (0 <=? e)%Z then a else (a * 2 ^ (- e))%Z in
  let d := if (0 <=? e)%Z then (b * 2 ^ e)%Z else b in
  let q := (n / d)%Z in
  let r := (n mod d)%Z in
  let m := if (d <? 2 * r)%Z || ((2 * r =? d)%Z && Z.odd q) then (q + 1)%Z else q in
  if (0 <=? e)%Z
  then if (2 ^ 1024 <=? m * 2 ^ e)%Z then PosInf else Num (inject_Z (m * 2 ^ e))
  else Num (Qred (Qmake m (Z.to_pos (2 ^ (- e))))).

(** The double nearest to [m * 10^e10] for a natural [m]. *)
Definition decimalToDouble (m : N) (e10 : Z) : jsnum :=
  if (m =? 0)%N then Num 0
  else if (0 <=? e10)%Z then roundPositive (Z.of_N m * 10 ^ e10) 1
  else roundPositive (Z.of_N m) (10 ^ (- e10)).

Definition negate (x : jsnum) : jsnum :=
  match x with
  | NaN => NaN
  | Num q => Num (- q)
  | PosInf => NegInf
  | NegInf => PosInf
  end.

Definition signOf (s : jsstring) : bool * jsstring :=
  match s with
  | c :: s' => if N.eqb c 45 then (true, s')
               else if N.eqb c 43 then (false, s') else (false, s)
  | [] => (false, [])
  end.

(** The exponent part [e[+-]digits], when complete. *)
Definition exponentPart (s : jsstring) : Z :=
  match s with
  | c :: s' =>
      if N.eqb c 101 || N.eqb c 69
      then let '(neg, s1) := signOf s' in
           let '(ds, _) := span is_digit s1 in
           match ds with
           | [] => 0%Z
           | _ => if neg then (- Z.of_N (digitsValue ds))%Z else Z.of_N (digitsValue ds)
           end
      else 0%Z
  | [] => 0%Z
  end.

(** [parseFloat(s)]: leading white space is skipped and the longest
    prefix that is a decimal literal is converted, with correct rounding
    as the engines in use do it. *)
Definition parseFloat (s : jsstring) : jsnum :=
  let '(neg, t) := signOf (trimStart s) in
  let magnitude :=
    if startsWith t (js "Infinity") then PosInf
    else
      let '(ipart, t1) := span is_digit t in
      let '(fpart, t2) :=
        match t1 with
        | c :: r => if N.eqb c 46 then span is_digit r else ([], t1)
        | [] => ([], t1)
        end in
      match ipart ++ fpart with
      | [] => NaN
      | ds => decimalToDouble (digitsValue ds)
                (exponentPart t2 - Z.of_nat (length fpart))
      end in
  if neg then negate magnitude else magnitude.

(** [parseInt(s)] for a string of decimal digits, which is all that
    the modelled code passes to it: the double nearest to the integer
    written, so an integer above [2^53] may be rounded and a very long
    one is infinite. *)
Definition parseInt (digits : jsstring) : jsnum :=
  match digits with
  | [] => NaN
  | _ => decimalToDouble (digitsValue digits) 0
  end.

Definition isNaN (x : jsnum) : bool :=
  match x with NaN => true | _ => false end.

(** [x || 0] on a number: NaN and zero are falsy. *)
Definition orZero (x : jsnum) : jsnum :=
  match x with
  | NaN => Num 0
  | Num q => if Qeq_bool q 0 then Num 0 else Num q
  | _ => x
  end.

(** [x < y]; false when either side is NaN. *)
Definition ltb (x y : jsnum) : bool :=
  match x, y with
  | NaN, _ | _, NaN => false
  | NegInf, NegInf => false
  | NegInf, _ => true
  | _, NegInf => false
  | PosInf, _ => false
  | _, PosInf => true
  | Num p, Num q => negb (Qle_bool q p)
  end.

(** [x >= y]; false when either side is NaN. *)
Definition geb (x y : jsnum) : bool :=
  match x, y with
  | NaN, _ | _, NaN => false
  | _, NegInf => true
  | NegInf, _ => false
  | PosInf, _ => true
  | _, PosInf => false
  | Num p, Num q => Qle_bool q p
  end.

End JsNumber.

(** ** Objects used as maps, and arrays *)

Module JsObject.

(** An object is the list of its own properties in creation order. *)
Abbreviation object V := (list (jsstring * V)).

Definition get {V : Type} (k : jsstring) (o : object V) : option V := Dom.assoc k o.

Fixpoint assign {V : Type} (k : jsstring) (v : V) (o : object V) : object V :=
  match o with
  | [] => [(k, v)]
  | (k', v') :: o' =>
      if jsstring_eqb k' k then (k', v) :: o' else (k', v') :: assign k v o'
  end.

(** [o[k] = v]: an existing property keeps its place, a new one is
    created last.  Assigning to [__proto__] runs the inherited setter and
    creates no property. *)
Definition set {V : Type} (k : jsstring) (v : V) (o : object V) : object V :=
  if jsstring_eqb k (js "__proto__") then o else assign k v o.

(** An array index: a canonical numeric string below [2^32 - 1]. *)
Definition arrayIndex (k : jsstring) : option N :=
  match k with
  | [] => None
  | c :: rest =>
      if forallb is_digit k
         && (negb (N.eqb c 48) || match rest with [] => true | _ => false end)
         && (digitsValue k <? 4294967295)%N
      then Some (digitsValue k) else None
  end.

(** [Array.prototype.sort] with a consistent comparator is a stable
    sort.  [before a b] says that the comparator puts [a] strictly
    before [b]. *)
Fixpoint insertSorted {A : Type} (before : A -> A -> bool) (x : A) (l : list A)
  : list A :=
  match l with
  | [] => [x]
  | y :: l' => if before x y then x :: y :: l' else y :: insertSorted before x l'
  end.

Definition sort {A : Type} (before : A -> A -> bool) (l : list A) : list A :=
  fold_left (fun acc x => insertSorted before x acc) l [].

(** [Object.entries(o)]: array-index keys first, in ascending numeric
    order, then the other keys in creation order. *)
Definition entries {V : Type} (o : object V) : list (jsstring * V) :=
  let indexed :=
    omap (fun kv => match arrayIndex (fst kv) with
                    | Some i => Some (i, kv)
                    | None => None
                    end) o in
  let named :=
    filter (fun kv => arrayIndex (fst kv) = None) o in
  map snd (sort (fun a b => (fst a <? fst b)%N) indexed) ++ named.

(** The properties every object inherits from [Object.prototype]; all
    of them are truthy and none is an array. *)
Definition inherited : list jsstring :=
  map js ["constructor"; "__proto__"; "hasOwnProperty"; "isPrototypeOf";
          "propertyIsEnumerable"; "toLocaleString"; "toString"; "valueOf";
          "__defineGetter__"; "__defineSetter__"; "__lookupGetter__";
          "__lookupSetter__"]%string.

Definition isInherited (k : jsstring) : bool := existsb (jsstring_eqb k) inherited.

End JsObject.

(** ** Guides and content blocks *)

Record deck_card : Type := DeckCard {
  quantity : JsNumber.jsnum;
  deck_card_name : jsstring
}.

Record deck_section : Type := DeckSection {
  section_name : jsstring;
  section_cards : list deck_card
}.

(** The content blocks of both extractor variants.  The strict variant
    fills [mentionedCards] (its [hasCards] is whether that list is
    non-empty); the legacy one has no such field. *)
Inductive block : Type :=
  | header (level : N) (text : jsstring)
  | paragraph (text : jsstring) (mentionedCards : option (list jsstring))
  | cardlist (isOrdered : bool) (items : list jsstring)
  | individualCard (cardName : jsstring)
  | decklist (title : jsstring) (sections : list deck_section).

(** [upgradeCards] belongs to the strict variant and stays empty in the
    legacy one. *)
Record guide : Type := Guide {
  guide_title : jsstring;
  guide_author : jsstring;
  guide_date : jsstring;
  contentBlocks : list block;
  upgradeCards : list jsstring
}.

(** What [fetch(url)] does for one URL: it rejects, or it resolves to a
    response whose [text()] resolves or rejects. *)
Inductive fetched : Type :=
  | Rejected (e : error)
  | Response (ok : bool) (text : result jsstring).

(** ** The strict upgrade-guide extractor *)

Module StrictGuide.
Import Dom Normalizer.

Definition proxies : list jsstring :=
  map js ["https://corsproxy.io/?"; "https://cors-anywhere.herokuapp.com/";
          "https://api.codetabs.com/v1/proxy?quest="; ""]%string.

(** [li.textContent.match(/^(\d+)\s+(.+)/)]: the two groups.  [\d+] and
    [\s+] are greedy; [\s+] gives white space back only when nothing
    that [.] can match follows it. *)
Definition dotPlus (rest : jsstring) : option jsstring :=
  match rest with
  | c :: _ =>
      if negb (is_line_terminator c)
      then Some (fst (span (fun c => negb (is_line_terminator c)) rest))
      else None
  | [] => None
  end.

Fixpoint nameAfterSpaces (revSpaces : jsstring) (rest : jsstring) : option jsstring :=
  match revSpaces with
  | [] => None
  | c :: revSpaces' =>
      match dotPlus rest with
      | Some name => Some name
      | None => nameAfterSpaces revSpaces' (c :: rest)
      end
  end.

Definition quantityMatch (s : jsstring) : option (jsstring * jsstring) :=
  let '(digits, rest) := span is_digit s in
  match digits with
  | [] => None
  | _ =>
      let '(spaces, rest') := span is_space rest in
      match nameAfterSpaces (rev spaces) rest' with
      | Some name => Some (digits, name)
      | None => None
      end
  end.

(** The section of one heading: its cards are the items of the first
    [UL] among the following sibling elements. *)
Definition deckSection (header : located) : option deck_section :=
  let sectionText := trim (textContent (here header)) in
  match sectionText with
  | [] => None
  | _ =>
      let nextElement :=
        head (filter (fun n => isElement n && jsstring_eqb (tagName n) (js "UL") = true)
                     (following header)) in
      let cards :=
        match nextElement with
        | Some ul =>
            omap (fun li =>
                    match quantityMatch (textContent li) with
                    | None => None
                    | Some (quantity, name) =>
                        Some (DeckCard (JsNumber.parseInt quantity) (exactClean name))
                    end)
                 (querySelectorAll [SelTag (js "LI")] ul)
        | None => []
        end in
      Some (DeckSection (exactClean sectionText) cards)
  end.

(** [extractDecklist(deckElement)].  The only throw inside the [try] is
    [Deck title not found]; the [catch] rethrows it as an
    [EDHRECParseError]. *)
Definition extractDecklist (deckElement : node) : result block :=
  match querySelector [SelTag (js "H4")] deckElement with
  | None => Throw EDHRECParseError
  | Some deckTitle =>
      let title := exactClean (textContent deckTitle) in
      match querySelector [SelClass (js "Deck_columns__PVSg8")] deckElement with
      | None => Return (decklist title [])
      | Some deckColumns =>
          let sectionHeaders :=
            querySelectorAll_located [SelTag (js "H4")] [] deckColumns in
          Return (decklist title (omap deckSection sectionHeaders))
      end
  end.

Definition processCardContainer (container : node) (upgradeCards : list jsstring)
  : list jsstring :=
  fold_left
    (fun upgradeCards card =>
       match textContent card with
       | [] => upgradeCards
       | cardText => upgradeCards ++ [exactClean cardText]
       end)
    (querySelectorAll [SelClass (js "Card_name__Mpa7S")] container)
    upgradeCards.

(** [tagName.match(/^H[1-4]$/)], with the level [parseInt(tagName[1])]. *)
Definition headingLevel (tag : jsstring) : option N :=
  match tag with
  | [h; d] => if N.eqb h 72 && in_range 49 52 d then Some (d - 48)%N else None
  | _ => None
  end.

(** The callback of [mainContent.forEach]; the state is
    [(contentBlocks, upgradeCards)].  An error of the element's
    processing is rethrown as an [EDHRECParseError]. *)
Definition processElement (element : node) (st : list block * list jsstring)
  : result (list block * list jsstring) :=
  let '(blocks, cards) := st in
  let text := trim (textContent element) in
  if classList_contains element (js "ArticlePage_cards___rqr8")
  then Return (blocks, processCardContainer element cards)
  else
    match headingLevel (tagName element), text with
    | Some level, _ :: _ => Return (blocks ++ [header level (exactClean text)], cards)
    | _, _ =>
        if jsstring_eqb (tagName element) (js "P") && (20 <? length text)
        then
          let cardLinks :=
            querySelectorAll [SelTagAttrContains (js "A") (js "href") (js "/cards/")]
                             element in
          let mentionedCards :=
            filter (fun card => card <> [])
                   (map (fun link => exactClean (textContent link)) cardLinks) in
          Return (blocks ++ [paragraph (exactClean text) (Some mentionedCards)], cards)
        else if classList_contains element (js "edhrecp__deck")
        then match extractDecklist element with
             | Return d => Return (blocks ++ [d], cards)
             | Throw _ => Throw EDHRECParseError
             end
        else Return (blocks, cards)
    end.

(** [contentElements.findIndex(...)] and the [slice] up to it. *)
Fixpoint beforeBoundary (contentElements : list node) : list node :=
  match contentElements with
  | [] => []
  | el :: rest =>
      if includes (textContent el) (js "More Precon Guides:") then []
      else el :: beforeBoundary rest
  end.

Definition extractContentBlocks (contentElement : node) (g : guide) : result guide :=
  let mainContent := beforeBoundary (children contentElement) in
  let? st := forEach processElement mainContent (contentBlocks g, upgradeCards g) in
  Return (Guide (guide_title g) (guide_author g) (guide_date g) (fst st) (snd st)).

Definition textOf (o : option node) : option jsstring :=
  match o with
  | Some el => Some (exactClean (trim (textContent el)))
  | None => None
  end.

(** [extractMetadata]: a missing title throws inside the [try], which
    only warns, so author and date are then left empty as well. *)
Definition extractMetadata (doc : node) (g : guide) : guide :=
  let titleElement :=
    match document_querySelector [SelTag (js "H1")] doc with
    | Some el => Some el
    | None => document_querySelector [SelTag (js "TITLE")] doc
    end in
  match textOf titleElement with
  | None => g
  | Some title =>
      let author :=
        default (guide_author g)
          (textOf (document_querySelector
                     [SelClass (js "author"); SelAttrEq (js "rel") (js "author");
                      SelClass (js "byline")] doc)) in
      let date :=
        default (guide_date g)
          (textOf (document_querySelector
                     [SelClass (js "date"); SelClass (js "article-date");
                      SelTag (js "TIME")] doc)) in
      Guide title author date (contentBlocks g) (upgradeCards g)
  end.

Section Extraction.

(** The browser's HTML parser and the network are parameters. *)
Variable parseFromString : jsstring -> node.
Variable fetch : jsstring -> fetched.

Definition parseUpgradeGuideContent (htmlContent : jsstring) : result guide :=
  let doc := parseFromString htmlContent in
  let guideData := extractMetadata doc (Guide [] [] [] [] []) in
  match document_querySelector [SelClass (js "ArticlePage_content__j0Z44")] doc with
  | None => Throw EDHRECParseError
  | Some contentElement => extractContentBlocks contentElement guideData
  end.

(** One round of the proxy loop: the content fetched, or the error the
    [catch] stores in [lastError]. *)
Definition attempt (proxyUrl : jsstring) : result jsstring :=
  match fetch proxyUrl with
  | Rejected e => Throw e
  | Response false _ => Throw EDHRECFetchError
  | Response true text => text
  end.

Fixpoint fetchLoop (url : jsstring) (proxies : list jsstring) (lastError : option error)
  : result jsstring :=
  match proxies with
  | [] => Throw (default EDHRECFetchError lastError)
  | proxy :: rest =>
      match attempt (proxy ++ url) with
      | Return htmlContent => Return htmlContent
      | Throw e => fetchLoop url rest (Some e)
      end
  end.

Definition fetchWithProxies (url : jsstring) : result jsstring :=
  fetchLoop url proxies None.

(** [extractUpgradeGuide(url)]: the [catch] logs and rethrows. *)
Definition extractUpgradeGuide (url : jsstring) : result guide :=
  let? htmlContent := fetchWithProxies url in
  match htmlContent with
  | [] => Throw EDHRECFetchError
  | _ =>
      let? guideData := parseUpgradeGuideContent htmlContent in
      match contentBlocks guideData with
      | [] => Throw EDHRECContentError
      | _ => Return guideData
      end
  end.

End Extraction.

End StrictGuide.

(** ** The markup of a decklist, as the specification describes it *)

(** These definitions follow the words of the specification, not the
    code: they describe the children of the columns element of a
    decklist and the sections the specification expects for them, to be
    compared with what [StrictGuide.extractDecklist] computes. *)

Module DeckMarkup.
Import Dom Normalizer.

Definition heading4 : selector := [SelTag (js "H4")].


(** A node and its descendants, in document order. *)
Definition subtree (n : node) : list node := n :: map here (descendants [] n).

(** No node of the subtree matches the selector. *)
Definition free (sel : selector) (n : node) : bool :=
  negb (existsb (matches sel) (subtree n)).

(** A list element. *)
Definition isList (n : node) : bool :=
  isElement n && jsstring_eqb (tagName n) (js "UL").

(** The text of a list item: a card, written as an integer, white
    space and a name, or anything that does not start with a digit. *)
Inductive item : Type :=
  | CardItem (digits spaces name : jsstring)
  | OtherItem (text : jsstring).


Definition wellFormedItem (i : item) : Prop :=
  match i with
  | CardItem digits spaces name =>
      digits <> [] /\ forallb is_digit digits = true
      /\ spaces <> [] /\ forallb is_space spaces = true
      /\ match name with c :: _ => is_space c = false | [] => False end
      /\ forallb (fun c => negb (is_line_terminator c)) name = true
  | OtherItem text =>
      match text with c :: _ => is_digit c = false | [] => True end
  end.


(** One section in the columns element: the heading, the siblings
    between it and its list, the list with its items and their
    attributes, and the siblings after the list up to the next heading,
    which may hold further lists. *)
Record sectionMarkup : Type := SectionMarkup {
  heading : node;
  between : list node;
  listAttributes : list (jsstring * jsstring);
  items : list (list (jsstring * jsstring) * item);
  after : list node
}.




Definition wellFormedSection (s : sectionMarkup) : Prop :=
  matches heading4 (heading s) = true
  /\ existsb (matches heading4) (map here (descendants [] (heading s))) = false
  /\ Forall (fun n => free heading4 n = true /\ isList n = false) (between s)
  /\ Forall (fun n => free heading4 n = true) (after s)
  /\ Forall (fun i => wellFormedItem (snd i)) (items s).


End DeckMarkup.

(** ** The legacy upgrade-guide extractor *)

Module LegacyGuide.
Import Dom.

Definition proxies : list jsstring :=
  map js ["https://cors-anywhere.herokuapp.com/"; "https://corsproxy.io/?";
          "https://api.codetabs.com/v1/proxy?quest="; ""]%string.

(** [getSampleUpgradeGuide()]. *)
Definition getSampleUpgradeGuide : guide :=
  Guide
    (js "Veloci-Ramp-Tor Upgrade Guide - Sample Data")
    (js "EDHREC Team")
    (js "2024")
    [ header 1 (js "Veloci-Ramp-Tor Upgrade Guide");
      paragraph (js "Welcome to the upgrade guide for Veloci-Ramp-Tor! This aggressive dinosaur commander wants to smash face quickly and efficiently. We'll be upgrading the mana base, adding powerful threats, and improving the overall consistency.") None;
      header 2 (js "Original Decklist");
      cardlist false
        (map js ["1 Command Tower"; "1 Forest"; "1 Mountain"; "1 Sol Ring";
                 "1 Llanowar Elves"; "1 Lizard Blades"; "1 Swiftfoot Boots"]%string);
      header 2 (js "Mana Base Upgrades");
      paragraph (js "First, let's improve the mana consistency. We need lands that come in untapped and provide multiple colors efficiently.") None;
      individualCard (js "Breeding Pool");
      individualCard (js "Stomping Ground");
      header 2 (js "Powerful Additions");
      paragraph (js "These cards will significantly increase your win percentage by providing explosive turns and powerful effects.") None;
      individualCard (js "Ghalta, Primal Hunger");
      individualCard (js "Terror of the Peaks");
      header 2 (js "Upgraded Decklist");
      cardlist false
        (map js ["1 Command Tower"; "1 Breeding Pool"; "1 Stomping Ground";
                 "1 Sol Ring"; "1 Ghalta, Primal Hunger"; "1 Terror of the Peaks";
                 "1 Nature's Lore"]%string) ]
    [].

(** The first selector whose first hit has non-blank text gives the
    field ([for (const selector of ...)] with [break]). *)
Fixpoint firstText (doc : node) (selectors : list selector) : option jsstring :=
  match selectors with
  | [] => None
  | sel :: rest =>
      match document_querySelector sel doc with
      | Some element =>
          match trim (textContent element) with
          | [] => firstText doc rest
          | text => Some text
          end
      | None => firstText doc rest
      end
  end.

Definition extractMetadata (doc : node) (g : guide) : guide :=
  Guide
    (default (guide_title g)
       (firstText doc [[SelTag (js "H1")]; [SelClass (js "article-title")];
                       [SelClass (js "title")]; [SelTag (js "TITLE")]]))
    (default (guide_author g)
       (firstText doc [[SelClass (js "author")]; [SelClass (js "article-meta")];
                       [SelAttrEq (js "rel") (js "author")]; [SelClass (js "byline")]]))
    (default (guide_date g)
       (firstText doc [[SelClass (js "date")]; [SelClass (js "article-date")];
                       [SelClass (js "published")]; [SelTag (js "TIME")]]))
    (contentBlocks g) (upgradeCards g).

Fixpoint firstHit (doc : node) (selectors : list selector) : option node :=
  match selectors with
  | [] => None
  | sel :: rest =>
      match document_querySelector sel doc with
      | Some element => Some element
      | None => firstHit doc rest
      end
  end.

(** [findMainContentElement(doc)], falling back to [doc.body]. *)
Definition findMainContentElement (doc : node) : option node :=
  match firstHit doc [[SelClass (js "article-content")]; [SelClass (js "content")];
                      [SelTag (js "MAIN")]; [SelAttrEq (js "role") (js "main")];
                      [SelClass (js "post-content")]; [SelClass (js "entry-content")]] with
  | Some element => Some element
  | None => body doc
  end.

Section Extraction.

Variable parseFromString : jsstring -> node.
Variable fetch : jsstring -> fetched.

(** The per-element classifier is a parameter: it reads layout
    ([offsetParent]) and serialization ([outerHTML]) of the browser's
    element, which the tree does not carry. *)
Variable shouldSkipElement : node -> bool.
Variable classifyAndExtractElement : node -> result (option block).
Variable isContentContainer : node -> bool.
Variable isCardElement : node -> bool.

(** [extractContentBlocks(contentElement, guideData)]: the child
    elements in order, recursing into content containers. *)
Fixpoint extractContentBlocks (contentElement : node) (blocks : list block)
  : result (list block) :=
  match contentElement with
  | Text _ => Return blocks
  | Element _ _ cs =>
      (fix elements (cs : list node) (blocks : list block) : result (list block) :=
         match cs with
         | [] => Return blocks
         | element :: rest =>
             if negb (isElement element) then elements rest blocks
             else if shouldSkipElement element then elements rest blocks
             else
               let? contentBlock := classifyAndExtractElement element in
               let blocks1 :=
                 match contentBlock with
                 | Some b => blocks ++ [b]
                 | None => blocks
                 end in
               if isContentContainer element && negb (isCardElement element)
               then let? blocks2 := extractContentBlocks element blocks1 in
                    elements rest blocks2
               else elements rest blocks1
         end) cs blocks
  end.

Definition parseUpgradeGuideContent (htmlContent : jsstring) : result guide :=
  let doc := parseFromString htmlContent in
  let guideData := extractMetadata doc (Guide [] [] [] [] []) in
  match findMainContentElement doc with
  | None => Throw JsError
  | Some contentElement =>
      let? blocks := extractContentBlocks contentElement (contentBlocks guideData) in
      Return (Guide (guide_title guideData) (guide_author guideData)
                    (guide_date guideData) blocks (upgradeCards guideData))
  end.

Definition attempt (proxyUrl : jsstring) : result jsstring :=
  match fetch proxyUrl with
  | Rejected e => Throw e
  | Response false _ => Throw JsError
  | Response true text => text
  end.

Fixpoint fetchLoop (url : jsstring) (proxies : list jsstring) : result jsstring :=
  match proxies with
  | [] => Throw JsError
  | proxy :: rest =>
      match attempt (proxy ++ url) with
      | Return htmlContent => Return htmlContent
      | Throw _ => fetchLoop url rest
      end
  end.

Definition fetchWithProxies (url : jsstring) : result jsstring :=
  fetchLoop url proxies.

(** The body of the [try] block of [extractUpgradeGuide]. *)
Definition tryExtract (url : jsstring) : result guide :=
  let? htmlContent := fetchWithProxies url in
  match htmlContent with
  | [] => Throw JsError
  | _ =>
      let? guideData := parseUpgradeGuideContent htmlContent in
      match contentBlocks guideData with
      | [] => Throw JsError
      | _ => Return guideData
      end
  end.

(** [extractUpgradeGuide(url)]: the [catch] answers with the sample
    guide. *)
Definition extractUpgradeGuide (url : jsstring) : result guide :=
  match tryExtract url with
  | Return guideData => Return guideData
  | Throw _ => Return getSampleUpgradeGuide
  end.

End Extraction.

End LegacyGuide.

(** ** The commander-statistics extractor *)

Record card : Type := Card { name : jsstring; inclusion : jsstring }.

(** A value of the section map: the cards of a section, or a string
    such as the [_deckCount] entry. *)
Inductive section_value : Type :=
  | Cards (cards : list card)
  | Str (s : jsstring).

Module Commander.
Import Dom JsNumber.

(** [parseFloat(a.inclusion) || 0]. *)
Definition pct (c : card) : jsnum := orZero (parseFloat (inclusion c)).

(** The comparator [(a, b) => bPct - aPct] is negative, putting [a]
    before [b], exactly when [bPct < aPct]. *)
Definition before (a b : card) : bool := ltb (pct b) (pct a).

(** Descending order of the percentages: that of [a] is at least that
    of [b]. *)
Definition descending (a b : card) : Prop := geb (pct a) (pct b) = true.

(** [getSampleData(commanderName)]. *)
Definition getSampleData : JsObject.object section_value :=
  [ (js "New Cards",
     Cards [ Card (js "Spider Manifestation") (js "6.1%");
             Card (js "Rhino, Barreling Brute") (js "2.9%");
             Card (js "Lizard, Connors's Curse") (js "2.6%");
             Card (js "Rhino's Rampage") (js "2.0%");
             Card (js "Scarlet Spider, Ben Reilly") (js "1.6%") ]);
    (js "High Synergy Cards",
     Cards [ Card (js "Goreclaw, Terror of Qal Sisma") (js "68%");
             Card (js "Ghalta, Primal Hunger") (js "59%");
             Card (js "Quartzwood Crasher") (js "56%");
             Card (js "Etali, Primal Storm") (js "55%");
             Card (js "Anzrag, the Quake-Mole") (js "54%");
             Card (js "Ilharg, the Raze-Boar") (js "49%");
             Card (js "Bloodthirster") (js "45%");
             Card (js "Ojer Kaslem, Deepest Growth") (js "45%");
             Card (js "Scourge of the Throne") (js "44%") ]);
    (js "Top Cards",
     Cards [ Card (js "Garruk's Uprising") (js "74%");
             Card (js "Cultivate") (js "64%");
             Card (js "Beast Within") (js "63%");
             Card (js "Llanowar Elves") (js "59%");
             Card (js "Goblin Anarchomancer") (js "58%");
             Card (js "Rishkar's Expertise") (js "55%");
             Card (js "Nature's Lore") (js "54%");
             Card (js "Kodama's Reach") (js "53%");
             Card (js "Elvish Mystic") (js "52%");
             Card (js "Blasphemous Act") (js "50%") ]);
    (js "Creatures",
     Cards [ Card (js "Birds of Paradise") (js "50%");
             Card (js "Selvala, Heart of the Wilds") (js "47%");
             Card (js "Savage Ventmaw") (js "47%");
             Card (js "Moraug, Fury of Akoum") (js "44%");
             Card (js "Fanatic of Rhonas") (js "44%") ]) ].

(** [id.replace(/([A-Z])/g, ' $1')]. *)
Fixpoint spaceCapitals (s : jsstring) : jsstring :=
  match s with
  | [] => []
  | c :: s' => if is_upper c then 32%N :: c :: spaceCapitals s'
               else c :: spaceCapitals s'
  end.

Section Extraction.

(** Parameters: the browser's HTML parser and network, the engine's
    Unicode case mappings, the deck-count scan of the raw page (whose
    result is formatted by the locale) and the URL builder. *)
Variable parseFromString : jsstring -> node.
Variable fetch : jsstring -> fetched.
Variable toLowerCase : jsstring -> jsstring.
Variable toUpperCase : jsstring -> jsstring.
Variable extractDeckCount : jsstring -> option jsstring.
Variable generateEDHRECUrl : jsstring -> jsstring.

(** [.replace(/^./, str => str.toUpperCase())]: [.] does not match a
    line terminator. *)
Definition capitalizeFirst (s : jsstring) : jsstring :=
  match s with
  | c :: s' => if is_line_terminator c then s else toUpperCase [c] ++ s'
  | [] => []
  end.

(** The inclusion text of a card container, [''] when absent. *)
Definition inclusionOf (container : node) : jsstring :=
  match querySelector [SelClass (js "CardLabel_container__3M9Zu")] container with
  | None => []
  | Some cardLabelContainer =>
      match querySelector [SelClass (js "CardLabel_line__iQ3O3")] cardLabelContainer with
      | None => []
      | Some inclusionLine =>
          match querySelector [SelClass (js "CardLabel_stat__galuW")] inclusionLine,
                querySelector [SelClass (js "CardLabel_label__iAM7T")] inclusionLine with
          | Some inclusionStat, Some inclusionLabel =>
              let labelText := toLowerCase (textContent inclusionLabel) in
              if includes labelText (js "inclusion") || includes labelText (js "deck")
              then trim (textContent inclusionStat)
              else []
          | _, _ => []
          end
      end
  end.

Definition sectionNameOf (container : located) : jsstring :=
  match closest [SelClass (js "Grid_cardlist__AXXsz")] container with
  | None => js "Unknown"
  | Some grid =>
      match querySelector [SelClass (js "Grid_header__iAPM8")] grid with
      | Some gridHeader => trim (textContent gridHeader)
      | None =>
          match id grid with
          | [] => js "Unknown"
          | gridId => capitalizeFirst (spaceCapitals gridId)
          end
      end
  end.

(** The callback of [cardContainers.forEach].  Reading [sections] at a
    name that [Object.prototype] defines finds a value without [some],
    and the call throws. *)
Definition addContainer (container : located)
    (sections : JsObject.object section_value)
  : result (JsObject.object section_value) :=
  match querySelector [SelClass (js "Card_name__Mpa7S")] (here container) with
  | None => Return sections
  | Some nameElement =>
      let cardName := trim (textContent nameElement) in
      if length cardName <? 2 then Return sections
      else
        let inclusionText := inclusionOf (here container) in
        let sectionName := sectionNameOf container in
        if negb (includes inclusionText (js "$")) && includes inclusionText (js "%")
        then
          match JsObject.get sectionName sections with
          | Some (Cards cards) =>
              if existsb (fun c => jsstring_eqb (name c) cardName) cards
              then Return sections
              else Return (JsObject.set sectionName
                             (Cards (cards ++ [Card cardName inclusionText])) sections)
          | Some (Str (_ :: _)) => Throw JsTypeError
          | Some (Str []) =>
              Return (JsObject.set sectionName
                        (Cards [Card cardName inclusionText]) sections)
          | None =>
              if JsObject.isInherited sectionName then Throw JsTypeError
              else Return (JsObject.set sectionName
                             (Cards [Card cardName inclusionText]) sections)
          end
        else Return sections
  end.

(** [Object.keys(sections).forEach(...)]: every array is sorted in
    place, other values are left alone. *)
Definition sortSections (sections : JsObject.object section_value)
  : JsObject.object section_value :=
  map (fun kv =>
         match snd kv with
         | Cards cards => (fst kv, Cards (JsObject.sort before cards))
         | Str s => (fst kv, Str s)
         end) sections.

Definition parseHTML (htmlContent : jsstring)
  : result (JsObject.object section_value) :=
  let doc := parseFromString htmlContent in
  let cardContainers :=
    document_querySelectorAll_located [SelClass (js "Card_container__Ng56K")] doc in
  let? sections := forEach addContainer cardContainers [] in
  let sections' :=
    match extractDeckCount htmlContent with
    | Some (c :: deckCount) => JsObject.set (js "_deckCount") (Str (c :: deckCount)) sections
    | _ => sections
    end in
  Return (sortSections sections').

(** The body of the [try] block of [extractData].  When the direct
    fetch fails, the proxy rotation spreads [this.fallbackProxies], which
    the constructor never sets, and that throws a [TypeError]. *)
Definition tryExtract (commanderName : jsstring)
  : result (JsObject.object section_value) :=
  let url := generateEDHRECUrl commanderName in
  let direct :=
    match fetch url with
    | Rejected e => Throw e
    | Response false _ => Throw JsError
    | Response true text => text
    end in
  match direct with
  | Return htmlContent => parseHTML htmlContent
  | Throw _ => Throw JsTypeError
  end.

(** [extractData(commanderName)]: the [catch] answers with the sample
    data. *)
Definition extractData (commanderName : jsstring)
  : result (JsObject.object section_value) :=
  match tryExtract commanderName with
  | Return sections => Return sections
  | Throw _ => Return getSampleData
  end.

End Extraction.

End Commander.

(** ** The export manager: text lists *)

Module ExportManager.
Import JsNumber.

(** [s.split(c)] for a one-character separator. *)
Fixpoint split (sep : N) (s : jsstring) : list jsstring :=
  match s with
  | [] => [[]]
  | c :: s' =>
      if N.eqb c sep then [] :: split sep s'
      else match split sep s' with
           | cur :: rest => (c :: cur) :: rest
           | [] => [[c]]
           end
  end.

(** [lines.join(sep)]. *)
Fixpoint join (sep : jsstring) (lines : list jsstring) : jsstring :=
  match lines with
  | [] => []
  | [l] => l
  | l :: rest => l ++ sep ++ join sep rest
  end.

Fixpoint uintChars (u : Decimal.uint) : jsstring :=
  match u with
  | Decimal.Nil => []
  | Decimal.D0 u => 48%N :: uintChars u
  | Decimal.D1 u => 49%N :: uintChars u
  | Decimal.D2 u => 50%N :: uintChars u
  | Decimal.D3 u => 51%N :: uintChars u
  | Decimal.D4 u => 52%N :: uintChars u
  | Decimal.D5 u => 53%N :: uintChars u
  | Decimal.D6 u => 54%N :: uintChars u
  | Decimal.D7 u => 55%N :: uintChars u
  | Decimal.D8 u => 56%N :: uintChars u
  | Decimal.D9 u => 57%N :: uintChars u
  end.

(** A length inside a template literal. *)
Definition decimal (n : nat) : jsstring := uintChars (Nat.to_uint n).

Section TextList.

(** The bullet that starts a card line, and the text of
    [new Date().toLocaleDateString()]. *)
Variable bullet : jsstring.
Variable today : jsstring.

Definition cardLine (c : card) : jsstring :=
  bullet ++ js " " ++ name c ++ js " - " ++ inclusion c.

(** The lines pushed for one entry of [Object.entries(cardData)];
    [forEach] is not defined on a string. *)
Definition sectionLines (entry : jsstring * section_value) : result (list jsstring) :=
  let '(sectionName, cards) := entry in
  match cards with
  | Cards cards =>
      Return ([ sectionName ++ js " (" ++ decimal (length cards) ++ js " cards)";
                repeat 61%N (length sectionName + 10) ]
              ++ map cardLine cards ++ [ [] ])
  | Str _ => Throw JsTypeError
  end.

Definition exportToText (cardData : JsObject.object section_value) : result jsstring :=
  let? lines :=
    forEach (fun entry lines => let? ls := sectionLines entry in Return (lines ++ ls))
            (JsObject.entries cardData)
            [ js "EDHREC Card List"; js "Generated on: " ++ today ++ [10%N] ] in
  Return (join [10%N] lines).

End TextList.

(** [/^\d+x\s/]: the text after the prefix, when it matches. *)
Definition stripQuantity (s : jsstring) : option jsstring :=
  let '(digits, rest) := span is_digit s in
  match digits, rest with
  | _ :: _, x :: sp :: rest' =>
      if N.eqb x 120 && is_space sp then Some rest' else None
  | _, _ => None
  end.

(** The text up to the first [c], when no line terminator comes first. *)
Fixpoint upTo (c : N) (s : jsstring) : option (jsstring * jsstring) :=
  match s with
  | [] => None
  | x :: s' =>
      if N.eqb x c then Some ([], s')
      else if is_line_terminator x then None
      else match upTo c s' with
           | Some (a, b) => Some (x :: a, b)
           | None => None
           end
  end.

(** The bracket pattern of [parseCardList]: an opening bracket, the
    shortest text up to a closing bracket (first group), optional white
    space, and the rest of the line (second group).  The two groups of
    the leftmost match. *)
Fixpoint bracketMatch (s : jsstring) : option (jsstring * jsstring) :=
  match s with
  | [] => None
  | x :: s' =>
      match (if N.eqb x 91 then upTo 93 s' else None) with
      | Some (inside, rest) =>
          Some (inside,
                fst (span (fun c => negb (is_line_terminator c)) (trimStart rest)))
      | None => bracketMatch s'
      end
  end.

Record imported : Type := Imported {
  imported_name : jsstring;
  imported_inclusion : jsstring;
  imported_section : jsstring
}.

(** One round of [for (const line of lines)]; the state is
    [(cards, currentSection)]. *)
Definition parseLine (line : jsstring) (st : list imported * jsstring)
  : list imported * jsstring :=
  let '(cards, currentSection) := st in
  let trimmedLine := trim line in
  if match trimmedLine with [] => true | _ => false end
     || startsWith trimmedLine (js "//") || startsWith trimmedLine (js "#")
  then st
  else if endsWith trimmedLine (js ")") && includes trimmedLine (js "(")
  then (cards, trim (hd [] (split 40 trimmedLine)))
  else
    let '(cardName, inclusionText) :=
      if includes trimmedLine (js "-")
      then
        let parts := map trim (split 45 trimmedLine) in
        if 2 <=? length parts
        then
          let last := List.last parts [] in
          (trim (join (js "-") (removelast parts)),
           if includes last (js "%") then last else [])
        else (trimmedLine, [])
      else (trimmedLine, []) in
    let cardName :=
      match stripQuantity cardName with
      | Some rest => rest
      | None => cardName
      end in
    let '(cardName, inclusionText) :=
      match bracketMatch cardName with
      | Some (inside, rest) => (rest, inside)
      | None => (cardName, inclusionText)
      end in
    match cardName with
    | [] => st
    | _ =>
        (cards ++ [Imported cardName
                      (match inclusionText with [] => js "N/A" | _ => inclusionText end)
                      currentSection],
         currentSection)
    end.

(** The callback of [cards.forEach] that groups the cards by section. *)
Definition addImported (c : imported) (sections : JsObject.object section_value)
  : result (JsObject.object section_value) :=
  let entry := Card (imported_name c) (imported_inclusion c) in
  match JsObject.get (imported_section c) sections with
  | Some (Cards cards) =>
      Return (JsObject.set (imported_section c) (Cards (cards ++ [entry])) sections)
  | Some (Str (_ :: _)) => Throw JsTypeError
  | Some (Str []) =>
      Return (JsObject.set (imported_section c) (Cards [entry]) sections)
  | None =>
      if JsObject.isInherited (imported_section c) then Throw JsTypeError
      else Return (JsObject.set (imported_section c) (Cards [entry]) sections)
  end.

Definition parseCardList (textContent : jsstring)
  : result (JsObject.object section_value) :=
  let lines := split 10 textContent in
  let '(cards, _) :=
    fold_left (fun st line => parseLine line st) lines ([], js "Imported Cards") in
  forEach addImported cards [].

End ExportManager.

(** ** The export manager: the cutoff filter over a store *)

(** [filterCardsByInclusion] receives references to objects that its
    caller keeps using, so it is modelled over a store: objects and
    arrays live at locations, and values refer to them. *)
Module Store.
Import JsNumber.

Abbreviation loc := nat (only parsing).

Inductive val : Type :=
  | VUndefined
  | VNull
  | VBool (b : bool)
  | VNum (x : jsnum)
  | VStr (s : jsstring)
  | VRef (l : loc).

Inductive obj : Type :=
  | OObject (props : JsObject.object val)
  | OArray (elems : list val).

Abbreviation heap := (gmap loc obj).

(** A new object is placed at a location not in use. *)
Definition alloc (o : obj) (h : heap) : heap * loc :=
  let l := fresh (dom h) in (<[l := o]> h, l).

(** [target[k] = v] for an object at [target]. *)
Definition setProperty (target : loc) (k : jsstring) (v : val) (h : heap) : heap :=
  match h !! target with
  | Some (OObject props) => <[target := OObject (JsObject.set k v props)]> h
  | _ => h
  end.

(** The index keys ["0"], ["1"], ... paired with the elements. *)
Definition indexed {A : Type} (l : list A) : list (jsstring * A) :=
  imap (fun i x => (ExportManager.decimal i, x)) l.

(** [Object.entries(v)]. *)
Definition entriesOf (h : heap) (v : val) : result (list (jsstring * val)) :=
  match v with
  | VUndefined | VNull => Throw JsTypeError
  | VBool _ | VNum _ => Return []
  | VStr s => Return (indexed (map (fun c => VStr [c]) s))
  | VRef l =>
      match h !! l with
      | Some (OObject props) => Return (JsObject.entries props)
      | Some (OArray elems) => Return (indexed elems)
      | None => Throw JsTypeError
      end
  end.

(** The first group of the leftmost match of the percentage pattern:
    digits, optionally a point and digits, then a percent sign. *)
Definition percentHere (s : jsstring) : option jsstring :=
  let '(ipart, rest) := span is_digit s in
  match ipart with
  | [] => None
  | _ =>
      let '(number, rest') :=
        match rest with
        | c :: r =>
            if N.eqb c 46
            then match span is_digit r with
                 | ([], _) => (ipart, rest)
                 | (fpart, r') => (ipart ++ c :: fpart, r')
                 end
            else (ipart, rest)
        | [] => (ipart, rest)
        end in
      match rest' with
      | c :: _ => if N.eqb c 37 then Some number else None
      | [] => None
      end
  end.

Fixpoint inclusionMatch (s : jsstring) : option jsstring :=
  match percentHere s with
  | Some number => Some number
  | None => match s with
            | [] => None
            | _ :: s' => inclusionMatch s'
            end
  end.

(** [card.inclusion] for the optional chain: [None] when reading the
    property throws. *)
Definition inclusionProperty (h : heap) (card : val) : result val :=
  match card with
  | VUndefined | VNull => Throw JsTypeError
  | VBool _ | VNum _ | VStr _ => Return VUndefined
  | VRef l =>
      match h !! l with
      | Some (OObject props) => Return (default VUndefined (JsObject.get (js "inclusion") props))
      | Some (OArray _) => Return VUndefined
      | None => Throw JsTypeError
      end
  end.

(** The callback of [cards.filter]: cards without a percentage are
    kept; calling [match] on a value that is not a string throws. *)
Definition keepCard (h : heap) (cutoffPercent : jsnum) (card : val) : result bool :=
  let? inc := inclusionProperty h card in
  match inc with
  | VUndefined | VNull => Return true
  | VStr s =>
      match inclusionMatch s with
      | None => Return true
      | Some number => Return (geb (parseFloat number) cutoffPercent)
      end
  | VBool _ | VNum _ | VRef _ => Throw JsTypeError
  end.

Fixpoint filterCards (h : heap) (cutoffPercent : jsnum) (cards : list val)
  : result (list val) :=
  match cards with
  | [] => Return []
  | card :: rest =>
      let? keep := keepCard h cutoffPercent card in
      let? kept := filterCards h cutoffPercent rest in
      Return (if keep then card :: kept else kept)
  end.

(** The body of [for (const [sectionName, cards] of ...)]. *)
Definition filterSection (filteredData : loc) (cutoffPercent : jsnum)
    (entry : jsstring * val) (h : heap) : heap * result unit :=
  let '(sectionName, cards) := entry in
  if startsWith sectionName (js "_")
  then (setProperty filteredData sectionName cards h, Return tt)
  else
    match cards with
    | VRef l =>
        match h !! l with
        | Some (OArray elems) =>
            match filterCards h cutoffPercent elems with
            | Return kept =>
                let '(h1, arr) := alloc (OArray kept) h in
                (setProperty filteredData sectionName (VRef arr) h1, Return tt)
            | Throw e => (h, Throw e)
            end
        | _ => (h, Throw JsTypeError)
        end
    | _ => (h, Throw JsTypeError)
    end.

Fixpoint filterSections (filteredData : loc) (cutoffPercent : jsnum)
    (entries : list (jsstring * val)) (h : heap) : heap * result unit :=
  match entries with
  | [] => (h, Return tt)
  | entry :: rest =>
      match filterSection filteredData cutoffPercent entry h with
      | (h1, Return _) => filterSections filteredData cutoffPercent rest h1
      | (h1, Throw e) => (h1, Throw e)
      end
  end.

(** [filterCardsByInclusion(cardData, cutoffPercent)]: the store after
    the call and the value returned or thrown. *)
Definition filterCardsByInclusion (cardData : val) (cutoffPercent : jsnum) (h : heap)
  : heap * result val :=
  let '(h1, filteredData) := alloc (OObject []) h in
  match entriesOf h1 cardData with
  | Throw e => (h1, Throw e)
  | Return entries =>
      match filterSections filteredData cutoffPercent entries h1 with
      | (h2, Return _) => (h2, Return (VRef filteredData))
      | (h2, Throw e) => (h2, Throw e)
      end
  end.

(** A section map: an object whose own keys are distinct, as in any
    object, and do not include [__proto__], a key that property
    assignment never creates. *)
Definition sectionMap (props : JsObject.object val) : Prop :=
  NoDup (map fst props) /\ ~ In (js "__proto__") (map fst props).

(** A store that holds everything [h] holds. *)
Definition extends (h h' : heap) : Prop :=
  forall a o, h !! a = Some o -> h' !! a = Some o.

(** A card record of a section map: an object whose [inclusion] is a
    string, or is missing, [undefined] or [null]. *)
Definition cardRecord (h : heap) (v : val) : Prop :=
  exists l props,
    v = VRef l /\ h !! l = Some (OObject props)
    /\ match JsObject.get (js "inclusion") props with
       | None | Some VUndefined | Some VNull | Some (VStr _) => True
       | Some (VBool _) | Some (VNum _) | Some (VRef _) => False
       end.

(** An entry of a section map: under an underscore-prefixed name
    anything, such as the deck count; under any other name an array of
    card records. *)
Definition sectionEntry (h : heap) (entry : jsstring * val) : Prop :=
  startsWith (fst entry) (js "_") = true
  \/ exists l cards,
       snd entry = VRef l /\ h !! l = Some (OArray cards)
       /\ Forall (cardRecord h) cards.

(** What the new map holds for an entry of the input, [h] being the
    store before the call and [h'] the store after it: the very value of
    an underscore-prefixed entry, and for a section a new array with the
    cards that pass the filter. *)
Definition filteredEntry (h h' : heap) (cutoffPercent : jsnum)
    (entry : jsstring * val) (v' : val) : Prop :=
  if startsWith (fst entry) (js "_") then v' = snd entry
  else exists l cards l' kept,
         snd entry = VRef l /\ h !! l = Some (OArray cards)
         /\ v' = VRef l' /\ h !! l' = None /\ h' !! l' = Some (OArray kept)
         /\ filterCards h cutoffPercent cards = Return kept.

End Store.

(** ** Sample inputs *)

Module Samples.

Definition landsList : node :=
  Element (js "UL") []
    [ Element (js "LI") [] [Text (js "1 Command Tower")];
      Element (js "LI") [] [Text (js "2 Forest")] ].


(** The same decklist in the site's markup: the sections sit in the
    columns container and their headings are heading-4 elements. *)
Definition siteDecklist : node :=
  Element (js "DIV") [(js "class", js "edhrecp__deck")]
    [ Element (js "H4") [] [Text (js "Deck")];
      Element (js "DIV") [(js "class", js "Deck_columns__PVSg8")]
        [ Element (js "H4") [] [Text (js "Lands")];
          landsList ] ].




Definition landsSection : deck_section :=
  DeckSection (js "Lands")
    [ DeckCard (JsNumber.Num 1) (js "Command Tower");
      DeckCard (JsNumber.Num 2) (js "Forest") ].

(** A statistics page with one section, "Top Cards", whose three
    cards carry the inclusion values 12%, 68% and 5% in that order. *)
Definition cardContainer (cardName inclusionText : jsstring) : node :=
  Element (js "DIV") [(js "class", js "Card_container__Ng56K")]
    [ Element (js "SPAN") [(js "class", js "Card_name__Mpa7S")] [Text cardName];
      Element (js "DIV") [(js "class", js "CardLabel_container__3M9Zu")]
        [ Element (js "DIV") [(js "class", js "CardLabel_line__iQ3O3")]
            [ Element (js "SPAN") [(js "class", js "CardLabel_stat__galuW")]
                [Text inclusionText];
              Element (js "SPAN") [(js "class", js "CardLabel_label__iAM7T")]
                [Text (js "inclusion")] ] ] ].

Definition statsPage : node :=
  Element (js "HTML") []
    [ Element (js "HEAD") [] [];
      Element (js "BODY") []
        [ Element (js "DIV") [(js "class", js "Grid_cardlist__AXXsz");
                              (js "id", js "topcards")]
            [ Element (js "DIV") [(js "class", js "Grid_header__iAPM8")]
                [Text (js "Top Cards")];
              cardContainer (js "Cultivate") (js "12%");
              cardContainer (js "Sol Ring") (js "68%");
              cardContainer (js "Bloodthirster") (js "5%") ] ] ].

(** A network on which every request is rejected, and one that serves
    a page without content. *)
Definition guideUrl : jsstring := js "https://edhrec.com/articles/upgrade-guide".
Definition networkDown : jsstring -> fetched := fun _ => Rejected JsTypeError.
Definition respondsNotOk : jsstring -> fetched := fun _ => Response false (Return []).
Definition emptyHtml : jsstring := js "<html><head></head><body></body></html>".
Definition servesEmptyPage : jsstring -> fetched :=
  fun _ => Response true (Return emptyHtml).
Definition emptyPage : node :=
  Element (js "HTML") [] [ Element (js "HEAD") [] []; Element (js "BODY") [] [] ].

(** A page whose article container is there but empty. *)
Definition blankArticle : node :=
  Element (js "HTML") []
    [ Element (js "HEAD") [] [];
      Element (js "BODY") []
        [ Element (js "DIV") [(js "class", js "ArticlePage_content__j0Z44")] [] ] ].

(** A classifier that skips nothing and recognises nothing. *)
Definition skipNothing : node -> bool := fun _ => false.
Definition classifyNothing : node -> result (option block) := fun _ => Return None.
Definition noContainer : node -> bool := fun _ => false.

(** A section map with one section and one card, the two spellings of
    the bullet found in the copies of [exportToText] (U+2022, and its
    UTF-8 bytes read as Windows-1252), and a date. *)
Definition topCards : JsObject.object section_value :=
  [ (js "Top Cards", Cards [ Card (js "Sol Ring") (js "68%") ]) ].
Definition bullet : jsstring := [8226%N].
Definition bulletMisread : jsstring := [226%N; 8364%N; 162%N].
Definition today : jsstring := js "11/2/2026".

(** What [parseCardList] makes of the exported [topCards]. *)
Definition reimported (bullet : jsstring) : JsObject.object section_value :=
  [ (js "Imported Cards",
     Cards [ Card (js "EDHREC Card List") (js "N/A");
             Card (js "Generated on: 11/2/2026") (js "N/A") ]);
    (js "Top Cards",
     Cards [ Card (js "===================") (js "N/A");
             Card (bullet ++ js " Sol Ring") (js "68%") ]) ].

(** A store holding a section map at location 0: one section with two
    cards, and the deck count. *)
Definition store : gmap nat Store.obj :=
  <[0 := Store.OObject [ (js "Top Cards", Store.VRef 1);
                         (js "_deckCount", Store.VStr (js "5 decks")) ]]>
  (<[1 := Store.OArray [Store.VRef 2; Store.VRef 3]]>
  (<[2 := Store.OObject [ (js "name", Store.VStr (js "Sol Ring"));
                          (js "inclusion", Store.VStr (js "68%")) ]]>
  (<[3 := Store.OObject [ (js "name", Store.VStr (js "Cultivate"));
                          (js "inclusion", Store.VStr (js "12.5%")) ]]> ∅))).

(** Case mappings restricted to ASCII, enough for the sample pages. *)
Definition asciiLowerCase (s : jsstring) : jsstring :=
  map (fun c => if is_upper c then (c + 32)%N else c) s.
Definition asciiUpperCase (s : jsstring) : jsstring :=
  map (fun c => if is_lower c then (c - 32)%N else c) s.

End Samples.

(** ** Further code *)

(** The functions below are neighbours, callees and callers of the ones
    above in the same source files. *)

(** *** Shapes of the strict extractor's output *)

Module StrictShape.

Definition wellFormedSection (s : deck_section) : Prop :=
  section_name s <> []
  /\ Forall (fun c => deck_card_name c <> []) (section_cards s).

(** What a content block of the strict extractor looks like. *)
Definition strictBlock (b : block) : Prop :=
  match b with
  | header level text => (1 <= level <= 4)%N /\ text <> []
  | paragraph text (Some mentioned) =>
      text <> [] /\ Forall (fun c : jsstring => c <> []) mentioned
  | decklist title sections => Forall wellFormedSection sections
  | _ => False
  end.

(** An attempt of the proxy loop that ends in its [catch]. *)
Definition fails (fetch : jsstring -> fetched) (url proxy : jsstring) : Prop :=
  exists e, StrictGuide.attempt fetch (proxy ++ url) = Throw e.

End StrictShape.

(** *** The strict display engine: counting and grouping blocks *)

Module StrictDisplay.

(** The object [{header, paragraph, decklist}] of [countContentTypes]. *)
Record counts : Type := Counts {
  header_count : nat;
  paragraph_count : nat;
  decklist_count : nat
}.

(** [countContentTypes(contentBlocks)] of the strict extractor: a block
    whose [type] is not a key of [counts] is not counted. *)
Definition countContentTypes (contentBlocks : list block) : counts :=
  fold_left
    (fun c b =>
       match b with
       | header _ _ => Counts (S (header_count c)) (paragraph_count c) (decklist_count c)
       | paragraph _ _ => Counts (header_count c) (S (paragraph_count c)) (decklist_count c)
       | decklist _ _ => Counts (header_count c) (paragraph_count c) (S (decklist_count c))
       | cardlist _ _ | individualCard _ => c
       end)
    contentBlocks (Counts 0 0 0).

(** An entry of [groups]: a header or decklist block itself, or a
    [paragraph-group]. *)
Inductive group : Type :=
  | single (b : block)
  | paragraphGroup (blocks : list block).

(** [if (currentGroup.length > 0) groups.push({type: 'paragraph-group',
    blocks: currentGroup})]. *)
Definition flush (groups : list group) (currentGroup : list block) : list group :=
  match currentGroup with
  | [] => groups
  | _ => groups ++ [paragraphGroup currentGroup]
  end.

(** The loop of [groupContentBlocks]; the state is
    [(groups, currentGroup)]. *)
Definition groupStep (st : list group * list block) (b : block)
  : list group * list block :=
  let '(groups, currentGroup) := st in
  match b with
  | header _ _ | decklist _ _ => (flush groups currentGroup ++ [single b], [])
  | paragraph _ _ => (groups, currentGroup ++ [b])
  | cardlist _ _ | individualCard _ => (groups, currentGroup)
  end.

Definition groupContentBlocks (contentBlocks : list block) : list group :=
  let '(groups, currentGroup) := fold_left groupStep contentBlocks ([], []) in
  flush groups currentGroup.

(** The blocks of a list of groups, in order. *)
Definition blocksOf (g : group) : list block :=
  match g with
  | single b => [b]
  | paragraphGroup blocks => blocks
  end.

Definition isParagraph (b : block) : bool :=
  match b with paragraph _ _ => true | _ => false end.

(** The blocks that [groupContentBlocks] keeps. *)
Definition displayed (b : block) : bool :=
  match b with
  | header _ _ | paragraph _ _ | decklist _ _ => true
  | cardlist _ _ | individualCard _ => false
  end.

(** Groups as the loop builds them: a paragraph group is non-empty and
    holds paragraphs only, a single entry is a header or a decklist, and
    no two paragraph groups are neighbours. *)
Definition wellFormedGroup (g : group) : Prop :=
  match g with
  | single b => displayed b = true /\ isParagraph b = false
  | paragraphGroup blocks => blocks <> [] /\ Forall (fun b => isParagraph b = true) blocks
  end.

Definition isParagraphGroup (g : group) : bool :=
  match g with paragraphGroup _ => true | single _ => false end.

Fixpoint separated (groups : list group) : Prop :=
  match groups with
  | g :: rest =>
      match head rest with
      | Some g' => isParagraphGroup g && isParagraphGroup g' = false
      | None => True
      end /\ separated rest
  | [] => True
  end.

(** The last entry pushed is not a paragraph group. *)
Definition endsSingle (groups : list group) : Prop :=
  match last groups with
  | Some g => isParagraphGroup g = false
  | None => True
  end.

End StrictDisplay.

(** *** Replacing runs of characters *)

Module Text.

(** [s.replace(/p+/g, r)] for a character class [p] and a one-character
    replacement: every maximal run of characters of the class becomes
    [r].  [inRun] tells that the character before belongs to the run
    being replaced. *)
Fixpoint collapseFrom (p : N -> bool) (r : N) (inRun : bool) (s : jsstring) : jsstring :=
  match s with
  | [] => []
  | c :: s' =>
      if p c
      then if inRun then collapseFrom p r true s' else r :: collapseFrom p r true s'
      else c :: collapseFrom p r false s'
  end.

Definition collapse (p : N -> bool) (r : N) (s : jsstring) : jsstring :=
  collapseFrom p r false s.

(** No two neighbours are both of the class. *)
Fixpoint noRepeat (p : N -> bool) (s : jsstring) : bool :=
  match s with
  | a :: ((b :: _) as rest) => negb (p a && p b) && noRepeat p rest
  | _ => true
  end.

End Text.

(** *** The legacy extractor's classifier *)

Module LegacyClassifier.
Import Dom CardName Text.

Definition MIN_PARAGRAPH_LENGTH : nat := 20.

Definition hasAttribute (n : node) (name : jsstring) : bool :=
  match getAttribute n name with Some _ => true | None => false end.

(** [element.querySelectorAll(...)] for a selector given as a test on
    an element: the descendant elements that pass, in document order. *)
Definition selectAll (test : node -> bool) (n : node) : list node :=
  filter (fun c => isElement c && test c = true) (map here (descendants [] n)).

(** The clone of [cleanTextContent] once its [script] and [style]
    descendants are removed. *)
Fixpoint withoutScripts (n : node) : node :=
  match n with
  | Text d => Text d
  | Element t a cs =>
      Element t a
        ((fix go (cs : list node) : list node :=
            match cs with
            | [] => []
            | c :: rest =>
                if matches [SelTag (js "SCRIPT"); SelTag (js "STYLE")] c
                then go rest
                else withoutScripts c :: go rest
            end) cs)
  end.

(** The string part of [cleanTextContent]. *)
Definition normalizeWhitespace (s : jsstring) : jsstring :=
  trim (collapse (N.eqb 10) 32 (collapse is_space 32 s)).

Definition cleanTextContent (element : node) : jsstring :=
  normalizeWhitespace (textContent (withoutScripts element)).

(** [img.alt]: the attribute, or the empty string. *)
Definition alt (img : node) : jsstring :=
  match getAttribute img (js "alt") with Some v => v | None => [] end.

Definition cardClasses : list jsstring :=
  map js ["card"; "card-image"; "card-preview"; "card-frame"]%string.

Definition withCardName (c : node) : bool := hasAttribute c (js "data-card-name").

Definition imageWithAlt (c : node) : bool :=
  matchesTag (js "IMG") c && hasAttribute c (js "alt").

Definition isCardElement (element : node) : bool :=
  let hasCardClass :=
    existsb (fun cls =>
               classList_contains element cls
               || match querySelector [SelClass cls] element with
                  | Some _ => true
                  | None => false
                  end) cardClasses in
  let hasCardData :=
    hasAttribute element (js "data-card-name")
    || match selectAll withCardName element with _ :: _ => true | [] => false end in
  let cardImages := selectAll imageWithAlt element in
  let hasCardImage := existsb (fun img => looksLikeCardName (alt img)) cardImages in
  hasCardClass || hasCardData || hasCardImage.

(** [extractCardNameFromElement]: [None] stands for [null]. *)
Definition extractCardNameFromElement (element : node) : option jsstring :=
  let dataCardName :=
    match getAttribute element (js "data-card-name") with
    | Some ((_ :: _) as v) => Some v
    | _ =>
        match selectAll withCardName element with
        | c :: _ => getAttribute c (js "data-card-name")
        | [] => None
        end
    end in
  match dataCardName with
  | Some ((_ :: _) as v) => Some (trim v)
  | _ =>
      match find (fun img => looksLikeCardName (alt img)) (selectAll imageWithAlt element) with
      | Some img => Some (trim (alt img))
      | None =>
          let text := trim (textContent element) in
          if looksLikeCardName text then Some text else None
      end
  end.

Definition isParagraphLike (element : node) : bool :=
  if negb (existsb (jsstring_eqb (tagName element))
             (map js ["DIV"; "SECTION"; "ARTICLE"; "MAIN"]%string))
  then false
  else
    let text := cleanTextContent element in
    let hasSubstantialText := MIN_PARAGRAPH_LENGTH <=? length text in
    let isCardContainer := isCardElement element in
    hasSubstantialText && negb isCardContainer.

(** [tagName.match(/^H[1-6]$/)], with the level
    [parseInt(tagName.substring(1))]. *)
Definition headingLevel (tag : jsstring) : option N :=
  match tag with
  | [h; d] => if N.eqb h 72 && in_range 49 54 d then Some (d - 48)%N else None
  | _ => None
  end.

Section Classifier.

(** [element.offsetParent] comes from the browser's layout, and the
    undefined identifier of [extractListItems] makes the engine throw a
    [ReferenceError], a class that [error] does not list: whatever value
    stands for it. *)
Variable offsetParent : node -> option node.
Variable referenceError : error.

Definition skipSelectors : selector :=
  map (fun cls => SelClass (js cls))
      ["ad"; "nav"; "sidebar"; "footer"; "header"; "menu"; "ads"]%string.

Definition skipClasses : list jsstring :=
  map js ["advertisement"; "ad"; "navigation"; "nav"; "sidebar"; "footer";
          "header"]%string.

Definition shouldSkipElement (element : node) : bool :=
  match offsetParent element with
  | None => true
  | Some _ =>
      if jsstring_eqb (tagName element) (js "SCRIPT")
         || jsstring_eqb (tagName element) (js "STYLE")
      then true
      else if existsb (fun sel => matches [sel] element) skipSelectors then true
      else if existsb (classList_contains element) skipClasses then true
      else length (cleanTextContent element) <? 10
  end.

Definition isContentContainer (element : node) : bool :=
  existsb (jsstring_eqb (tagName element))
    (map js ["DIV"; "SECTION"; "ARTICLE"; "MAIN"; "ASIDE"]%string)
  && negb (shouldSkipElement element).

(** [extractListItems(listElement)]: its second statement reads the
    identifier [listElements], which is declared nowhere. *)
Definition extractListItems (listElement : node) : result (list jsstring) :=
  Throw referenceError.

(** The last two steps of [classifyAndExtractElement]. *)
Definition classifyCard (element : node) : option block :=
  if isCardElement element
  then match extractCardNameFromElement element with
       | Some ((_ :: _) as cardName) => Some (individualCard cardName)
       | _ => None
       end
  else None.

Definition classifyList (element : node) : result (option block) :=
  if jsstring_eqb (tagName element) (js "UL") || jsstring_eqb (tagName element) (js "OL")
  then
    let? listItems := extractListItems element in
    match listItems with
    | _ :: _ =>
        Return (Some (cardlist (jsstring_eqb (tagName element) (js "OL")) listItems))
    | [] => Return (classifyCard element)
    end
  else Return (classifyCard element).

Definition classifyAndExtractElement (element : node) : result (option block) :=
  match headingLevel (tagName element) with
  | Some level => Return (Some (header level (cleanTextContent element)))
  | None =>
      if jsstring_eqb (tagName element) (js "P") || isParagraphLike element
      then
        let text := cleanTextContent element in
        if MIN_PARAGRAPH_LENGTH <=? length text
        then Return (Some (paragraph text None))
        else classifyList element
      else classifyList element
  end.

(** The legacy extractor with its own classifier. *)
Definition extractUpgradeGuide (parseFromString : jsstring -> node)
    (fetch : jsstring -> fetched) (url : jsstring) : result guide :=
  LegacyGuide.extractUpgradeGuide parseFromString fetch shouldSkipElement
    classifyAndExtractElement isContentContainer isCardElement url.

End Classifier.

(** What such a string looks like: every white-space character is a
    space, no two spaces are neighbours, and neither end is a space. *)
Definition normalized (s : jsstring) : Prop :=
  Forall (fun c => is_space c = true -> c = 32%N) s
  /\ noRepeat is_space s = true
  /\ match head s with Some c => is_space c = false | None => True end
  /\ match last s with Some c => is_space c = false | None => True end.

(** The blocks the classifier can return. *)
Definition legacyBlock (b : block) : Prop :=
  match b with
  | header level text => (1 <= level <= 6)%N /\ normalized text
  | paragraph text None => MIN_PARAGRAPH_LENGTH <= length text /\ normalized text
  | individualCard cardName => cardName <> []
  | _ => False
  end.

End LegacyClassifier.

(** *** Card lists: validation and counting *)

Module CardList.
Import ExportManager.

(** The [cards] array of [parseCardList] before it is grouped. *)
Definition importedCards (textContent : jsstring) : list imported :=
  fst (fold_left (fun st line => parseLine line st) (split 10 textContent)
         ([], js "Imported Cards")).

(** The result object of [validateCardList]. *)
Record validation : Type := Validation {
  isValid : bool;
  errors : list jsstring;
  warnings : list jsstring
}.

(** The callback of [cards.forEach((card, index) => ...)]; the state is
    [(errors, warnings)]. *)
Definition validateCard (section : jsstring) (index : nat) (c : card)
    (st : list jsstring * list jsstring) : list jsstring * list jsstring :=
  let '(errors, warnings) := st in
  let errors :=
    if match name c with [] => true | _ => false end
       || (length (trim (name c)) =? 0)
    then errors ++ [js "Empty card name in " ++ section ++ js " at position "
                    ++ decimal (index + 1)]
    else errors in
  let warnings :=
    if match name c with [] => false | _ => true end && (100 <? length (name c))
    then warnings ++ [js "Long card name in " ++ section ++ js ": " ++ [34%N]
                      ++ substring (name c) 0 50 ++ js "..." ++ [34%N]]
    else warnings in
  (errors, warnings).

Fixpoint validateCards (section : jsstring) (index : nat) (cards : list card)
    (st : list jsstring * list jsstring) : list jsstring * list jsstring :=
  match cards with
  | [] => st
  | c :: rest => validateCards section (S index) rest (validateCard section index c st)
  end.

(** The body of [for (const [section, cards] of Object.entries(cardData))];
    the state is [(totalCards, errors, warnings)].  A string has a
    [length] but no [forEach]. *)
Definition validateSection (entry : jsstring * section_value)
    (st : nat * list jsstring * list jsstring)
  : result (nat * list jsstring * list jsstring) :=
  let '(totalCards, errors, warnings) := st in
  match snd entry with
  | Cards cards =>
      let totalCards := totalCards + length cards in
      let warnings :=
        if length cards =? 0
        then warnings ++ [js "Section " ++ [34%N] ++ fst entry ++ [34%N] ++ js " is empty"]
        else warnings in
      let '(errors, warnings) := validateCards (fst entry) 0 cards (errors, warnings) in
      Return (totalCards, errors, warnings)
  | Str _ => Throw JsTypeError
  end.

Definition validateCardList (cardData : JsObject.object section_value)
  : result validation :=
  match cardData with
  | [] => Return (Validation false [js "No card data found"] [])
  | _ =>
      let? st := forEach validateSection (JsObject.entries cardData) (0, [], []) in
      let '(totalCards, errors, warnings) := st in
      let errors :=
        if totalCards =? 0 then errors ++ [js "No valid cards found"] else errors in
      let warnings :=
        if 500 <? totalCards
        then warnings ++ [js "Large list: " ++ decimal totalCards ++ js " cards"]
        else warnings in
      Return (Validation (match errors with [] => true | _ => false end) errors warnings)
  end.

(** [countTotalCards()] of the application: [None] is the [cardData]
    that is not set; a string counts with its length. *)
Definition countTotalCards (cardData : option (JsObject.object section_value)) : nat :=
  match cardData with
  | None => 0
  | Some cardData =>
      fold_left (fun sum section =>
                   sum + match snd section with
                         | Cards cards => length cards
                         | Str s => length s
                         end)
                (JsObject.entries cardData) 0
  end.

(** The [length] of a value of the section map, their sum over an
    object, and objects without an own [__proto__] property. *)
Definition size (v : section_value) : nat :=
  match v with Cards cards => length cards | Str s => length s end.

Definition total (o : JsObject.object section_value) : nat :=
  list_sum (map (fun kv => size (snd kv)) o).

Definition noProto (o : JsObject.object section_value) : Prop :=
  ~ In (js "__proto__") (map fst o).

(** A card as [parseCardList] makes it: the name holds more than white
    space and the inclusion is not empty. *)
Definition importedCard (c : card) : Prop :=
  trim (name c) <> [] /\ inclusion c <> [].

(** A string that is empty or ends, or starts, with a character that is
    not white space. *)
Definition inkEnd (s : jsstring) : Prop :=
  s = [] \/ exists c, last s = Some c /\ is_space c = false.

Definition inkStart (s : jsstring) : Prop :=
  s = [] \/ exists c, head s = Some c /\ is_space c = false.

Definition importedLine (c : ExportManager.imported) : Prop :=
  trim (ExportManager.imported_name c) <> []
  /\ ExportManager.imported_inclusion c <> [].

Definition importedSection (entry : jsstring * section_value) : Prop :=
  exists cards,
    snd entry = Cards cards /\ cards <> [] /\ Forall importedCard cards.

End CardList.

(** *** The commander statistics: cards, sections and the page URL *)

Module Stats.
Import Text.

(** A card as [parseHTML] stores it. *)
Definition statCard (c : card) : Prop :=
  2 <= length (name c)
  /\ includes (inclusion c) (js "%") = true
  /\ includes (inclusion c) (js "$") = false.

(** An entry of the section map that [parseHTML] returns, [deckCount]
    being what [extractDeckCount] found. *)
Definition statSection (deckCount : option jsstring)
    (entry : jsstring * section_value) : Prop :=
  match snd entry with
  | Cards cards => cards <> [] /\ NoDup (map name cards) /\ Forall statCard cards
  | Str s => fst entry = js "_deckCount" /\ deckCount = Some s /\ s <> []
  end.

(** [commanderName.split(' // ')[0]]. *)
Definition firstFace (commanderName : jsstring) : jsstring :=
  match indexOf commanderName (js " // ") with
  | Some i => take i commanderName
  | None => commanderName
  end.

(** What [[^a-z0-9\s-]] leaves in place. *)
Definition urlSafe (c : N) : bool :=
  is_lower c || is_digit c || is_space c || N.eqb c 45.

Definition urlPrefix : jsstring := js "https://edhrec.com/commanders/".

(** [generateEDHRECUrl(commanderName)], the engine's [toLowerCase]
    being a parameter. *)
Definition generateEDHRECUrl (toLowerCase : jsstring -> jsstring)
    (commanderName : jsstring) : jsstring :=
  let firstFaceName := firstFace commanderName in
  let urlSafeName :=
    trim (collapse (N.eqb 45) 45
            (collapse is_space 45
               (filter (fun c => urlSafe c = true) (toLowerCase firstFaceName)))) in
  urlPrefix ++ urlSafeName.

(** A slug: lower-case letters, digits and single hyphens. *)
Definition slugChar (c : N) : bool := is_lower c || is_digit c || N.eqb c 45.

Definition slug (s : jsstring) : Prop :=
  Forall (fun c => slugChar c = true) s /\ noRepeat (N.eqb 45) s = true.

End Stats.

(** *** The application's routing: [isUpgradeGuideURL] *)

Module Routing.
Import CardName.

(** Matchers written with their continuation: [k] decides on what is
    left after the part matched here, so that [test] holds exactly when
    some way of matching succeeds. *)

(** A literal under the [i] flag. *)
Definition literal (p : jsstring) (k : jsstring -> bool) (s : jsstring) : bool :=
  startsWith_ci s p && k (drop (length p) s).

(** [.*]: any number of characters other than line terminators. *)
Fixpoint dotStar (k : jsstring -> bool) (s : jsstring) : bool :=
  k s
  || match s with
     | c :: s' => negb (is_line_terminator c) && dotStar k s'
     | [] => false
     end.

(** [pattern.test(s)] for a pattern without anchors: a match may start
    at any position. *)
Fixpoint test (m : jsstring -> bool) (s : jsstring) : bool :=
  m s || match s with _ :: s' => test m s' | [] => false end.

Definition accept (s : jsstring) : bool := true.

Definition articles : jsstring := js "edhrec.com/articles/".

(** The three patterns of [upgradeGuidePatterns]. *)
Definition upgradeGuidePattern : jsstring -> bool :=
  test (literal articles
          (dotStar (literal (js "upgrade") (dotStar (literal (js "guide") accept))))).
Definition upgradePattern : jsstring -> bool :=
  test (literal articles (dotStar (literal (js "upgrade") accept))).
Definition guidePattern : jsstring -> bool :=
  test (literal articles (dotStar (literal (js "guide") accept))).

(** [isUpgradeGuideURL(url)] on a string: the empty string is falsy. *)
Definition isUpgradeGuideURL (url : jsstring) : bool :=
  match url with
  | [] => false
  | _ =>
      existsb (fun pattern => pattern url)
              [upgradeGuidePattern; upgradePattern; guidePattern]
  end.

End Routing.

(** *** A sample guide page *)

Module GuideSamples.
Import Samples.

(** An article with a heading, a paragraph that links a card, a card
    display, a decklist, and the boundary paragraph followed by another
    heading. *)
Definition article : list node :=
  [ Element (js "H2") [] [Text (js "The Deck")];
    Element (js "P") []
      [ Text (js "Start by adding ");
        Element (js "A") [(js "href", js "/cards/sol-ring")] [Text (js "Sol Ring")];
        Text (js " to the deck.") ];
    Element (js "DIV") [(js "class", js "ArticlePage_cards___rqr8")]
      [ Element (js "SPAN") [(js "class", js "Card_name__Mpa7S")]
          [Text (js "Sol Ring")] ];
    siteDecklist ].

Definition boundary : node :=
  Element (js "P") [] [Text (js "More Precon Guides:")].

Definition afterBoundary : list node :=
  [ Element (js "H2") [] [Text (js "Elsewhere")] ].

Definition guidePage : node :=
  Element (js "HTML") []
    [ Element (js "HEAD") [] [ Element (js "TITLE") [] [Text (js "Upgrade Guide")] ];
      Element (js "BODY") []
        [ Element (js "DIV") [(js "class", js "ArticlePage_content__j0Z44")]
            (article ++ boundary :: afterBoundary) ] ].

Definition guideHtml : jsstring := js "<html>...</html>".
Definition servesGuide : jsstring -> fetched :=
  fun _ => Response true (Return guideHtml).

(** What the strict extractor makes of [guidePage]. *)
Definition extracted : guide :=
  Guide (js "Upgrade Guide") [] []
    [ header 2 (js "The Deck");
      paragraph (js "Start by adding Sol Ring to the deck.") (Some [js "Sol Ring"]);
      decklist (js "Deck") [landsSection] ]
    [ js "Sol Ring" ].

(** A page whose main content holds a list, in a browser that lays
    every element out. *)
Definition listPage : node :=
  Element (js "HTML") []
    [ Element (js "HEAD") [] [];
      Element (js "BODY") []
        [ Element (js "MAIN") []
            [ Element (js "H2") [] [Text (js "  The   Deck ")];
              landsList ] ] ].

Definition notRendered : node -> option node := fun _ => None.

End GuideSamples.

(** * Proofs *)

(** ** Strings *)

Lemma jsstring_eqb_eq (a b : jsstring) : jsstring_eqb a b = true <-> a = b.
Proof.
  revert b; induction a as [|x a IH]; intros [|y b]; simpl; try (split; congruence).
  rewrite andb_true_iff, N.eqb_eq, IH. split; [intros [-> ->]; reflexivity | intros [= -> ->]; auto].
Qed.

Lemma jsstring_eqb_refl (a : jsstring) : jsstring_eqb a a = true.
Proof. apply jsstring_eqb_eq; reflexivity. Qed.

Lemma length_substring (s : jsstring) (a b : nat) :
  length (substring s a b)
  = Nat.max (Nat.min a (length s)) (Nat.min b (length s))
    - Nat.min (Nat.min a (length s)) (Nat.min b (length s)).
Proof. unfold substring. rewrite length_take, length_drop. lia. Qed.

Lemma startsWith_length (s p : jsstring) :
  startsWith s p = true -> length p <= length s.
Proof.
  revert s; induction p as [|y p IH]; intros [|x s]; simpl; try lia; try discriminate.
  rewrite andb_true_iff. intros [_ H]. apply IH in H. lia.
Qed.

Lemma indexOf_from_hit (k : nat) (s p : jsstring) :
  startsWith s p = true -> indexOf_from k s p = Some k.
Proof. intros H. destruct s; cbn [indexOf_from]; rewrite H; reflexivity. Qed.

Lemma indexOf_from_found (k : nat) (s p : jsstring) (j : nat) :
  startsWith (drop j s) p = true -> j <= length s ->
  exists i, indexOf_from k s p = Some i /\ k <= i /\ i <= k + j
            /\ startsWith (drop (i - k) s) p = true.
Proof.
  revert k s; induction j as [|j IH]; intros k s Hj Hlen.
  - rewrite drop_0 in Hj. exists k. rewrite (indexOf_from_hit _ _ _ Hj).
    replace (k - k) with 0 by lia. rewrite drop_0. repeat split; auto; lia.
  - destruct s as [|x s]; [simpl in Hlen; lia|].
    simpl in Hj, Hlen.
    destruct (startsWith (x :: s) p) eqn:E.
    + exists k. rewrite (indexOf_from_hit _ _ _ E).
      replace (k - k) with 0 by lia. rewrite drop_0.
      repeat split; auto; lia.
    + destruct (IH (S k) s Hj ltac:(lia)) as (i & Hi & Hk & Hij & Hs).
      exists i. cbn [indexOf_from]. rewrite E.
      repeat split; auto; try lia.
      replace (i - k) with (S (i - S k)) by lia. exact Hs.
Qed.

(** ** The text normalizer *)

Section NormalizerFacts.
Import Normalizer.

Lemma boundaryMatch_occurs (s m : jsstring) :
  boundaryMatch s = Some m ->
  exists j, j <= length s /\ length m = 2 /\ startsWith (drop j s) m = true.
Proof.
  induction s as [|a s IH]; simpl; [discriminate|].
  destruct s as [|b t]; [discriminate|].
  destruct (is_lower a && is_upper b) eqn:E.
  - intros [= <-]. exists 0. simpl. rewrite !N.eqb_refl. simpl.
    repeat split; auto; lia.
  - intros H. destruct (IH H) as (j & Hj & Hm & Hs).
    exists (S j). simpl in *. repeat split; auto; lia.
Qed.

(** [indexOf] never answers [-1] on the text of the boundary match, and
    the boundary leaves at least one character after it. *)
Lemma boundaryMatch_indexOf (s m : jsstring) :
  boundaryMatch s = Some m ->
  exists i, indexOf s m = Some i /\ i + 1 < length s.
Proof.
  intros H. destruct (boundaryMatch_occurs _ _ H) as (j & Hj & Hm & Hs).
  destruct (indexOf_from_found 0 s m j Hs Hj) as (i & Hi & _ & Hij & Hs').
  exists i. split; [exact Hi|].
  apply startsWith_length in Hs'. rewrite length_drop in Hs'. lia.
Qed.

Lemma tokenEnd_ge (s : jsstring) (e : nat) : e <= tokenEnd s e.
Proof. unfold tokenEnd. lia. Qed.

Lemma tokenStart_le (s : jsstring) (e : nat) : tokenStart s e <= e.
Proof. unfold tokenStart. lia. Qed.

(** The bound on the backward loop is never the reason it stops. *)
Lemma collectStrings_fuel (fuel1 fuel2 : nat) (s first : jsstring)
    (currentPos : nat) (acc : list jsstring) :
  currentPos <= fuel1 -> currentPos <= fuel2 ->
  collectStrings fuel1 s first currentPos acc
  = collectStrings fuel2 s first currentPos acc.
Proof.
  revert fuel2 currentPos acc.
  induction fuel1 as [|f1 IH]; intros fuel2 cp acc H1 H2;
    pose proof (tokenStart_le s cp) as Hle.
  - destruct fuel2; cbn [collectStrings]; [reflexivity|].
    destruct (jsstring_eqb _ _); [reflexivity|].
    destruct (Nat.ltb_spec (tokenStart s cp) 2); [reflexivity | lia].
  - destruct fuel2 as [|f2]; cbn [collectStrings];
      destruct (jsstring_eqb _ _); try reflexivity;
      destruct (Nat.ltb_spec (tokenStart s cp) 2); try reflexivity; try lia.
    apply IH; lia.
Qed.

(** The strings collected end with the token that holds the boundary. *)
Lemma collectStrings_last (fuel : nat) (s first : jsstring)
    (currentPos : nat) (acc : list jsstring) :
  exists pre,
    collectStrings fuel s first currentPos acc
    = pre ++ substring s (tokenStart s currentPos) (S currentPos) :: acc.
Proof.
  revert currentPos acc; induction fuel as [|f IH]; intros cp acc;
    cbn [collectStrings].
  - exists []. destruct (jsstring_eqb _ _); [reflexivity|].
    destruct (_ <? 2); reflexivity.
  - destruct (jsstring_eqb _ _); [exists []; reflexivity|].
    destruct (_ <? 2); [exists []; reflexivity|].
    destruct (IH (tokenStart s cp - 2)
                (substring s (tokenStart s cp) (S cp) :: acc)) as [pre Hpre].
    rewrite Hpre. exists (pre ++ [substring s (tokenStart s (tokenStart s cp - 2))
                                     (S (tokenStart s cp - 2))]).
    rewrite <- app_assoc. reflexivity.
Qed.

(** A complete replay ends at least [length (last strings)] characters
    after its start. *)
Lemma matchStrings_all (s : jsstring) (strings : list jsstring)
    (d m d' m' : nat) (lst : jsstring) :
  last strings = Some lst ->
  matchStrings s strings d m = (d', m') ->
  m' = m + length strings ->
  d + length lst <= d'.
Proof.
  revert d m; induction strings as [|x rest IH]; intros d m Hl H Hm;
    [discriminate|].
  cbn [matchStrings] in H. destruct rest as [|y rest'].
  - simpl in Hl. inversion Hl; subst.
    destruct (includes _ _); inversion H; subst; simpl in *; lia.
  - destruct (jsstring_eqb _ _).
    + apply IH in H; [| exact Hl | simpl in *; lia].
      pose proof (tokenEnd_ge s d). lia.
    + inversion H; subst. simpl in *. lia.
Qed.

Lemma matchStrings_count (s : jsstring) (strings : list jsstring)
    (d m d' m' : nat) :
  matchStrings s strings d m = (d', m') -> m' <= m + length strings.
Proof.
  revert d m; induction strings as [|x rest IH]; intros d m H; simpl in H.
  - inversion H; lia.
  - destruct rest as [|y rest'].
    + destruct (includes _ _); inversion H; subst; simpl; lia.
    + destruct (jsstring_eqb _ _).
      * apply IH in H. simpl in *. lia.
      * inversion H; subst. simpl. lia.
Qed.

(** Every round that reports a change deletes at least one character. *)
Lemma exactClean_round_shorter (s s' : jsstring) :
  exactClean_round s = Some s' -> length s' < length s.
Proof.
  unfold exactClean_round. destruct (boundaryMatch s) as [m|] eqn:Hm; [|discriminate].
  destruct (boundaryMatch_indexOf _ _ Hm) as (i & Hi & Hlen). rewrite Hi.
  set (mid := i + 1).
  set (first := substring s mid (tokenEnd s mid)).
  destruct (collectStrings_last i s first i []) as [pre Hpre].
  rewrite Hpre.
  set (lst := substring s (tokenStart s i) (S i)) in *.
  destruct (matchStrings s (pre ++ [lst]) mid 0) as [d' m'] eqn:HM.
  destruct (m' =? length (pre ++ [lst])) eqn:E; [|discriminate].
  apply Nat.eqb_eq in E. intros [= <-].
  pose proof (matchStrings_all s _ mid 0 d' m' lst (last_snoc lst pre) HM
                ltac:(lia)) as Hd.
  assert (Hl : 1 <= length lst).
  { unfold lst. rewrite length_substring. pose proof (tokenStart_le s i). lia. }
  rewrite length_app. unfold substringFrom. rewrite !length_substring.
  unfold mid in *. lia.
Qed.

Lemma exactClean_loop_enough (fuel : nat) (s : jsstring) :
  length s < fuel ->
  exists r, exactClean_loop fuel s = Some r
            /\ length r <= length s /\ exactClean_round r = None.
Proof.
  revert s; induction fuel as [|f IH]; intros s Hf; [lia|].
  simpl. destruct (exactClean_round s) as [s'|] eqn:E.
  - apply exactClean_round_shorter in E as Hlt.
    destruct (IH s' ltac:(lia)) as (r & Hr & Hlen & Hfix).
    exists r. repeat split; auto; lia.
  - exists s. repeat split; auto.
Qed.

Lemma exactClean_loop_mono (fuel fuel' : nat) (s r : jsstring) :
  exactClean_loop fuel s = Some r -> fuel <= fuel' ->
  exactClean_loop fuel' s = Some r.
Proof.
  revert fuel' s; induction fuel as [|f IH]; intros fuel' s H Hle; [discriminate|].
  destruct fuel' as [|f']; [lia|]. simpl in *.
  destruct (exactClean_round s); [apply IH; [exact H | lia] | exact H].
Qed.

Lemma exactClean_spec (s : jsstring) :
  exactClean_loop (S (length s)) s = Some (exactClean s)
  /\ length (exactClean s) <= length s
  /\ exactClean_round (exactClean s) = None.
Proof.
  destruct (exactClean_loop_enough (S (length s)) s ltac:(lia)) as (r & Hr & Hlen & Hfix).
  unfold exactClean. destruct s as [|c s].
  - simpl in *. inversion Hr; subst. auto.
  - rewrite Hr. auto.
Qed.

End NormalizerFacts.

(** A duplicated run of tokens before the real text is deleted; a
    boundary whose tokens are not repeated is left alone. *)
Example exactClean_duplicate :
  Normalizer.exactClean (js "Goreclaw, TerrorGoreclaw, Terror of Qal Sisma")
  = js "Goreclaw, Terror of Qal Sisma".
Proof. vm_compute; reflexivity. Qed.

Example exactClean_single_token :
  Normalizer.exactClean (js "Sol RingSol Ring") = js "Sol Ring".
Proof. vm_compute; reflexivity. Qed.

Example exactClean_unrepeated :
  Normalizer.exactClean (js "GoreclawTerror of Qal Sisma")
  = js "GoreclawTerror of Qal Sisma".
Proof. vm_compute; reflexivity. Qed.

(** C1.  The cleaning loop of [exactClean] always terminates: on every
    string the [while (changed)] loop leaves after at most
    [length text + 1] rounds, and any larger bound on the rounds gives the
    same cleaned string. *)
Theorem exactClean_terminates (text : jsstring) :
  exists cleaned,
    Normalizer.exactClean_loop (S (length text)) text = Some cleaned
    /\ forall fuel, S (length text) <= fuel ->
         Normalizer.exactClean_loop fuel text = Some cleaned.
Proof.
  destruct (exactClean_spec text) as (Hrun & _ & _).
  exists (Normalizer.exactClean text). split; [exact Hrun|].
  intros fuel Hle. eapply exactClean_loop_mono; eauto.
Qed.

(** C2.  [exactClean] is idempotent: cleaning a cleaned string changes
    nothing. *)
Theorem exactClean_idempotent (s : jsstring) :
  Normalizer.exactClean (Normalizer.exactClean s) = Normalizer.exactClean s.
Proof.
  destruct (exactClean_spec s) as (_ & _ & Hfix).
  generalize dependent (Normalizer.exactClean s). intros r Hfix.
  unfold Normalizer.exactClean. destruct r as [|c r]; [reflexivity|].
  cbn [Normalizer.exactClean_loop]. rewrite Hfix. reflexivity.
Qed.

(** C10.  [exactClean] never lengthens its input. *)
Theorem exactClean_never_lengthens (s : jsstring) :
  length (Normalizer.exactClean s) <= length s.
Proof. apply exactClean_spec. Qed.

(** ** The card-name heuristic *)

(** C8.  [looksLikeCardName] rejects "the Rock", "http://example.com",
    "42" and "a deck of cards...", and accepts "Sol Ring" and
    "Ghalta, Primal Hunger". *)
Theorem looksLikeCardName_examples :
  CardName.looksLikeCardName (js "the Rock") = false
  /\ CardName.looksLikeCardName (js "http://example.com") = false
  /\ CardName.looksLikeCardName (js "42") = false
  /\ CardName.looksLikeCardName (js "a deck of cards...") = false
  /\ CardName.looksLikeCardName (js "Sol Ring") = true
  /\ CardName.looksLikeCardName (js "Ghalta, Primal Hunger") = true.
Proof. repeat split; vm_compute; reflexivity. Qed.

(** ** Decklists *)

Section DecklistFacts.
Import Dom StrictGuide Samples.




Lemma space_not_digit (c : N) : is_space c = true -> is_digit c = false.
Proof.
  unfold is_space, is_digit, in_range. intros H.
  apply not_true_is_false. intros Hd.
  rewrite !orb_true_iff, !andb_true_iff, !N.leb_le, !N.eqb_eq in H.
  rewrite !andb_true_iff, !N.leb_le in Hd. lia.
Qed.


End DecklistFacts.

(** *** A decklist in the site's markup *)

Section MarkupFacts.
Import Dom StrictGuide DeckMarkup.
















End MarkupFacts.




(** The quantity is the double that [parseInt] gives: an integer past
    [2^53] is rounded. *)
Example parseInt_rounds :
  JsNumber.parseInt (js "12") = JsNumber.Num 12
  /\ JsNumber.parseInt (js "9007199254740993")
     = JsNumber.Num (inject_Z 9007199254740992).
Proof. split; vm_compute; reflexivity. Qed.

(** ** Numbers and sorting *)

Section NumberFacts.
Import JsNumber.

Lemma orZero_not_NaN (x : jsnum) : isNaN (orZero x) = false.
Proof. destruct x as [|q| |]; simpl; try reflexivity. destruct (Qeq_bool q 0); reflexivity. Qed.

Lemma geb_trans (x y z : jsnum) :
  geb x y = true -> geb y z = true -> geb x z = true.
Proof.
  destruct x as [|p| |], y as [|q| |], z as [|r| |]; simpl; try congruence.
  rewrite !Qle_bool_iff. intros H1 H2. eapply Qle_trans; eauto.
Qed.

Lemma ltb_geb (x y : jsnum) : ltb y x = true -> geb x y = true.
Proof.
  destruct x as [|p| |], y as [|q| |]; simpl; try congruence.
  rewrite negb_true_iff, Qle_bool_iff. intros H.
  destruct (Qlt_le_dec q p) as [Hlt|Hle]; [apply Qlt_le_weak; exact Hlt|].
  apply Qle_bool_iff in Hle. congruence.
Qed.

Lemma not_ltb_geb (x y : jsnum) :
  isNaN x = false -> isNaN y = false -> ltb y x = false -> geb y x = true.
Proof.
  destruct x as [|p| |], y as [|q| |]; simpl; try congruence.
  intros _ _. rewrite negb_false_iff. auto.
Qed.

End NumberFacts.

(** [parseFloat] rounds to the nearest double: 0.1 is the double
    3602879701896397 / 2^55, and 2^53 + 1 is a tie that goes to 2^53. *)
Example parseFloat_tenth :
  JsNumber.parseFloat (js "0.1") = JsNumber.Num (3602879701896397 # 36028797018963968).
Proof. vm_compute; reflexivity. Qed.

Example parseFloat_tie :
  JsNumber.parseFloat (js "9007199254740993") = JsNumber.Num 9007199254740992.
Proof. vm_compute; reflexivity. Qed.

Example parseFloat_percent :
  JsNumber.parseFloat (js "68%") = JsNumber.Num (68 # 1)
  /\ JsNumber.parseFloat (js "N/A") = JsNumber.NaN
  /\ JsNumber.parseFloat (js "1e400") = JsNumber.PosInf.
Proof. vm_compute; repeat split; reflexivity. Qed.

Section SortFacts.

Context {A : Type} (before : A -> A -> bool) (R : A -> A -> Prop).
Hypothesis before_R : forall x y, before x y = true -> R x y.
Hypothesis not_before_R : forall x y, before x y = false -> R y x.
Hypothesis R_trans : forall x y z, R x y -> R y z -> R x z.

Lemma insertSorted_perm (x : A) (l : list A) :
  Permutation (JsObject.insertSorted before x l) (x :: l).
Proof.
  induction l as [|y l IH]; simpl; [reflexivity|].
  destruct (before x y); [reflexivity|].
  rewrite IH. apply perm_swap.
Qed.

Lemma sort_perm_acc (l acc : list A) :
  Permutation (fold_left (fun acc x => JsObject.insertSorted before x acc) l acc)
              (acc ++ l).
Proof.
  revert acc; induction l as [|x l IH]; intros acc; simpl.
  - rewrite app_nil_r. reflexivity.
  - rewrite IH, insertSorted_perm. apply Permutation_middle.
Qed.

Lemma sort_perm (l : list A) : Permutation (JsObject.sort before l) l.
Proof. unfold JsObject.sort. apply (sort_perm_acc l []). Qed.

Lemma insertSorted_sorted (x : A) (l : list A) :
  StronglySorted R l -> StronglySorted R (JsObject.insertSorted before x l).
Proof.
  induction 1 as [|y l Hl IH Hy]; simpl.
  - constructor; constructor.
  - destruct (before x y) eqn:E.
    + constructor; [constructor; assumption|].
      constructor; [apply before_R; exact E|].
      eapply Forall_impl; [exact Hy|]. intros z Hz.
      eapply R_trans; [apply before_R; exact E | exact Hz].
    + constructor; [exact IH|].
      eapply Permutation_Forall; [symmetry; apply insertSorted_perm|].
      constructor; [apply not_before_R; exact E | exact Hy].
Qed.

Lemma sort_sorted (l : list A) : StronglySorted R (JsObject.sort before l).
Proof.
  unfold JsObject.sort.
  assert (H : forall acc, StronglySorted R acc ->
            StronglySorted R
              (fold_left (fun acc x => JsObject.insertSorted before x acc) l acc)).
  { induction l as [|x l IH]; intros acc Hacc; simpl; [exact Hacc|].
    apply IH, insertSorted_sorted, Hacc. }
  apply H. constructor.
Qed.

End SortFacts.

(** ** The commander statistics *)

Section CommanderFacts.
Import Commander JsNumber.

Lemma sort_before_descending (cards : list card) :
  StronglySorted Commander.descending (JsObject.sort before cards).
Proof.
  apply sort_sorted; unfold descending, before, pct.
  - intros x y. apply ltb_geb.
  - intros x y. apply not_ltb_geb; apply orZero_not_NaN.
  - intros x y z. apply geb_trans.
Qed.

Lemma sortSections_sorted (sections : JsObject.object section_value)
    (sectionName : jsstring) (cards : list card) :
  In (sectionName, Cards cards) (sortSections sections) ->
  StronglySorted Commander.descending cards.
Proof.
  unfold sortSections. rewrite in_map_iff. intros ([k v] & Heq & _).
  destruct v as [cs|t]; simpl in Heq; inversion Heq; subst.
  apply sort_before_descending.
Qed.

End CommanderFacts.

(** C7.  In the section map that [parseHTML] returns, every section
    that is an array of cards is in descending order of the numeric
    inclusion percentage, [parseFloat(inclusion) || 0]; and a section
    whose cards arrive with 12%, 68% and 5% comes out as 68%, 12%, 5%. *)
Theorem parseHTML_sections_sorted :
  (forall parseFromString toLowerCase toUpperCase extractDeckCount
          htmlContent sections sectionName cards,
      Commander.parseHTML parseFromString toLowerCase toUpperCase
        extractDeckCount htmlContent = Return sections ->
      In (sectionName, Cards cards) sections ->
      StronglySorted Commander.descending cards)
  /\ Commander.parseHTML (fun _ => Samples.statsPage) Samples.asciiLowerCase
       Samples.asciiUpperCase (fun _ => None) []
     = Return [ (js "Top Cards",
                 Cards [ Card (js "Sol Ring") (js "68%");
                         Card (js "Cultivate") (js "12%");
                         Card (js "Bloodthirster") (js "5%") ]) ].
Proof.
  split; [|vm_compute; reflexivity].
  intros parse lower upper deckCount html sections k cards H Hin.
  unfold Commander.parseHTML in H.
  destruct (forEach _ _ _) as [secs|e]; simpl in H; [|discriminate].
  inversion H; subst. eapply sortSections_sorted; eauto.
Qed.

Lemma parseHTML_sections_sorted_witness :
  StronglySorted Commander.descending
    [ Card (js "Sol Ring") (js "68%"); Card (js "Cultivate") (js "12%");
      Card (js "Bloodthirster") (js "5%") ].
Proof.
  apply (proj1 parseHTML_sections_sorted (fun _ => Samples.statsPage)
           Samples.asciiLowerCase Samples.asciiUpperCase (fun _ => None) []
           [ (js "Top Cards",
              Cards [ Card (js "Sol Ring") (js "68%");
                      Card (js "Cultivate") (js "12%");
                      Card (js "Bloodthirster") (js "5%") ]) ]
           (js "Top Cards")).
  - vm_compute; reflexivity.
  - vm_compute. left. reflexivity.
Defined.

(** ** The extraction entry points *)

Section StrictFacts.
Import StrictGuide.

Variable parseFromString : jsstring -> node.
Variable fetch : jsstring -> fetched.

Lemma processElement_throws (element : node) (st : list block * list jsstring)
    (e : error) :
  processElement element st = Throw e -> e = EDHRECParseError.
Proof.
  unfold processElement. destruct st as [blocks cards].
  destruct (Dom.classList_contains element _); [discriminate|].
  destruct (headingLevel _) as [level|];
    [destruct (trim _); [|discriminate]|];
    (destruct (_ && _); [discriminate|]);
    (destruct (Dom.classList_contains element _); [|discriminate]);
    (destruct (extractDecklist element); [discriminate|]);
    intros [= <-]; reflexivity.
Qed.

Lemma forEach_processElement_throws (elements : list node)
    (st : list block * list jsstring) (e : error) :
  forEach processElement elements st = Throw e -> e = EDHRECParseError.
Proof.
  revert st; induction elements as [|el rest IH]; intros st; simpl; [discriminate|].
  destruct (processElement el st) as [st'|e'] eqn:E; simpl.
  - apply IH.
  - intros [= <-]. eapply processElement_throws; eauto.
Qed.

(** Parsing only ever throws an [EDHRECParseError]. *)
Lemma parseUpgradeGuideContent_throws (htmlContent : jsstring) (e : error) :
  parseUpgradeGuideContent parseFromString htmlContent = Throw e ->
  e = EDHRECParseError.
Proof.
  unfold parseUpgradeGuideContent.
  destruct (Dom.document_querySelector _ _) as [contentElement|];
    [|intros [= <-]; reflexivity].
  unfold extractContentBlocks.
  destruct (forEach _ _ _) as [st|e'] eqn:E; simpl; [discriminate|].
  intros [= <-]. eapply forEach_processElement_throws; eauto.
Qed.

(** When the proxy loop gives up, it throws the error of its last
    round. *)
Lemma fetchLoop_throws (url : jsstring) (proxies : list jsstring)
    (lastError : option error) (e : error) :
  fetchLoop fetch url proxies lastError = Throw e ->
  match last proxies with
  | Some proxy => attempt fetch (proxy ++ url) = Throw e
  | None => e = default EDHRECFetchError lastError
  end.
Proof.
  revert lastError; induction proxies as [|p rest IH]; intros lastError; simpl.
  - intros [= <-]. reflexivity.
  - destruct (attempt fetch (p ++ url)) as [html|e'] eqn:E; [discriminate|].
    intros H. apply IH in H. destruct rest as [|q rest'].
    + simpl in *. subst. exact E.
    + change (last (p :: q :: rest')) with (last (q :: rest')).
      destruct (last (q :: rest')) eqn:L; [exact H|].
      apply last_None in L. discriminate.
Qed.

(** When every round fails, the loop gives up with an error. *)
Lemma fetchLoop_exhausted (url : jsstring) (rounds : list jsstring)
    (lastError : option error) :
  (forall proxy, In proxy rounds -> exists e, attempt fetch (proxy ++ url) = Throw e) ->
  exists e, fetchLoop fetch url rounds lastError = Throw e.
Proof.
  revert lastError. induction rounds as [|p rest IH]; intros lastError Hall;
    cbn [fetchLoop].
  - eexists. reflexivity.
  - destruct (Hall p (or_introl eq_refl)) as [e He]. rewrite He.
    apply IH. intros proxy Hin. apply Hall. right. exact Hin.
Qed.

(** The last round is the direct fetch of the address itself, and its
    outcome decides what an exhausted loop throws. *)
Lemma fetchWithProxies_last_round (url : jsstring) (e : error) :
  fetchWithProxies fetch url = Throw e ->
  match fetch url with
  | Rejected rejection => e = rejection
  | Response false _ => e = EDHRECFetchError
  | Response true (Throw rejection) => e = rejection
  | Response true (Return _) => False
  end.
Proof.
  intros H. apply fetchLoop_throws in H. simpl in H.
  unfold attempt in H. destruct (fetch url) as [e'|[|] [text|e']]; congruence.
Qed.

(** What [extractUpgradeGuide] does, phase by phase. *)
Lemma strict_extract_cases (url : jsstring) :
  match fetchWithProxies fetch url with
  | Throw e => extractUpgradeGuide parseFromString fetch url = Throw e
  | Return [] => extractUpgradeGuide parseFromString fetch url = Throw EDHRECFetchError
  | Return ((_ :: _) as htmlContent) =>
      match parseUpgradeGuideContent parseFromString htmlContent with
      | Throw e => extractUpgradeGuide parseFromString fetch url = Throw e
      | Return guideData =>
          match contentBlocks guideData with
          | [] => extractUpgradeGuide parseFromString fetch url
                  = Throw EDHRECContentError
          | _ :: _ => extractUpgradeGuide parseFromString fetch url
                      = Return guideData
          end
      end
  end.
Proof.
  unfold extractUpgradeGuide.
  destruct (fetchWithProxies fetch url) as [[|c html]|e]; simpl; try reflexivity.
  destruct (parseUpgradeGuideContent _ _) as [g|e]; simpl; try reflexivity.
  destruct (contentBlocks g); reflexivity.
Qed.

End StrictFacts.

Section LegacyFacts.
Import LegacyGuide.

Variable parseFromString : jsstring -> node.
Variable fetch : jsstring -> fetched.
Variable shouldSkipElement : node -> bool.
Variable classifyAndExtractElement : node -> result (option block).
Variable isContentContainer : node -> bool.
Variable isCardElement : node -> bool.

(** The legacy entry point never throws, and answers with the sample
    guide whenever its [try] block fails. *)
Lemma legacy_extract_cases (url : jsstring) :
  match tryExtract parseFromString fetch shouldSkipElement
          classifyAndExtractElement isContentContainer isCardElement url with
  | Return guideData =>
      extractUpgradeGuide parseFromString fetch shouldSkipElement
        classifyAndExtractElement isContentContainer isCardElement url
      = Return guideData
      /\ contentBlocks guideData <> []
  | Throw _ =>
      extractUpgradeGuide parseFromString fetch shouldSkipElement
        classifyAndExtractElement isContentContainer isCardElement url
      = Return getSampleUpgradeGuide
  end.
Proof.
  unfold extractUpgradeGuide.
  destruct (tryExtract _ _ _ _ _ _ url) as [g|e] eqn:E; [|reflexivity].
  split; [reflexivity|].
  unfold tryExtract in E.
  destruct (fetchWithProxies fetch url) as [[|c html]|e]; simpl in E; try discriminate.
  destruct (parseUpgradeGuideContent _ _ _ _ _ _) as [g'|e]; simpl in E;
    try discriminate.
  destruct (contentBlocks g') eqn:Hb; inversion E; subst. congruence.
Qed.

End LegacyFacts.

(** C3, as the specification states it, fails: with every request
    rejected, the legacy guide extractor and the commander extractor both
    return their sample data, and no error reaches the caller. *)
Lemma fallback_replaces_fetch_failure :
  LegacyGuide.fetchWithProxies Samples.networkDown Samples.guideUrl = Throw JsError
  /\ LegacyGuide.extractUpgradeGuide (fun _ => Samples.emptyPage)
       Samples.networkDown Samples.skipNothing Samples.classifyNothing
       Samples.noContainer Samples.noContainer Samples.guideUrl
     = Return LegacyGuide.getSampleUpgradeGuide
  /\ Commander.extractData (fun _ => Samples.emptyPage) Samples.networkDown
       Samples.asciiLowerCase Samples.asciiUpperCase (fun _ => None)
       (fun commanderName => commanderName) (js "goreclaw")
     = Return Commander.getSampleData.
Proof. repeat split; vm_compute; reflexivity. Qed.

(** C3, amended.  In the strict extractor a failure of any phase reaches
    the caller as the error of that phase and no guide is returned.  When
    the fetch is exhausted the error is that of the last proxy round,
    which is the direct fetch of the address: an [EDHRECFetchError] when
    the response is not OK, and the rejection itself when [fetch] or
    [text()] rejects; a last round that succeeds does not exhaust the
    fetch, and when every round fails the fetch is exhausted and the
    caller gets its error.  An empty body gives an [EDHRECFetchError], a parse failure an
    [EDHRECParseError], zero content blocks an [EDHRECContentError]; a
    guide that is returned is the parsed one.  The legacy guide extractor
    and [extractData] never throw: whenever their [try] block fails they
    return their sample data. *)
Theorem strict_extraction_propagates :
  (forall parseFromString fetch url,
      (forall e,
          StrictGuide.fetchWithProxies fetch url = Throw e ->
          StrictGuide.extractUpgradeGuide parseFromString fetch url = Throw e
          /\ match fetch url with
             | Rejected rejection => e = rejection
             | Response false _ => e = EDHRECFetchError
             | Response true (Throw rejection) => e = rejection
             | Response true (Return _) => False
             end)
      /\ (StrictGuide.fetchWithProxies fetch url = Return [] ->
          StrictGuide.extractUpgradeGuide parseFromString fetch url
          = Throw EDHRECFetchError)
      /\ (forall c html e,
            StrictGuide.fetchWithProxies fetch url = Return (c :: html) ->
            StrictGuide.parseUpgradeGuideContent parseFromString (c :: html) = Throw e ->
            e = EDHRECParseError
            /\ StrictGuide.extractUpgradeGuide parseFromString fetch url
               = Throw EDHRECParseError)
      /\ (forall c html guideData,
            StrictGuide.fetchWithProxies fetch url = Return (c :: html) ->
            StrictGuide.parseUpgradeGuideContent parseFromString (c :: html)
            = Return guideData ->
            contentBlocks guideData = [] ->
            StrictGuide.extractUpgradeGuide parseFromString fetch url
            = Throw EDHRECContentError)
      /\ (forall guideData,
            StrictGuide.extractUpgradeGuide parseFromString fetch url = Return guideData ->
            exists htmlContent,
              StrictGuide.fetchWithProxies fetch url = Return htmlContent
              /\ StrictGuide.parseUpgradeGuideContent parseFromString htmlContent
                 = Return guideData)
      /\ ((forall proxy, In proxy StrictGuide.proxies ->
             exists e, StrictGuide.attempt fetch (proxy ++ url) = Throw e) ->
          exists e,
            StrictGuide.fetchWithProxies fetch url = Throw e
            /\ StrictGuide.extractUpgradeGuide parseFromString fetch url = Throw e))
  /\ (forall parseFromString fetch shouldSkipElement classifyAndExtractElement
             isContentContainer isCardElement url,
        exists guideData,
          LegacyGuide.extractUpgradeGuide parseFromString fetch shouldSkipElement
            classifyAndExtractElement isContentContainer isCardElement url
          = Return guideData
          /\ (forall e,
                LegacyGuide.tryExtract parseFromString fetch shouldSkipElement
                  classifyAndExtractElement isContentContainer isCardElement url
                = Throw e ->
                guideData = LegacyGuide.getSampleUpgradeGuide))
  /\ (forall parseFromString fetch toLowerCase toUpperCase extractDeckCount
             generateEDHRECUrl commanderName,
        exists sections,
          Commander.extractData parseFromString fetch toLowerCase toUpperCase
            extractDeckCount generateEDHRECUrl commanderName
          = Return sections
          /\ (forall e,
                Commander.tryExtract parseFromString fetch toLowerCase toUpperCase
                  extractDeckCount generateEDHRECUrl commanderName
                = Throw e ->
                sections = Commander.getSampleData)).
Proof.
  split; [|split].
  - intros parse fetch url.
    pose proof (strict_extract_cases parse fetch url) as H.
    split; [|split; [|split; [|split; [|split]]]].
    + intros e He. split.
      * rewrite He in H. exact H.
      * apply fetchWithProxies_last_round. exact He.
    + intros He. rewrite He in H. exact H.
    + intros c html e Hf Hp. rewrite Hf, Hp in H.
      apply parseUpgradeGuideContent_throws in Hp. subst. split; [reflexivity | exact H].
    + intros c html g Hf Hp Hb. rewrite Hf, Hp, Hb in H. exact H.
    + intros g Hg.
      destruct (StrictGuide.fetchWithProxies fetch url) as [[|c html]|e];
        try congruence.
      exists (c :: html). split; [reflexivity|].
      destruct (StrictGuide.parseUpgradeGuideContent parse (c :: html)) as [g'|e];
        try congruence.
      destruct (contentBlocks g'); congruence.
    + intros Hall.
      destruct (fetchLoop_exhausted fetch url StrictGuide.proxies None Hall) as [e He].
      exists e. split; [exact He|].
      unfold StrictGuide.fetchWithProxies in H. rewrite He in H. exact H.
  - intros parse fetch skip classify container isCard url.
    pose proof (legacy_extract_cases parse fetch skip classify container isCard url) as H.
    destruct (LegacyGuide.tryExtract _ _ _ _ _ _ url) as [g|e].
    + exists g. split; [apply H | discriminate].
    + exists LegacyGuide.getSampleUpgradeGuide. split; [exact H | reflexivity].
  - intros parse fetch lower upper deckCount mkUrl commanderName.
    unfold Commander.extractData.
    destruct (Commander.tryExtract _ _ _ _ _ _ _) as [sections|e].
    + exists sections. split; [reflexivity | discriminate].
    + exists Commander.getSampleData. split; reflexivity.
Qed.

(** Every round answered with a response that is not OK: the fetch is
    exhausted and the caller gets an [EDHRECFetchError].  Every round
    rejected with a [TypeError]: the caller gets that [TypeError]. *)
Lemma strict_extraction_propagates_witness :
  (StrictGuide.fetchWithProxies Samples.respondsNotOk Samples.guideUrl
   = Throw EDHRECFetchError
   /\ StrictGuide.extractUpgradeGuide (fun _ => Samples.emptyPage) Samples.respondsNotOk
        Samples.guideUrl
      = Throw EDHRECFetchError)
  /\ (StrictGuide.fetchWithProxies Samples.networkDown Samples.guideUrl
      = Throw JsTypeError
      /\ StrictGuide.extractUpgradeGuide (fun _ => Samples.emptyPage) Samples.networkDown
           Samples.guideUrl
         = Throw JsTypeError).
Proof.
  split.
  - split; [vm_compute; reflexivity|].
    apply (proj1 (proj1 strict_extraction_propagates (fun _ => Samples.emptyPage)
                    Samples.respondsNotOk Samples.guideUrl) EDHRECFetchError).
    vm_compute; reflexivity.
  - split; [vm_compute; reflexivity|].
    apply (proj1 (proj1 strict_extraction_propagates (fun _ => Samples.emptyPage)
                    Samples.networkDown Samples.guideUrl) JsTypeError).
    vm_compute; reflexivity.
Defined.

(** Every round rejected by [fetch]: the rejection of the last round is
    what the caller gets, and no other error. *)
Example strict_rethrows_rejection :
  StrictGuide.fetchWithProxies Samples.networkDown Samples.guideUrl = Throw JsTypeError
  /\ StrictGuide.extractUpgradeGuide (fun _ => Samples.emptyPage) Samples.networkDown
       Samples.guideUrl
     = Throw JsTypeError.
Proof. split; vm_compute; reflexivity. Qed.

(** C6, as the specification states it, fails: in the legacy extractor
    a page that parses to zero content blocks does not raise an error;
    the entry point succeeds with the sample guide. *)
Lemma legacy_zero_blocks_is_success :
  LegacyGuide.fetchWithProxies Samples.servesEmptyPage Samples.guideUrl
  = Return Samples.emptyHtml
  /\ LegacyGuide.parseUpgradeGuideContent (fun _ => Samples.emptyPage)
       Samples.skipNothing Samples.classifyNothing Samples.noContainer
       Samples.noContainer Samples.emptyHtml
     = Return (Guide [] [] [] [] [])
  /\ LegacyGuide.extractUpgradeGuide (fun _ => Samples.emptyPage)
       Samples.servesEmptyPage Samples.skipNothing Samples.classifyNothing
       Samples.noContainer Samples.noContainer Samples.guideUrl
     = Return LegacyGuide.getSampleUpgradeGuide.
Proof. repeat split; vm_compute; reflexivity. Qed.

(** C6, amended.  A guide returned by either extraction entry point has
    at least one content block.  When parsing yields zero content blocks
    the strict variant raises an [EDHRECContentError], while the legacy
    variant returns the sample guide. *)
Theorem zero_blocks_never_returned :
  (forall parseFromString fetch url guideData,
      StrictGuide.extractUpgradeGuide parseFromString fetch url = Return guideData ->
      contentBlocks guideData <> [])
  /\ (forall parseFromString fetch url c html guideData,
        StrictGuide.fetchWithProxies fetch url = Return (c :: html) ->
        StrictGuide.parseUpgradeGuideContent parseFromString (c :: html)
        = Return guideData ->
        contentBlocks guideData = [] ->
        StrictGuide.extractUpgradeGuide parseFromString fetch url
        = Throw EDHRECContentError)
  /\ (forall parseFromString fetch shouldSkipElement classifyAndExtractElement
             isContentContainer isCardElement url guideData,
        LegacyGuide.extractUpgradeGuide parseFromString fetch shouldSkipElement
          classifyAndExtractElement isContentContainer isCardElement url
        = Return guideData ->
        contentBlocks guideData <> [])
  /\ (forall parseFromString fetch shouldSkipElement classifyAndExtractElement
             isContentContainer isCardElement url c html guideData,
        LegacyGuide.fetchWithProxies fetch url = Return (c :: html) ->
        LegacyGuide.parseUpgradeGuideContent parseFromString shouldSkipElement
          classifyAndExtractElement isContentContainer isCardElement (c :: html)
        = Return guideData ->
        contentBlocks guideData = [] ->
        LegacyGuide.extractUpgradeGuide parseFromString fetch shouldSkipElement
          classifyAndExtractElement isContentContainer isCardElement url
        = Return LegacyGuide.getSampleUpgradeGuide).
Proof.
  split; [|split; [|split]].
  - intros parse fetch url g H Hnil.
    pose proof (strict_extract_cases parse fetch url) as Hc.
    destruct (StrictGuide.fetchWithProxies fetch url) as [[|c html]|e];
      try congruence.
    destruct (StrictGuide.parseUpgradeGuideContent parse (c :: html))
      as [g'|e]; try congruence.
    destruct (contentBlocks g') eqn:Hb; congruence.
  - intros parse fetch url c html g H0 H1 H2.
    pose proof (strict_extract_cases parse fetch url) as Hc.
    rewrite H0, H1, H2 in Hc. exact Hc.
  - intros parse fetch skip classify container isCard url g H.
    pose proof (legacy_extract_cases parse fetch skip classify container isCard url) as Hc.
    destruct (LegacyGuide.tryExtract _ _ _ _ _ _ url) as [g'|e].
    + destruct Hc as [Hr Hne]. rewrite H in Hr. inversion Hr; subst. exact Hne.
    + rewrite H in Hc. inversion Hc; subst. vm_compute. discriminate.
  - intros parse fetch skip classify container isCard url c html g H0 H1 H2.
    unfold LegacyGuide.extractUpgradeGuide, LegacyGuide.tryExtract.
    rewrite H0. simpl. rewrite H1. simpl. rewrite H2. reflexivity.
Qed.

Lemma zero_blocks_never_returned_witness :
  StrictGuide.fetchWithProxies Samples.servesEmptyPage Samples.guideUrl
  = Return Samples.emptyHtml
  /\ StrictGuide.parseUpgradeGuideContent (fun _ => Samples.blankArticle)
       Samples.emptyHtml
     = Return (Guide [] [] [] [] [])
  /\ StrictGuide.extractUpgradeGuide (fun _ => Samples.blankArticle)
       Samples.servesEmptyPage Samples.guideUrl
     = Throw EDHRECContentError.
Proof.
  split; [vm_compute; reflexivity|]. split; [vm_compute; reflexivity|].
  eapply (proj1 (proj2 zero_blocks_never_returned) (fun _ => Samples.blankArticle)
            Samples.servesEmptyPage Samples.guideUrl _ _ (Guide [] [] [] [] []));
    vm_compute; reflexivity.
Defined.

(** ** The cutoff filter *)

Section ObjectFacts.
Import JsObject.

Context {V : Type}.

Lemma get_assign_eq (k : jsstring) (v : V) (o : object V) :
  get k (assign k v o) = Some v.
Proof.
  unfold get. induction o as [|[k' v'] o IH]; simpl.
  - rewrite jsstring_eqb_refl. reflexivity.
  - destruct (jsstring_eqb k' k) eqn:E; simpl; rewrite E; auto.
Qed.

Lemma get_assign_ne (k k' : jsstring) (v : V) (o : object V) :
  k' <> k -> get k' (assign k v o) = get k' o.
Proof.
  intros Hne. unfold get. induction o as [|[k0 v0] o IH]; simpl.
  - destruct (jsstring_eqb k k') eqn:E; [|reflexivity].
    apply jsstring_eqb_eq in E. congruence.
  - destruct (jsstring_eqb k0 k) eqn:E; simpl.
    + apply jsstring_eqb_eq in E. subst k0.
      destruct (jsstring_eqb k k') eqn:E'; [|reflexivity].
      apply jsstring_eqb_eq in E'. congruence.
    + rewrite IH. reflexivity.
Qed.

Lemma get_set_eq (k : jsstring) (v : V) (o : object V) :
  k <> js "__proto__" -> get k (set k v o) = Some v.
Proof.
  intros Hne. unfold set. destruct (jsstring_eqb k _) eqn:E.
  - apply jsstring_eqb_eq in E. congruence.
  - apply get_assign_eq.
Qed.

Lemma get_set_ne (k k' : jsstring) (v : V) (o : object V) :
  k' <> k -> get k' (set k v o) = get k' o.
Proof.
  intros Hne. unfold set. destruct (jsstring_eqb k _); [reflexivity|].
  apply get_assign_ne; exact Hne.
Qed.

Lemma get_Some_In (k : jsstring) (v : V) (o : object V) :
  get k o = Some v -> In (k, v) o.
Proof.
  unfold get. induction o as [|[k' v'] o IH]; simpl; [discriminate|].
  destruct (jsstring_eqb k' k) eqn:E.
  - apply jsstring_eqb_eq in E. intros [= ->]. subst. left; reflexivity.
  - intros H. right. auto.
Qed.

Lemma get_not_In (k : jsstring) (o : object V) :
  ~ In k (map fst o) -> get k o = None.
Proof.
  unfold get. induction o as [|[k' v'] o IH]; simpl; [reflexivity|].
  intros H. destruct (jsstring_eqb k' k) eqn:E.
  - apply jsstring_eqb_eq in E. tauto.
  - apply IH. tauto.
Qed.

(** [Object.entries] lists every own property once. *)
Lemma get_None_not_In (k : jsstring) (o : object V) :
  get k o = None -> ~ In k (map fst o).
Proof.
  unfold get. induction o as [|[k' v'] o IH]; simpl; [tauto|].
  destruct (jsstring_eqb k' k) eqn:E; [discriminate|].
  intros H [Heq | Hin]; [|exact (IH H Hin)].
  subst k'. rewrite jsstring_eqb_refl in E. discriminate.
Qed.

Lemma entries_perm (o : object V) : Permutation (entries o) o.
Proof.
  unfold entries.
  set (f := fun kv : jsstring * V =>
              match arrayIndex (fst kv) with
              | Some i => Some (i, kv)
              | None => None
              end).
  rewrite (Permutation_map snd (sort_perm _ (omap f o))).
  induction o as [|kv o IH]; [reflexivity|].
  rewrite filter_cons. cbn [omap list_omap]. unfold f at 1.
  destruct (arrayIndex (fst kv)) as [i|] eqn:E.
  - destruct (decide (Some i = None)) as [?|_]; [discriminate|].
    simpl. apply perm_skip. exact IH.
  - destruct (decide (None = None)) as [_|?]; [|congruence].
    rewrite <- Permutation_middle. apply perm_skip. exact IH.
Qed.

End ObjectFacts.

Section StoreFacts.
Import Store JsNumber.

Lemma alloc_fresh (o : obj) (h h' : gmap loc obj) (l : loc) :
  alloc o h = (h', l) -> h !! l = None /\ h' = <[l := o]> h.
Proof.
  unfold alloc. intros [= <- <-]. split; [|reflexivity].
  apply not_elem_of_dom. apply is_fresh.
Qed.

Lemma setProperty_other (target : loc) (k : jsstring) (v : val)
    (h : gmap loc obj) (l : loc) :
  l <> target -> setProperty target k v h !! l = h !! l.
Proof.
  intros Hne. unfold setProperty.
  destruct (h !! target) as [[props|elems]|]; try reflexivity.
  apply lookup_insert_ne. congruence.
Qed.

Lemma setProperty_target (target : loc) (k : jsstring) (v : val)
    (h : gmap loc obj) (props : JsObject.object val) :
  h !! target = Some (OObject props) ->
  setProperty target k v h !! target = Some (OObject (JsObject.set k v props)).
Proof. intros H. unfold setProperty. rewrite H. apply lookup_insert_eq. Qed.

(** One section: the objects of the store stay as they are, and the
    new map gains at most the property of this section; an
    underscore-prefixed entry is assigned as it is. *)
Lemma filterSection_spec (target : loc) (cutoff : jsnum) (k : jsstring) (v : val)
    (h h' : gmap loc obj) (r : result unit) (props : JsObject.object val) :
  h !! target = Some (OObject props) ->
  filterSection target cutoff (k, v) h = (h', r) ->
  (forall l o, l <> target -> h !! l = Some o -> h' !! l = Some o)
  /\ exists props',
       h' !! target = Some (OObject props')
       /\ (forall k', k' <> k -> JsObject.get k' props' = JsObject.get k' props)
       /\ (r = Return tt -> startsWith k (js "_") = true ->
           k <> js "__proto__" -> JsObject.get k props' = Some v).
Proof.
  intros Ht. unfold filterSection.
  assert (Hkeep : forall e, (h, @Throw unit e) = (h', r) ->
    (forall l o, l <> target -> h !! l = Some o -> h' !! l = Some o)
    /\ exists props',
         h' !! target = Some (OObject props')
         /\ (forall k', k' <> k -> JsObject.get k' props' = JsObject.get k' props)
         /\ (r = Return tt -> startsWith k (js "_") = true ->
             k <> js "__proto__" -> JsObject.get k props' = Some v)).
  { intros e [= <- <-]. split; [auto|]. exists props.
    split; [exact Ht|]. split; [auto | discriminate]. }
  destruct (startsWith k (js "_")) eqn:Hu.
  - intros [= <- <-]. split.
    + intros l o Hne Hl. rewrite setProperty_other; auto.
    + exists (JsObject.set k v props). split; [apply setProperty_target; exact Ht|].
      split.
      * intros k' Hne. apply get_set_ne; exact Hne.
      * intros _ _ Hp. apply get_set_eq; exact Hp.
  - destruct v as [| | | | |l0]; try apply Hkeep.
    destruct (h !! l0) as [[props0|elems]|]; try apply Hkeep.
    destruct (filterCards h cutoff elems) as [kept|e]; try apply Hkeep.
    destruct (alloc (OArray kept) h) as [h1 arr] eqn:Ha.
    apply alloc_fresh in Ha as [Hfresh ->].
    assert (Hne : arr <> target) by congruence.
    intros [= <- <-]. split.
    + intros l o Hl Hlo. rewrite setProperty_other; auto.
      rewrite lookup_insert_ne; congruence.
    + exists (JsObject.set k (VRef arr) props). split.
      * apply setProperty_target. rewrite lookup_insert_ne; auto.
      * split; [intros k' Hk; apply get_set_ne; exact Hk | discriminate].
Qed.

Lemma filterSections_spec (target : loc) (cutoff : jsnum)
    (entries : list (jsstring * val)) :
  forall (h h' : gmap loc obj) (r : result unit) (props : JsObject.object val),
    h !! target = Some (OObject props) ->
    filterSections target cutoff entries h = (h', r) ->
    (forall l o, l <> target -> h !! l = Some o -> h' !! l = Some o)
    /\ exists props',
         h' !! target = Some (OObject props')
         /\ (forall k, ~ In k (map fst entries) ->
             JsObject.get k props' = JsObject.get k props)
         /\ (r = Return tt -> NoDup (map fst entries) ->
             forall k v, In (k, v) entries -> startsWith k (js "_") = true ->
                         k <> js "__proto__" -> JsObject.get k props' = Some v).
Proof.
  induction entries as [|[k0 v0] rest IH]; intros h h' r props Ht;
    cbn [filterSections map fst].
  - intros [= <- <-]. split; [auto|]. exists props.
    split; [exact Ht|]. split; [auto|]. intros _ _ k v [].
  - destruct (filterSection target cutoff (k0, v0) h) as [h1 r1] eqn:E1.
    destruct (filterSection_spec _ _ _ _ _ _ _ _ Ht E1)
      as (Hframe1 & props1 & Ht1 & Hother1 & Hset1).
    destruct r1 as [[]|e].
    + intros E2. destruct (IH _ _ _ _ Ht1 E2) as (Hframe2 & props2 & Ht2 & Hother2 & Hset2).
      split; [intros l o Hne Hl; apply Hframe2; auto|].
      exists props2. split; [exact Ht2|]. split.
      * intros k Hk. simpl in Hk. rewrite Hother2 by tauto.
        apply Hother1. intros ->. tauto.
      * intros Hr Hnd k v Hin Hu Hp. apply NoDup_cons in Hnd as [Hk0 Hnd].
        destruct Hin as [[= <- <-]|Hin].
        -- rewrite Hother2; [apply Hset1; auto|].
           intros Hin. apply Hk0. apply list_elem_of_In. exact Hin.
        -- apply Hset2; auto.
    + intros [= <- <-]. split; [exact Hframe1|].
      exists props1. split; [exact Ht1|]. split.
      * intros k Hk. simpl in Hk. apply Hother1. intros ->. tauto.
      * discriminate.
Qed.

End StoreFacts.

(** *** Section maps: the call returns *)

Section StoreReturnFacts.
Import Store JsNumber.

Variable h : gmap nat obj.
Variable cutoff : jsnum.

Lemma keepCard_record (h' : gmap nat obj) (card : val) :
  extends h h' -> cardRecord h card ->
  exists keep, keepCard h cutoff card = Return keep
               /\ keepCard h' cutoff card = Return keep.
Proof.
  intros Hext (l & props & -> & Hl & Hi).
  unfold keepCard, inclusionProperty. rewrite Hl, (Hext _ _ Hl).
  destruct (JsObject.get (js "inclusion") props) as [[| | | |s|]|];
    try contradiction; cbn [default from_option bind]; unfold id;
    try (eexists; split; reflexivity).
  destruct (inclusionMatch s); eexists; split; reflexivity.
Qed.

Lemma filterCards_records (h' : gmap nat obj) (cards : list val) :
  extends h h' -> Forall (cardRecord h) cards ->
  exists kept, filterCards h cutoff cards = Return kept
               /\ filterCards h' cutoff cards = Return kept.
Proof.
  intros Hext. induction 1 as [|card cards Hc _ (kept & Hk & Hk')]; cbn [filterCards].
  - exists []. split; reflexivity.
  - destruct (keepCard_record h' card Hext Hc) as (keep & Hkeep & Hkeep').
    rewrite Hkeep, Hkeep', Hk, Hk'. cbn [bind]. eexists. split; reflexivity.
Qed.

Lemma filteredEntry_later (target : nat) (props : JsObject.object val)
    (h1 h2 : gmap nat obj) (entry : jsstring * val) (v' : val) :
  h1 !! target = Some (OObject props) ->
  (forall a o, a <> target -> h1 !! a = Some o -> h2 !! a = Some o) ->
  filteredEntry h h1 cutoff entry v' -> filteredEntry h h2 cutoff entry v'.
Proof.
  intros Ht Hframe. unfold filteredEntry.
  destruct (startsWith (fst entry) (js "_")); [auto|].
  intros (l & cards & l' & kept & Hv & Hl & Hv' & Hnew & Hl' & Hf).
  exists l, cards, l', kept. repeat split; try assumption.
  apply Hframe; [|exact Hl']. intros ->. rewrite Ht in Hl'. discriminate.
Qed.

(** One entry of a section map: the body of the loop returns, and the
    new map gets the value of the entry or a new array. *)
Lemma filterSection_returns (target : nat) (k : jsstring) (v : val)
    (hi : gmap nat obj) (props : JsObject.object val) :
  extends h hi -> hi !! target = Some (OObject props) ->
  sectionEntry h (k, v) ->
  exists hi' v',
    filterSection target cutoff (k, v) hi = (hi', Return tt)
    /\ hi' !! target = Some (OObject (JsObject.set k v' props))
    /\ (forall a o, a <> target -> hi !! a = Some o -> hi' !! a = Some o)
    /\ filteredEntry h hi' cutoff (k, v) v'.
Proof.
  intros Hext Ht Hentry. unfold filterSection, filteredEntry. cbn [fst snd].
  destruct (startsWith k (js "_")) eqn:Hu.
  - exists (setProperty target k v hi), v. split; [reflexivity|].
    split; [apply setProperty_target; exact Ht|].
    split; [|reflexivity].
    intros a o Ha Hao. rewrite setProperty_other by exact Ha. exact Hao.
  - destruct Hentry as [Hentry | (l & cards & Hv & Hl & Hcards)];
      [cbn [fst] in Hentry; congruence|].
    cbn [snd] in Hv. subst v. rewrite (Hext _ _ Hl).
    destruct (filterCards_records hi cards Hext Hcards) as (kept & Hk & Hk').
    rewrite Hk'.
    destruct (alloc (OArray kept) hi) as [h1 arr] eqn:Ha.
    apply alloc_fresh in Ha as [Hfresh ->].
    assert (Hne : arr <> target) by congruence.
    exists (setProperty target k (VRef arr) (<[arr := OArray kept]> hi)), (VRef arr).
    split; [reflexivity|]. split; [|split].
    + apply setProperty_target. rewrite lookup_insert_ne by exact Hne. exact Ht.
    + intros a o Ha Hao. rewrite setProperty_other by exact Ha.
      rewrite lookup_insert_ne; [exact Hao | congruence].
    + exists l, cards, arr, kept. repeat split; try assumption.
      * destruct (h !! arr) as [o|] eqn:E; [|reflexivity].
        rewrite (Hext _ _ E) in Hfresh. discriminate.
      * rewrite setProperty_other by exact Hne. apply lookup_insert_eq.
Qed.

(** The loop over the entries of a section map returns, and the new map
    holds an entry for each of them. *)
Lemma filterSections_returns (target : nat) (entries : list (jsstring * val)) :
  h !! target = None ->
  Forall (sectionEntry h) entries ->
  NoDup (map fst entries) -> ~ In (js "__proto__") (map fst entries) ->
  forall (hi : gmap nat obj) (props : JsObject.object val),
    extends h hi -> hi !! target = Some (OObject props) ->
    exists hf propsf,
      filterSections target cutoff entries hi = (hf, Return tt)
      /\ hf !! target = Some (OObject propsf)
      /\ (forall a o, a <> target -> hi !! a = Some o -> hf !! a = Some o)
      /\ (forall k, ~ In k (map fst entries) ->
                    JsObject.get k propsf = JsObject.get k props)
      /\ (forall k v, In (k, v) entries ->
            exists v', JsObject.get k propsf = Some v'
                       /\ filteredEntry h hf cutoff (k, v) v').
Proof.
  intros Hfresh Hentries. induction Hentries as [|[k v] entries He _ IH];
    intros Hnd Hproto hi props Hext Ht; cbn [filterSections].
  - exists hi, props. split; [reflexivity|]. split; [exact Ht|].
    split; [auto|]. split; [auto|]. intros k v [].
  - cbn [map fst] in Hnd, Hproto. apply NoDup_cons in Hnd as [Hk Hnd].
    destruct (filterSection_returns target k v hi props Hext Ht He)
      as (h1 & v' & Hstep & Ht1 & Hframe1 & Hv').
    rewrite Hstep.
    assert (Hext1 : extends h h1).
    { intros a o Hao. apply Hframe1; [|apply Hext; exact Hao].
      intros ->. rewrite Hfresh in Hao. discriminate. }
    assert (Hproto' : ~ In (js "__proto__") (map fst entries)).
    { intros Hin. apply Hproto. right. exact Hin. }
    destruct (IH Hnd Hproto' h1 _ Hext1 Ht1)
      as (hf & propsf & Hrun & Htf & Hframe & Hother & Hall).
    exists hf, propsf. split; [exact Hrun|]. split; [exact Htf|].
    assert (Hkrest : ~ In k (map fst entries)).
    { intros Hin. apply Hk. apply list_elem_of_In. exact Hin. }
    split; [|split].
    + intros a o Ha Hao. apply Hframe; [exact Ha|]. apply Hframe1; assumption.
    + intros k' Hk'. cbn [In map fst] in Hk'.
      rewrite Hother by (intros Hin; apply Hk'; right; exact Hin).
      apply get_set_ne. intros ->. apply Hk'. left. reflexivity.
    + intros k0 v0 [Heq | Hin].
      * injection Heq as <- <-. exists v'. split.
        -- rewrite (Hother k Hkrest). apply get_set_eq.
           intros ->. apply Hproto. left. reflexivity.
        -- eapply filteredEntry_later; [exact Ht1 | exact Hframe | exact Hv'].
      * apply Hall. exact Hin.
Qed.

(** The call on a section map in the store. *)
Lemma filterCardsByInclusion_returns (l : nat) (props : JsObject.object val) :
  h !! l = Some (OObject props) -> sectionMap props ->
  Forall (sectionEntry h) props ->
  exists h' l' props',
    filterCardsByInclusion (VRef l) cutoff h = (h', Return (VRef l'))
    /\ h !! l' = None
    /\ (forall a o, h !! a = Some o -> h' !! a = Some o)
    /\ h' !! l' = Some (OObject props')
    /\ (forall k v, JsObject.get k props = Some v ->
          exists v', JsObject.get k props' = Some v'
                     /\ filteredEntry h h' cutoff (k, v) v')
    /\ (forall k, JsObject.get k props = None -> JsObject.get k props' = None).
Proof.
  intros Hl [Hnd Hproto] Hentries. unfold filterCardsByInclusion.
  destruct (alloc (OObject []) h) as [h1 target] eqn:Ha.
  apply alloc_fresh in Ha as [Hfresh ->].
  assert (Hext : extends h (<[target := OObject []]> h)).
  { intros a o Hao. rewrite lookup_insert_ne; [exact Hao|].
    intros ->. rewrite Hfresh in Hao. discriminate. }
  unfold entriesOf. rewrite (Hext _ _ Hl).
  destruct (filterSections_returns target (JsObject.entries props) Hfresh)
    with (hi := <[target := OObject []]> h) (props := @nil (jsstring * val))
    as (hf & propsf & Hrun & Htf & Hframe & Hother & Hall).
  - rewrite (entries_perm props). exact Hentries.
  - rewrite (Permutation_map fst (entries_perm props)). exact Hnd.
  - intros Hin. apply Hproto.
    eapply Permutation_in; [apply (Permutation_map fst (entries_perm props)) | exact Hin].
  - exact Hext.
  - apply lookup_insert_eq.
  - rewrite Hrun. exists hf, target, propsf. split; [reflexivity|].
    split; [exact Hfresh|]. split; [|split; [exact Htf|split]].
    + intros a o Hao. apply Hframe; [|apply Hext; exact Hao].
      intros ->. rewrite Hfresh in Hao. discriminate.
    + intros k v Hget. apply Hall.
      eapply Permutation_in; [symmetry; apply entries_perm|].
      apply get_Some_In. exact Hget.
    + intros k Hget. rewrite Hother; [reflexivity|].
      intros Hin. apply (get_None_not_In k props Hget).
      eapply Permutation_in; [apply (Permutation_map fst (entries_perm props)) | exact Hin].
Qed.

End StoreReturnFacts.

(** The part of C9 that holds of every call, whatever the argument. *)
Lemma filterCardsByInclusion_frame :
  forall (h h' : gmap nat Store.obj) cardData cutoffPercent r,
    Store.filterCardsByInclusion cardData cutoffPercent h = (h', r) ->
    (forall l o, h !! l = Some o -> h' !! l = Some o)
    /\ (forall filtered, r = Return filtered ->
          exists l', filtered = Store.VRef l' /\ h !! l' = None
            /\ forall l props,
                 cardData = Store.VRef l ->
                 h !! l = Some (Store.OObject props) ->
                 Store.sectionMap props ->
                 exists props',
                   h' !! l' = Some (Store.OObject props')
                   /\ forall sectionName v,
                        JsObject.get sectionName props = Some v ->
                        startsWith sectionName (js "_") = true ->
                        JsObject.get sectionName props' = Some v).
Proof.
  intros h h' cardData cutoff r. unfold Store.filterCardsByInclusion.
  destruct (Store.alloc (Store.OObject []) h) as [h1 target] eqn:Ha.
  apply alloc_fresh in Ha as [Hfresh ->].
  assert (Hkeep : forall l o, h !! l = Some o ->
            (<[target := Store.OObject []]> h) !! l = Some o).
  { intros l o Hl. rewrite lookup_insert_ne; [exact Hl|].
    intros ->. rewrite Hfresh in Hl. discriminate. }
  destruct (Store.entriesOf _ cardData) as [entries|e] eqn:He.
  - destruct (Store.filterSections target cutoff entries _) as [h2 r2] eqn:E.
    destruct (filterSections_spec target cutoff entries _ _ _ []
                (lookup_insert_eq _ _ _) E) as (Hframe & props' & Ht & _ & Hset).
    assert (Hall : forall l o, h !! l = Some o -> h2 !! l = Some o).
    { intros l o Hl. apply Hframe; [|auto].
      intros ->. rewrite Hfresh in Hl. discriminate. }
    destruct r2 as [[]|e]; intros [= <- <-]; (split; [exact Hall|]);
      [|discriminate].
    intros filtered [= <-]. exists target. split; [reflexivity|].
    split; [exact Hfresh|].
    intros l props -> Hl [Hnd Hproto]. exists props'. split; [exact Ht|].
    intros k v Hget Hu.
    unfold Store.entriesOf in He. rewrite (Hkeep _ _ Hl) in He.
    inversion He; subst entries.
    apply Hset; auto.
    + rewrite (Permutation_map fst (entries_perm props)). exact Hnd.
    + eapply Permutation_in; [symmetry; apply entries_perm|].
      apply get_Some_In. exact Hget.
    + intros ->. apply Hproto. apply get_Some_In in Hget.
      apply (in_map fst) in Hget. exact Hget.
  - intros [= <- <-]. split; [exact Hkeep | discriminate].
Qed.

(** C9.  [filterCardsByInclusion] works on a copy.

    First part, for every argument and every store: every object that
    is in the store before the call, so the input map, each of its
    section arrays and each of its card records, is the same after the
    call, whatever the call returns or throws; a map it returns is a new
    object, and each underscore-prefixed entry of an input section map
    is found in it with the very value it has in the input.

    Second part, for every section map in the store (an object whose
    entries are underscore-prefixed or arrays of card records) and every
    cutoff: the call returns, and what it returns is a reference to an
    object that was not in the store before; every object of the store
    is the same after the call; the new map has an entry for each entry
    of the input and for no other name: under an underscore-prefixed
    name the very value of the input, under any other name a new array
    holding the cards of the input section that pass the filter. *)
Theorem filterCardsByInclusion_leaves_input :
  (forall (h h' : gmap nat Store.obj) cardData cutoffPercent r,
     Store.filterCardsByInclusion cardData cutoffPercent h = (h', r) ->
     (forall l o, h !! l = Some o -> h' !! l = Some o)
     /\ (forall filtered, r = Return filtered ->
           exists l', filtered = Store.VRef l' /\ h !! l' = None
             /\ forall l props,
                  cardData = Store.VRef l ->
                  h !! l = Some (Store.OObject props) ->
                  Store.sectionMap props ->
                  exists props',
                    h' !! l' = Some (Store.OObject props')
                    /\ forall sectionName v,
                         JsObject.get sectionName props = Some v ->
                         startsWith sectionName (js "_") = true ->
                         JsObject.get sectionName props' = Some v))
  /\ (forall (h : gmap nat Store.obj) l props cutoffPercent,
        h !! l = Some (Store.OObject props) ->
        Store.sectionMap props ->
        Forall (Store.sectionEntry h) props ->
        exists h' l' props',
          Store.filterCardsByInclusion (Store.VRef l) cutoffPercent h
          = (h', Return (Store.VRef l'))
          /\ h !! l' = None
          /\ (forall a o, h !! a = Some o -> h' !! a = Some o)
          /\ h' !! l' = Some (Store.OObject props')
          /\ (forall sectionName v,
                JsObject.get sectionName props = Some v ->
                exists v',
                  JsObject.get sectionName props' = Some v'
                  /\ Store.filteredEntry h h' cutoffPercent (sectionName, v) v')
          /\ (forall sectionName,
                JsObject.get sectionName props = None ->
                JsObject.get sectionName props' = None)).
Proof.
  split; [exact filterCardsByInclusion_frame|].
  intros h l props cutoff Hl Hmap Hentries.
  exact (filterCardsByInclusion_returns h cutoff l props Hl Hmap Hentries).
Qed.

(** On the sample store, with the cutoff at 50: the call returns a new
    map, and the section array of the input still holds both cards. *)
Lemma filterCardsByInclusion_leaves_input_witness :
  (exists h' l' props',
     Store.filterCardsByInclusion (Store.VRef 0) (JsNumber.Num 50) Samples.store
     = (h', Return (Store.VRef l'))
     /\ Samples.store !! l' = None
     /\ (forall a o, Samples.store !! a = Some o -> h' !! a = Some o)
     /\ h' !! l' = Some (Store.OObject props')
     /\ (forall sectionName v,
           JsObject.get sectionName
             [ (js "Top Cards", Store.VRef 1);
               (js "_deckCount", Store.VStr (js "5 decks")) ] = Some v ->
           exists v',
             JsObject.get sectionName props' = Some v'
             /\ Store.filteredEntry Samples.store h' (JsNumber.Num 50)
                  (sectionName, v) v')
     /\ (forall sectionName,
           JsObject.get sectionName
             [ (js "Top Cards", Store.VRef 1);
               (js "_deckCount", Store.VStr (js "5 decks")) ] = None ->
           JsObject.get sectionName props' = None))
  /\ Samples.store !! 1 = Some (Store.OArray [Store.VRef 2; Store.VRef 3])
  /\ fst (Store.filterCardsByInclusion (Store.VRef 0) (JsNumber.Num 50) Samples.store)
       !! 1
     = Some (Store.OArray [Store.VRef 2; Store.VRef 3]).
Proof.
  split; [|split; [vm_compute; reflexivity|]].
  - apply (proj2 filterCardsByInclusion_leaves_input Samples.store 0
             [ (js "Top Cards", Store.VRef 1);
               (js "_deckCount", Store.VStr (js "5 decks")) ]
             (JsNumber.Num 50)).
    + vm_compute; reflexivity.
    + split.
      * apply NoDup_cons. split; [|apply NoDup_singleton].
        intros H. apply list_elem_of_singleton in H. vm_compute in H. discriminate.
      * vm_compute. intros [H | [H | []]]; discriminate.
    + apply List.Forall_cons; [|apply List.Forall_cons; [|apply List.Forall_nil]].
      * right. exists 1, [Store.VRef 2; Store.VRef 3].
        split; [reflexivity|]. split; [vm_compute; reflexivity|].
        apply List.Forall_cons; [|apply List.Forall_cons; [|apply List.Forall_nil]].
        -- exists 2, [ (js "name", Store.VStr (js "Sol Ring"));
                       (js "inclusion", Store.VStr (js "68%")) ].
           split; [reflexivity|]. split; vm_compute; [reflexivity | exact I].
        -- exists 3, [ (js "name", Store.VStr (js "Cultivate"));
                       (js "inclusion", Store.VStr (js "12.5%")) ].
           split; [reflexivity|]. split; vm_compute; [reflexivity | exact I].
      * left. vm_compute; reflexivity.
  - apply (proj1 (proj1 filterCardsByInclusion_leaves_input Samples.store
                    (fst (Store.filterCardsByInclusion (Store.VRef 0) (JsNumber.Num 50)
                            Samples.store))
                    (Store.VRef 0) (JsNumber.Num 50)
                    (snd (Store.filterCardsByInclusion (Store.VRef 0) (JsNumber.Num 50)
                            Samples.store))
                    ltac:(vm_compute; reflexivity))).
    vm_compute; reflexivity.
Defined.

(** The call on the sample store: the new map is at location 4, its
    section array at location 5 keeps the one card at or above the
    cutoff, and the deck count is the same string. *)
Example filterCardsByInclusion_sample :
  let '(h', r) :=
    Store.filterCardsByInclusion (Store.VRef 0) (JsNumber.Num 50) Samples.store in
  r = Return (Store.VRef 4)
  /\ h' !! 4 = Some (Store.OObject
                      [ (js "Top Cards", Store.VRef 5);
                        (js "_deckCount", Store.VStr (js "5 decks")) ])
  /\ h' !! 5 = Some (Store.OArray [Store.VRef 2])
  /\ h' !! 0 = Samples.store !! 0.
Proof. vm_compute. repeat split; reflexivity. Qed.

(** ** The text list *)

Section TextListFacts.
Import ExportManager.

Lemma Return_inj {A : Type} (a b : A) : Return a = Return b -> a = b.
Proof. intros H. inversion H. reflexivity. Qed.

Lemma split_app_sep (sep : N) (a b : jsstring) :
  forallb (fun c => negb (N.eqb c sep)) a = true ->
  split sep (a ++ sep :: b) = a :: split sep b.
Proof.
  induction a as [|c a IH]; simpl.
  - intros _. rewrite N.eqb_refl. reflexivity.
  - rewrite andb_true_iff, negb_true_iff. intros [Hc Ha].
    rewrite Hc, (IH Ha). reflexivity.
Qed.

(** The sections only add lines after the two heading lines. *)
Lemma export_lines_extend (bullet : jsstring)
    (entries : list (jsstring * section_value)) (init lines : list jsstring) :
  forEach (fun entry lines =>
             let? ls := sectionLines bullet entry in Return (lines ++ ls))
          entries init = Return lines ->
  exists more, lines = init ++ more.
Proof.
  revert init; induction entries as [|entry rest IH]; intros init; simpl.
  - intros [= <-]. exists []. rewrite app_nil_r. reflexivity.
  - destruct (sectionLines bullet entry) as [ls|e]; simpl; [|discriminate].
    intros H. destruct (IH _ H) as [more ->].
    exists (ls ++ more). rewrite app_assoc. reflexivity.
Qed.

(** A line never removes a card already read. *)
Lemma parseLine_extends (line : jsstring) (cards : list imported)
    (currentSection : jsstring) :
  exists extra, fst (parseLine line (cards, currentSection)) = cards ++ extra.
Proof.
  unfold parseLine.
  repeat match goal with
         | |- context [if ?b then _ else _] => destruct b
         | |- context [match ?x with _ => _ end] => destruct x
         end;
    simpl; solve [ exists []; rewrite app_nil_r; reflexivity | eexists; reflexivity ].
Qed.

Lemma parseLines_extend (lines : list jsstring) (cards : list imported)
    (currentSection : jsstring) :
  exists extra,
    fst (fold_left (fun st line => parseLine line st) lines (cards, currentSection))
    = cards ++ extra.
Proof.
  revert cards currentSection; induction lines as [|line rest IH];
    intros cards currentSection; cbn [fold_left].
  - exists []. rewrite app_nil_r. reflexivity.
  - destruct (parseLine_extends line cards currentSection) as [extra He].
    destruct (parseLine line (cards, currentSection)) as [cards1 section1].
    cbn [fst] in He. subst cards1.
    destruct (IH (cards ++ extra) section1) as [extra' He'].
    exists (extra ++ extra'). rewrite He', app_assoc. reflexivity.
Qed.

(** Grouping keeps the first card of a section in front. *)
Lemma addImported_keeps_head (c : imported)
    (sections sections' : JsObject.object section_value)
    (k : jsstring) (first : card) (rest : list card) :
  k <> js "__proto__" ->
  JsObject.get k sections = Some (Cards (first :: rest)) ->
  addImported c sections = Return sections' ->
  exists rest', JsObject.get k sections' = Some (Cards (first :: rest')).
Proof.
  intros Hk Hget. unfold addImported.
  destruct (jsstring_eqb (imported_section c) k) eqn:E.
  - apply jsstring_eqb_eq in E. rewrite E, Hget. intros [= <-].
    exists (rest ++ [Card (imported_name c) (imported_inclusion c)]).
    rewrite get_set_eq by exact Hk. reflexivity.
  - assert (Hne : k <> imported_section c).
    { intros ->. rewrite jsstring_eqb_refl in E. discriminate. }
    destruct (JsObject.get (imported_section c) sections) as [[cards|[|x t]]|];
      try discriminate;
      try (intros [= <-]; exists rest; rewrite get_set_ne by exact Hne; exact Hget).
    destruct (JsObject.isInherited _); [discriminate|].
    intros [= <-]. exists rest. rewrite get_set_ne by exact Hne. exact Hget.
Qed.

Lemma groupImported_keeps_head (cards : list imported)
    (sections sections' : JsObject.object section_value)
    (k : jsstring) (first : card) (rest : list card) :
  k <> js "__proto__" ->
  JsObject.get k sections = Some (Cards (first :: rest)) ->
  forEach addImported cards sections = Return sections' ->
  exists rest', JsObject.get k sections' = Some (Cards (first :: rest')).
Proof.
  intros Hk. revert sections rest; induction cards as [|c cards IH];
    intros sections rest Hget; simpl.
  - intros [= <-]. eauto.
  - destruct (addImported c sections) as [sections1|e] eqn:E; simpl; [|discriminate].
    destruct (addImported_keeps_head _ _ _ _ _ _ Hk Hget E) as [rest1 Hget1].
    eapply IH; eauto.
Qed.

(** The list formats that [parseCardList] is written for. *)
Example parseCardList_formats :
  parseCardList (js "Top Cards (2 cards)" ++ [10%N] ++
                 js "4x Sol Ring - 68%" ++ [10%N] ++
                 js "[12%] Cultivate")
  = Return [ (js "Top Cards",
              Cards [ Card (js "Sol Ring") (js "68%");
                      Card (js "Cultivate") (js "12%") ]) ].
Proof. vm_compute; reflexivity. Qed.

(** Whatever is exported, the heading line comes back as a card. *)
Lemma heading_is_imported (bullet today : jsstring)
    (cardData sections : JsObject.object section_value) (text : jsstring) :
  exportToText bullet today cardData = Return text ->
  parseCardList text = Return sections ->
  exists rest,
    JsObject.get (js "Imported Cards") sections
    = Some (Cards (Card (js "EDHREC Card List") (js "N/A") :: rest)).
Proof.
  unfold exportToText.
  destruct (forEach _ _ _) as [lines|e] eqn:E; cbn [bind]; [|discriminate].
  destruct (export_lines_extend _ _ _ _ E) as [more ->].
  intros Htext. apply Return_inj in Htext. subst text. unfold parseCardList.
  change (join [10%N] ([js "EDHREC Card List"; js "Generated on: " ++ today ++ [10%N]]
                        ++ more))
    with (js "EDHREC Card List"
          ++ 10%N :: join [10%N] ((js "Generated on: " ++ today ++ [10%N]) :: more)).
  rewrite split_app_sep by (vm_compute; reflexivity).
  cbn [fold_left].
  change (parseLine (js "EDHREC Card List") ([], js "Imported Cards"))
    with ([Imported (js "EDHREC Card List") (js "N/A") (js "Imported Cards")],
          js "Imported Cards").
  match goal with
  | |- context [fold_left ?f ?ls ?st] =>
      destruct (parseLines_extend ls
                  [Imported (js "EDHREC Card List") (js "N/A") (js "Imported Cards")]
                  (js "Imported Cards")) as [extra He];
      destruct (fold_left f ls st) as [cards sec]
  end.
  simpl in He. subst cards. cbn [app forEach].
  change (addImported (Imported (js "EDHREC Card List") (js "N/A") (js "Imported Cards")) [])
    with (Return [(js "Imported Cards",
                   Cards [Card (js "EDHREC Card List") (js "N/A")])]
          : result (JsObject.object section_value)).
  cbn [bind]. intros Hgroup.
  eapply (groupImported_keeps_head extra _ sections (js "Imported Cards") _ []);
    [| |exact Hgroup].
  - vm_compute. discriminate.
  - vm_compute. reflexivity.
Qed.

End TextListFacts.

(** C5 fails on the code.  Whatever section map is exported, importing
    the text back yields a section "Imported Cards" that starts with the
    heading line "EDHREC Card List" as a card.  On the one-card section
    map [{"Top Cards": [{name: "Sol Ring", inclusion: "68%"}]}] the
    re-import has, besides the two heading lines, the underline as a card
    and the card name with the bullet in front; exporting that map gives a
    different text.  This holds for both spellings of the bullet. *)
Theorem text_list_round_trip_fails :
  (forall bullet today cardData text sections,
      ExportManager.exportToText bullet today cardData = Return text ->
      ExportManager.parseCardList text = Return sections ->
      exists rest,
        JsObject.get (js "Imported Cards") sections
        = Some (Cards (Card (js "EDHREC Card List") (js "N/A") :: rest)))
  /\ (exists text,
        ExportManager.exportToText Samples.bullet Samples.today Samples.topCards
        = Return text
        /\ ExportManager.parseCardList text = Return (Samples.reimported Samples.bullet)
        /\ ExportManager.exportToText Samples.bullet Samples.today
             (Samples.reimported Samples.bullet)
           <> Return text)
  /\ (exists text,
        ExportManager.exportToText Samples.bulletMisread Samples.today Samples.topCards
        = Return text
        /\ ExportManager.parseCardList text
           = Return (Samples.reimported Samples.bulletMisread)
        /\ ExportManager.exportToText Samples.bulletMisread Samples.today
             (Samples.reimported Samples.bulletMisread)
           <> Return text).
Proof.
  split; [intros *; apply heading_is_imported|].
  split; eexists; (split; [vm_compute; reflexivity|]);
    (split; [vm_compute; reflexivity | vm_compute; discriminate]).
Qed.

Lemma text_list_round_trip_fails_witness :
  exists rest,
    JsObject.get (js "Imported Cards") (Samples.reimported Samples.bullet)
    = Some (Cards (Card (js "EDHREC Card List") (js "N/A") :: rest)).
Proof.
  eapply (proj1 text_list_round_trip_fails Samples.bullet Samples.today
            Samples.topCards); vm_compute; reflexivity.
Defined.

(** * Further properties of the code *)

(** ** The text normalizer, continued *)

Section NormalizerShape.
Import Normalizer.

Lemma substring_prefix (s : jsstring) (n : nat) :
  n <= length s -> substring s 0 n = take n s.
Proof.
  intros H. unfold substring.
  replace (Nat.min n (length s)) with n by lia.
  replace (Nat.min 0 (length s)) with 0 by lia.
  simpl. rewrite Nat.sub_0_r. reflexivity.
Qed.

Lemma substringFrom_drop (s : jsstring) (d : nat) :
  substringFrom s d = drop (Nat.min d (length s)) s.
Proof.
  unfold substringFrom, substring.
  replace (Nat.min (length s) (length s)) with (length s) by lia.
  replace (Nat.min (Nat.min d (length s)) (length s)) with (Nat.min d (length s)) by lia.
  replace (Nat.max (Nat.min d (length s)) (length s)) with (length s) by lia.
  apply take_ge. rewrite length_drop. lia.
Qed.

(** A round that reports a change keeps a non-empty prefix and a
    suffix that starts later. *)
Lemma exactClean_round_shape (s s' : jsstring) :
  exactClean_round s = Some s' ->
  exists mid d, 1 <= mid /\ mid < d /\ mid < length s
                /\ s' = take mid s ++ drop d s.
Proof.
  unfold exactClean_round. destruct (boundaryMatch s) as [m|] eqn:Hm; [|discriminate].
  destruct (boundaryMatch_indexOf _ _ Hm) as (i & Hi & Hlen). rewrite Hi.
  set (mid := i + 1).
  set (first := substring s mid (tokenEnd s mid)).
  destruct (collectStrings_last i s first i []) as [pre Hpre].
  rewrite Hpre.
  set (lst := substring s (tokenStart s i) (S i)) in *.
  destruct (matchStrings s (pre ++ [lst]) mid 0) as [d' m'] eqn:HM.
  destruct (m' =? length (pre ++ [lst])) eqn:E; [|discriminate].
  apply Nat.eqb_eq in E. intros [= <-].
  pose proof (matchStrings_all s _ mid 0 d' m' lst (last_snoc lst pre) HM
                ltac:(lia)) as Hd.
  assert (Hl : 1 <= length lst).
  { unfold lst. rewrite length_substring. pose proof (tokenStart_le s i). lia. }
  exists mid, (Nat.max (Nat.min d' (length s)) (S mid)).
  unfold mid in *. repeat split; try lia.
  rewrite substring_prefix by lia. rewrite substringFrom_drop.
  f_equal. destruct (Nat.le_gt_cases d' (length s)).
  - f_equal. lia.
  - rewrite !drop_ge by lia. reflexivity.
Qed.

(** A property that holds of a string and passes from a string to what
    one round makes of it holds of the loop's result. *)
Lemma exactClean_loop_invariant (P : jsstring -> Prop) (fuel : nat)
    (s r : jsstring) :
  (forall a b, P a -> exactClean_round a = Some b -> P b) ->
  P s -> exactClean_loop fuel s = Some r -> P r.
Proof.
  intros Hstep. revert s; induction fuel as [|f IH]; intros s Hs; simpl; [discriminate|].
  destruct (exactClean_round s) as [s'|] eqn:E.
  - apply IH. eapply Hstep; eauto.
  - intros [= <-]. exact Hs.
Qed.

Lemma exactClean_invariant (P : jsstring -> Prop) (s : jsstring) :
  (forall a b, P a -> exactClean_round a = Some b -> P b) ->
  P s -> P (exactClean s).
Proof.
  intros Hstep Hs. destruct (exactClean_spec s) as (Hrun & _ & _).
  eapply exactClean_loop_invariant; eauto.
Qed.

Lemma exactClean_head (s : jsstring) : head (exactClean s) = head s.
Proof.
  apply (exactClean_invariant (fun r => head r = head s)); [|reflexivity].
  intros a b Ha Hround.
  destruct (exactClean_round_shape _ _ Hround) as (mid & d & Hmid & _ & Hlen & ->).
  rewrite <- Ha. destruct a as [|c a]; [simpl in Hlen; lia|].
  destruct mid as [|mid]; [lia|]. reflexivity.
Qed.

Lemma exactClean_nonempty (s : jsstring) : s <> [] -> exactClean s <> [].
Proof.
  intros Hs E. pose proof (exactClean_head s) as H. rewrite E in H.
  destruct s; [congruence | discriminate].
Qed.

End NormalizerShape.

(** X1.  [exactClean] only deletes characters: the cleaned string is
    the input with some characters left out, the others in their
    order. *)
Theorem exactClean_sublist (s : jsstring) :
  sublist (Normalizer.exactClean s) s.
Proof.
  apply (exactClean_invariant (fun r => sublist r s)); [|reflexivity].
  intros a b Ha Hround.
  destruct (exactClean_round_shape _ _ Hround) as (mid & d & _ & Hlt & _ & ->).
  etransitivity; [|exact Ha].
  rewrite <- (take_drop mid a) at 3.
  apply sublist_app; [reflexivity|].
  replace d with (mid + (d - mid)) by lia. rewrite <- drop_drop.
  apply sublist_drop.
Qed.

(** X2.  [exactClean] never deletes the first character: the cleaned
    string starts as the input does, and only the empty string is cleaned
    to the empty string. *)
Theorem exactClean_keeps_head (s : jsstring) :
  head (Normalizer.exactClean s) = head s
  /\ (Normalizer.exactClean s = [] <-> s = []).
Proof.
  split; [apply exactClean_head|]. split.
  - intros E. destruct s as [|c s]; [reflexivity|].
    exfalso. apply (exactClean_nonempty (c :: s)); [discriminate | exact E].
  - intros ->. reflexivity.
Qed.

(** ** The strict extractor, continued *)

Section StrictShapeFacts.
Import Dom Normalizer StrictGuide StrictShape.

Lemma Some_eq {A : Type} (a b : A) : Some a = Some b -> a = b.
Proof. congruence. Qed.

Lemma Return_pair {A B : Type} (a a' : A) (b b' : B) :
  Return (a, b) = Return (a', b') -> a = a' /\ b = b'.
Proof. intros H. split; congruence. Qed.

Lemma span_spec (p : N -> bool) (s a b : jsstring) :
  span p s = (a, b) ->
  s = a ++ b /\ forallb p a = true
  /\ match b with c :: _ => p c = false | [] => True end.
Proof.
  revert a b; induction s as [|c s IH]; intros a b; simpl.
  - intros [= <- <-]. auto.
  - destruct (p c) eqn:Hc.
    + destruct (span p s) as [a' b'] eqn:E. intros [= <- <-].
      destruct (IH _ _ eq_refl) as (-> & Ha & Hb). simpl. rewrite Hc. auto.
    + intros [= <- <-]. simpl. auto.
Qed.

Lemma dotPlus_spec (t name : jsstring) :
  dotPlus t = Some name ->
  name <> [] /\ forallb (fun c => negb (is_line_terminator c)) name = true
  /\ exists tail, t = name ++ tail
       /\ match tail with c :: _ => is_line_terminator c = true | [] => True end.
Proof.
  unfold dotPlus. destruct t as [|c t]; [discriminate|].
  destruct (negb (is_line_terminator c)) eqn:Hc; [|discriminate].
  destruct (span (fun c => negb (is_line_terminator c)) (c :: t)) as [a b] eqn:E.
  pose proof (span_spec _ _ _ _ E) as (Hs & Ha & Hb).
  cbn [span] in E. rewrite Hc in E.
  destruct (span (fun c => negb (is_line_terminator c)) t) as [a' b'].
  injection E as <- <-. cbn [fst]. intros H. apply (inj Some) in H. subst name.
  repeat split; [discriminate | exact Ha |].
  exists b'. split; [exact Hs|].
  destruct b' as [|x b']; [exact I|]. apply negb_false_iff. exact Hb.
Qed.

Lemma nameAfterSpaces_spec (revSpaces rest name : jsstring) :
  nameAfterSpaces revSpaces rest = Some name ->
  exists taken back,
    rev revSpaces = taken ++ back /\ taken <> []
    /\ dotPlus (back ++ rest) = Some name.
Proof.
  revert rest; induction revSpaces as [|c r IH]; intros rest; simpl; [discriminate|].
  destruct (dotPlus rest) as [n|] eqn:E.
  - intros [= <-]. exists (rev r ++ [c]), []. rewrite app_nil_r.
    repeat split; [|exact E]. intros H. apply app_eq_nil in H as [_ H]. discriminate.
  - intros H. destruct (IH _ H) as (taken & back & Hr & Ht & Hd).
    exists taken, (back ++ [c]). rewrite Hr, <- !app_assoc. simpl.
    repeat split; [exact Ht | exact Hd].
Qed.

Lemma forallb_app_l {A} (p : A -> bool) (a b : list A) :
  forallb p (a ++ b) = true -> forallb p a = true.
Proof. rewrite forallb_app, andb_true_iff. tauto. Qed.

Lemma quantityMatch_spec (s digits name : jsstring) :
  quantityMatch s = Some (digits, name) ->
  exists spaces tail,
    s = digits ++ spaces ++ name ++ tail
    /\ digits <> [] /\ forallb is_digit digits = true
    /\ spaces <> [] /\ forallb is_space spaces = true
    /\ name <> []
    /\ forallb (fun c => negb (is_line_terminator c)) name = true
    /\ match tail with c :: _ => is_line_terminator c = true | [] => True end.
Proof.
  unfold quantityMatch.
  destruct (span is_digit s) as [ds rest] eqn:Ed.
  destruct (span_spec _ _ _ _ Ed) as (-> & Hds & _).
  destruct ds as [|d ds]; [discriminate|].
  destruct (span is_space rest) as [sp rest'] eqn:Es.
  destruct (span_spec _ _ _ _ Es) as (-> & Hsp & _).
  destruct (nameAfterSpaces (rev sp) rest') as [n|] eqn:En; [|discriminate].
  intros [= <- <-].
  destruct (nameAfterSpaces_spec _ _ _ En) as (taken & back & Hr & Ht & Hd).
  rewrite rev_involutive in Hr. subst sp.
  destruct (dotPlus_spec _ _ Hd) as (Hn & Hnl & tail & Htail & Hterm).
  exists taken, tail. rewrite <- Htail, <- app_assoc.
  repeat split; try assumption; try discriminate.
  eapply forallb_app_l; exact Hsp.
Qed.

Lemma Forall_omap_intro {A B} (P : B -> Prop) (f : A -> option B) (l : list A) :
  (forall a b, f a = Some b -> P b) -> Forall P (omap f l).
Proof.
  intros H. induction l as [|a l IH]; simpl; [constructor|].
  destruct (f a) as [b|] eqn:E; [constructor; eauto | exact IH].
Qed.

Lemma deckSection_wellFormed (h : located) (sec : deck_section) :
  deckSection h = Some sec -> wellFormedSection sec.
Proof.
  unfold deckSection.
  destruct (trim (textContent (here h))) as [|c t] eqn:Et; [discriminate|].
  intros H; apply Some_eq in H; subst sec. split; cbn [section_name section_cards].
  - apply exactClean_nonempty. discriminate.
  - destruct (head _) as [ul|]; [|constructor].
    apply Forall_omap_intro. intros li card.
    destruct (quantityMatch (textContent li)) as [[q n]|] eqn:Eq; [|discriminate].
    intros H; apply Some_eq in H; subst card. cbn [deck_card_name].
    destruct (quantityMatch_spec _ _ _ Eq) as (? & ? & _ & _ & _ & _ & _ & Hn & _ & _).
    apply exactClean_nonempty. exact Hn.
Qed.

Lemma extractDecklist_spec (deckElement : node) (b : block) :
  extractDecklist deckElement = Return b ->
  exists title sections,
    b = decklist title sections /\ Forall wellFormedSection sections.
Proof.
  unfold extractDecklist.
  destruct (querySelector _ deckElement) as [deckTitle|]; [|discriminate].
  destruct (querySelector _ deckElement) as [deckColumns|].
  - intros H; apply Return_inj in H; subst b. eexists _, _. split; [reflexivity|].
    apply Forall_omap_intro. apply deckSection_wellFormed.
  - intros H; apply Return_inj in H; subst b. eexists _, _. split; [reflexivity|]. constructor.
Qed.

Lemma processCardContainer_spec (container : node) (cards : list jsstring) :
  exists added,
    processCardContainer container cards = cards ++ added
    /\ Forall (fun c : jsstring => c <> []) added.
Proof.
  unfold processCardContainer.
  generalize (querySelectorAll [SelClass (js "Card_name__Mpa7S")] container).
  intros l. revert cards. induction l as [|card l IH]; intros cards; cbn [fold_left].
  - exists []. rewrite app_nil_r. split; [reflexivity | constructor].
  - destruct (textContent card) as [|c t] eqn:Et; cbn beta iota.
    + apply IH.
    + destruct (IH (cards ++ [exactClean (c :: t)])) as (added & -> & Hadded).
      exists (exactClean (c :: t) :: added). rewrite <- app_assoc. split; [reflexivity|].
      constructor; [|exact Hadded]. apply exactClean_nonempty. discriminate.
Qed.

Lemma headingLevel_range (tag : jsstring) (level : N) :
  headingLevel tag = Some level -> (1 <= level <= 4)%N.
Proof.
  unfold headingLevel. destruct tag as [|h [|d [|]]]; try discriminate.
  destruct (N.eqb h 72 && in_range 49 52 d) eqn:E; [|discriminate].
  intros [= <-]. apply andb_true_iff in E as [_ E].
  unfold in_range in E. apply andb_true_iff in E as [E1 E2].
  apply N.leb_le in E1, E2. lia.
Qed.

(** One element adds no block or one block of the strict shape, and
    some non-empty card names. *)
Lemma processElement_spec (element : node) (blocks blocks' : list block)
    (cards cards' : list jsstring) :
  processElement element (blocks, cards) = Return (blocks', cards') ->
  (exists added, blocks' = blocks ++ added /\ length added <= 1
                 /\ Forall strictBlock added)
  /\ (exists added, cards' = cards ++ added
                    /\ Forall (fun c : jsstring => c <> []) added).
Proof.
  assert (Hnone : forall b c,
    (exists added : list block, b = b ++ added /\ length added <= 1
                   /\ Forall strictBlock added)
    /\ (exists added : list jsstring, c = c ++ added
                      /\ Forall (fun c : jsstring => c <> []) added)).
  { intros b c. split; exists []; rewrite app_nil_r;
      (split; [reflexivity|]); [split; [simpl; lia | constructor] | constructor]. }
  assert (Hone : forall b c x, strictBlock x ->
    (exists added : list block, b ++ [x] = b ++ added /\ length added <= 1
                   /\ Forall strictBlock added)
    /\ (exists added : list jsstring, c = c ++ added
                      /\ Forall (fun c : jsstring => c <> []) added)).
  { intros b c x Hx. split.
    - exists [x]. split; [reflexivity|]. split; [simpl; lia|]. constructor; [exact Hx | constructor].
    - exists []. rewrite app_nil_r. split; [reflexivity | constructor]. }
  unfold processElement.
  destruct (classList_contains element (js "ArticlePage_cards___rqr8")).
  { intros H; apply Return_pair in H as [<- <-]. split.
    - exists []. rewrite app_nil_r. split; [reflexivity|]. split; [simpl; lia | constructor].
    - apply processCardContainer_spec. }
  assert (Hrest :
    (if jsstring_eqb (tagName element) (js "P") && (20 <? length (trim (textContent element)))
     then Return (blocks ++ [paragraph (exactClean (trim (textContent element)))
             (Some (filter (fun card => card <> [])
                (map (fun link => exactClean (textContent link))
                   (querySelectorAll [SelTagAttrContains (js "A") (js "href") (js "/cards/")]
                      element))))], cards)
     else if classList_contains element (js "edhrecp__deck")
          then match extractDecklist element with
               | Return d => Return (blocks ++ [d], cards)
               | Throw _ => Throw EDHRECParseError
               end
          else Return (blocks, cards)) = Return (blocks', cards') ->
    (exists added, blocks' = blocks ++ added /\ length added <= 1
                 /\ Forall strictBlock added)
    /\ (exists added, cards' = cards ++ added
                    /\ Forall (fun c : jsstring => c <> []) added)).
  { destruct (jsstring_eqb (tagName element) (js "P") && _) eqn:Ep.
    - intros H; apply Return_pair in H as [<- <-]. apply Hone. cbn [strictBlock]. split.
      + apply exactClean_nonempty. apply andb_true_iff in Ep as [_ Ep].
        apply Nat.ltb_lt in Ep. intros E. rewrite E in Ep. simpl in Ep. lia.
      + apply Forall_forall. intros x Hx. apply list_elem_of_filter in Hx as [Hx _]. exact Hx.
    - destruct (classList_contains element (js "edhrecp__deck")).
      + destruct (extractDecklist element) as [d|e] eqn:Ed; [|discriminate].
        intros H; apply Return_pair in H as [<- <-]. apply Hone.
        destruct (extractDecklist_spec _ _ Ed) as (title & secs & -> & Hsecs). exact Hsecs.
      + intros H; apply Return_pair in H as [<- <-]. apply Hnone. }
  destruct (headingLevel (tagName element)) as [level|] eqn:El.
  - destruct (trim (textContent element)) as [|c t] eqn:Et.
    + exact Hrest.
    + intros H; apply Return_pair in H as [<- <-]. apply Hone. cbn [strictBlock]. split.
      * eapply headingLevel_range; eauto.
      * apply exactClean_nonempty. discriminate.
  - exact Hrest.
Qed.

Lemma forEach_processElement_spec (elements : list node) (blocks blocks' : list block)
    (cards cards' : list jsstring) :
  forEach processElement elements (blocks, cards) = Return (blocks', cards') ->
  (exists added, blocks' = blocks ++ added /\ length added <= length elements
                 /\ Forall strictBlock added)
  /\ (exists added, cards' = cards ++ added
                    /\ Forall (fun c : jsstring => c <> []) added).
Proof.
  revert blocks cards; induction elements as [|el els IH]; intros blocks cards;
    cbn [forEach length].
  - intros H; apply Return_pair in H as [<- <-]. split; exists []; rewrite app_nil_r;
      (split; [reflexivity|]); [split; [simpl; lia | constructor] | constructor].
  - destruct (processElement el (blocks, cards)) as [[b1 c1]|e] eqn:E1; [|discriminate].
    cbn [bind]. intros H.
    destruct (processElement_spec _ _ _ _ _ E1) as ((a1 & -> & Hl1 & Hf1) & (k1 & -> & Hk1)).
    destruct (IH _ _ H) as ((a2 & -> & Hl2 & Hf2) & (k2 & -> & Hk2)).
    split.
    + exists (a1 ++ a2). rewrite app_assoc. split; [reflexivity|].
      split; [rewrite length_app; lia | apply Forall_app; auto].
    + exists (k1 ++ k2). rewrite app_assoc. split; [reflexivity|]. apply Forall_app; auto.
Qed.

Lemma extractMetadata_keeps_blocks (doc : node) (g : guide) :
  contentBlocks (extractMetadata doc g) = contentBlocks g
  /\ upgradeCards (extractMetadata doc g) = upgradeCards g.
Proof.
  unfold extractMetadata. destruct (textOf _); auto.
Qed.

Lemma beforeBoundary_length (l : list node) :
  length (beforeBoundary l) <= length l.
Proof.
  induction l as [|el l IH]; simpl; [lia|].
  destruct (includes _ _); simpl; lia.
Qed.

End StrictShapeFacts.

(** X3.  A match of [/^(\d+)\s+(.+)/] splits the item text: the
    quantity is a non-empty run of digits at the start, white space
    follows, and the name is non-empty, holds no line terminator and
    runs to the end of the text or to the first line terminator. *)
Theorem quantityMatch_sound (s digits name : jsstring) :
  StrictGuide.quantityMatch s = Some (digits, name) ->
  exists spaces tail,
    s = digits ++ spaces ++ name ++ tail
    /\ digits <> [] /\ forallb is_digit digits = true
    /\ spaces <> [] /\ forallb is_space spaces = true
    /\ name <> []
    /\ forallb (fun c => negb (is_line_terminator c)) name = true
    /\ match tail with c :: _ => is_line_terminator c = true | [] => True end.
Proof. apply quantityMatch_spec. Qed.

Lemma quantityMatch_sound_witness :
  exists spaces tail,
    js "2 Forest" = js "2" ++ spaces ++ js "Forest" ++ tail
    /\ js "2" <> [] /\ forallb is_digit (js "2") = true
    /\ spaces <> [] /\ forallb is_space spaces = true
    /\ js "Forest" <> []
    /\ forallb (fun c => negb (is_line_terminator c)) (js "Forest") = true
    /\ match tail with c :: _ => is_line_terminator c = true | [] => True end.
Proof.
  apply (quantityMatch_sound (js "2 Forest") (js "2") (js "Forest")).
  vm_compute. reflexivity.
Defined.

(** X4.  A decklist that [extractDecklist] returns has only named
    sections with named cards: no section name and no card name is the
    empty string. *)
Theorem extractDecklist_names_nonempty (deckElement : node) (b : block) :
  StrictGuide.extractDecklist deckElement = Return b ->
  exists title sections,
    b = decklist title sections
    /\ Forall StrictShape.wellFormedSection sections.
Proof. apply extractDecklist_spec. Qed.

Lemma extractDecklist_names_nonempty_witness :
  exists title sections,
    decklist (js "Deck") [Samples.landsSection] = decklist title sections
    /\ Forall StrictShape.wellFormedSection sections.
Proof.
  apply (extractDecklist_names_nonempty Samples.siteDecklist).
  vm_compute. reflexivity.
Defined.

Section StrictBlocksFacts.
Import Dom Normalizer StrictGuide StrictShape.

Lemma beforeBoundary_app (pre post : list node) (b : node) :
  includes (textContent b) (js "More Precon Guides:") = true ->
  beforeBoundary (pre ++ b :: post) = beforeBoundary pre.
Proof.
  intros Hb. induction pre as [|el pre IH]; cbn [beforeBoundary app].
  - rewrite Hb. reflexivity.
  - destruct (includes (textContent el) _); [reflexivity|]. rewrite IH. reflexivity.
Qed.

Lemma extractContentBlocks_spec (contentElement : node) (g g' : guide) :
  extractContentBlocks contentElement g = Return g' ->
  guide_title g' = guide_title g /\ guide_author g' = guide_author g
  /\ guide_date g' = guide_date g
  /\ (exists added,
        contentBlocks g' = contentBlocks g ++ added
        /\ length added <= length (children contentElement)
        /\ Forall strictBlock added)
  /\ (exists added,
        upgradeCards g' = upgradeCards g ++ added
        /\ Forall (fun c : jsstring => c <> []) added).
Proof.
  unfold extractContentBlocks.
  destruct (forEach processElement _ _) as [[blocks cards]|e] eqn:E; [|discriminate].
  cbn [bind fst snd]. intros H. apply Return_inj in H. subst g'.
  cbn [guide_title guide_author guide_date contentBlocks upgradeCards].
  destruct (forEach_processElement_spec _ _ _ _ _ E)
    as ((added & -> & Hlen & Hshape) & Hcards).
  repeat split; [|exact Hcards].
  exists added. repeat split; [|exact Hshape].
  pose proof (beforeBoundary_length (children contentElement)). lia.
Qed.

Lemma parseUpgradeGuideContent_shape (parseFromString : jsstring -> node)
    (htmlContent : jsstring) (g : guide) :
  parseUpgradeGuideContent parseFromString htmlContent = Return g ->
  Forall strictBlock (contentBlocks g)
  /\ Forall (fun c : jsstring => c <> []) (upgradeCards g).
Proof.
  unfold parseUpgradeGuideContent.
  destruct (document_querySelector _ _) as [contentElement|]; [|discriminate].
  intros H. apply extractContentBlocks_spec in H
    as (_ & _ & _ & (blocks & Hb & _ & Hshape) & (cards & Hc & Hcards)).
  destruct (extractMetadata_keeps_blocks (parseFromString htmlContent)
              (Guide [] [] [] [] [])) as [Eb Ec].
  rewrite Eb in Hb. rewrite Ec in Hc. cbn [contentBlocks upgradeCards app] in Hb, Hc.
  rewrite Hb, Hc. auto.
Qed.

Lemma countContentTypes_fold (blocks : list block) (c : StrictDisplay.counts) :
  let c' :=
    fold_left
      (fun c b =>
         match b with
         | header _ _ =>
             StrictDisplay.Counts (S (StrictDisplay.header_count c))
               (StrictDisplay.paragraph_count c) (StrictDisplay.decklist_count c)
         | paragraph _ _ =>
             StrictDisplay.Counts (StrictDisplay.header_count c)
               (S (StrictDisplay.paragraph_count c)) (StrictDisplay.decklist_count c)
         | decklist _ _ =>
             StrictDisplay.Counts (StrictDisplay.header_count c)
               (StrictDisplay.paragraph_count c) (S (StrictDisplay.decklist_count c))
         | cardlist _ _ | individualCard _ => c
         end) blocks c in
  StrictDisplay.header_count c' + StrictDisplay.paragraph_count c'
  + StrictDisplay.decklist_count c'
  = StrictDisplay.header_count c + StrictDisplay.paragraph_count c
    + StrictDisplay.decklist_count c
    + length (List.filter StrictDisplay.displayed blocks).
Proof.
  revert c; induction blocks as [|b blocks IH]; intros c; cbn [fold_left List.filter].
  - cbn [length]. lia.
  - cbv zeta in IH. rewrite IH.
    destruct b; cbn [StrictDisplay.displayed StrictDisplay.header_count
                     StrictDisplay.paragraph_count StrictDisplay.decklist_count length]; lia.
Qed.

Lemma strictBlock_displayed (b : block) :
  strictBlock b -> StrictDisplay.displayed b = true.
Proof. destruct b as [| ? [?|] | | |]; cbn [strictBlock]; try tauto; reflexivity. Qed.

Lemma filter_all {A : Type} (p : A -> bool) (l : list A) :
  Forall (fun a => p a = true) l -> List.filter p l = l.
Proof.
  induction 1 as [|a l Ha _ IH]; cbn [List.filter]; [reflexivity|].
  rewrite Ha, IH. reflexivity.
Qed.

End StrictBlocksFacts.

(** X5.  [extractContentBlocks] looks at nothing from the boundary
    on: a child element whose text contains [More Precon Guides:] and
    everything after it can be cut off without changing the result. *)
Theorem extractContentBlocks_stops_at_boundary
    (tag : jsstring) (attrs : list (jsstring * jsstring))
    (pre post : list node) (b : node) (g : guide) :
  Dom.isElement b = true ->
  includes (Dom.textContent b) (js "More Precon Guides:") = true ->
  StrictGuide.extractContentBlocks (Element tag attrs (pre ++ b :: post)) g
  = StrictGuide.extractContentBlocks (Element tag attrs pre) g.
Proof.
  intros Eb Hb. unfold StrictGuide.extractContentBlocks, Dom.children.
  cbn [Dom.childNodes]. rewrite filter_app.
  rewrite filter_cons_True by exact Eb.
  rewrite beforeBoundary_app by exact Hb. reflexivity.
Qed.

Lemma extractContentBlocks_stops_at_boundary_witness :
  Dom.isElement GuideSamples.boundary = true
  /\ StrictGuide.extractContentBlocks
       (Element (js "DIV") []
          (GuideSamples.article ++ GuideSamples.boundary :: GuideSamples.afterBoundary))
       (Guide [] [] [] [] [])
     = StrictGuide.extractContentBlocks
         (Element (js "DIV") [] GuideSamples.article) (Guide [] [] [] [] []).
Proof.
  split; [reflexivity|].
  apply (extractContentBlocks_stops_at_boundary (js "DIV") []
           GuideSamples.article GuideSamples.afterBoundary GuideSamples.boundary).
  - reflexivity.
  - vm_compute. reflexivity.
Defined.

(** X6.  [extractContentBlocks] leaves title, author and date alone
    and only appends: at most one block for each child element, each a
    header of level 1 to 4 with a non-empty text, a paragraph with a
    non-empty text whose mentioned cards are non-empty strings, or a
    decklist with named sections and cards; the card names appended to
    [upgradeCards] are non-empty. *)
Theorem extractContentBlocks_appends (contentElement : node) (g g' : guide) :
  StrictGuide.extractContentBlocks contentElement g = Return g' ->
  guide_title g' = guide_title g /\ guide_author g' = guide_author g
  /\ guide_date g' = guide_date g
  /\ (exists added,
        contentBlocks g' = contentBlocks g ++ added
        /\ length added <= length (Dom.children contentElement)
        /\ Forall StrictShape.strictBlock added)
  /\ (exists added,
        upgradeCards g' = upgradeCards g ++ added
        /\ Forall (fun c : jsstring => c <> []) added).
Proof. apply extractContentBlocks_spec. Qed.

Lemma extractContentBlocks_appends_witness :
  exists added,
    contentBlocks GuideSamples.extracted = [] ++ added
    /\ length added <= 4
    /\ Forall StrictShape.strictBlock added.
Proof.
  apply (extractContentBlocks_appends
           (Element (js "DIV") [] GuideSamples.article)
           (Guide (js "Upgrade Guide") [] [] [] [])
           GuideSamples.extracted).
  vm_compute. reflexivity.
Defined.

(** X7.  A guide that the strict [extractUpgradeGuide] returns holds
    headers, paragraphs and decklists only, so the three numbers of
    [countContentTypes], which it logs, add up to the number of content
    blocks, and that number is positive. *)
Theorem extractUpgradeGuide_counts (parseFromString : jsstring -> node)
    (fetch : jsstring -> fetched) (url : jsstring) (g : guide) :
  StrictGuide.extractUpgradeGuide parseFromString fetch url = Return g ->
  let counts := StrictDisplay.countContentTypes (contentBlocks g) in
  Forall StrictShape.strictBlock (contentBlocks g)
  /\ StrictDisplay.header_count counts + StrictDisplay.paragraph_count counts
     + StrictDisplay.decklist_count counts
     = length (contentBlocks g)
  /\ 0 < length (contentBlocks g).
Proof.
  intros H counts.
  pose proof (strict_extract_cases parseFromString fetch url) as Hc.
  destruct (StrictGuide.fetchWithProxies fetch url) as [[|c html]|e];
    [congruence | | congruence].
  destruct (StrictGuide.parseUpgradeGuideContent parseFromString (c :: html))
    as [g0|e] eqn:Ep; [|congruence].
  destruct (contentBlocks g0) as [|b bs] eqn:Eb; [congruence|].
  assert (g0 = g) by congruence. subst g0.
  destruct (parseUpgradeGuideContent_shape _ _ _ Ep) as [Hshape _].
  split; [exact Hshape|]. split.
  - unfold counts, StrictDisplay.countContentTypes.
    pose proof (countContentTypes_fold (contentBlocks g) (StrictDisplay.Counts 0 0 0)) as Hf.
    cbv zeta in Hf. rewrite Hf.
    cbn [StrictDisplay.header_count StrictDisplay.paragraph_count
         StrictDisplay.decklist_count].
    rewrite (filter_all StrictDisplay.displayed).
    + lia.
    + eapply Forall_impl; [exact Hshape|]. apply strictBlock_displayed.
  - rewrite Eb. cbn [length]. lia.
Qed.

Lemma extractUpgradeGuide_counts_witness :
  let counts := StrictDisplay.countContentTypes (contentBlocks GuideSamples.extracted) in
  Forall StrictShape.strictBlock (contentBlocks GuideSamples.extracted)
  /\ StrictDisplay.header_count counts + StrictDisplay.paragraph_count counts
     + StrictDisplay.decklist_count counts
     = length (contentBlocks GuideSamples.extracted)
  /\ 0 < length (contentBlocks GuideSamples.extracted).
Proof.
  apply (extractUpgradeGuide_counts (fun _ => GuideSamples.guidePage)
           GuideSamples.servesGuide Samples.guideUrl).
  vm_compute. reflexivity.
Defined.

Section FetchFacts.
Import StrictGuide.
Variable fetch : jsstring -> fetched.
Variable url : jsstring.

Lemma fetchLoop_returns (proxies : list jsstring) (lastError : option error)
    (html : jsstring) :
  fetchLoop fetch url proxies lastError = Return html <->
  exists pre proxy post,
    proxies = pre ++ proxy :: post /\ Forall (StrictShape.fails fetch url) pre
    /\ attempt fetch (proxy ++ url) = Return html.
Proof.
  revert lastError; induction proxies as [|p rest IH]; intros lastError;
    cbn [fetchLoop].
  - split; [discriminate|]. intros (pre & proxy & post & H & _).
    destruct pre; discriminate.
  - destruct (attempt fetch (p ++ url)) as [h|e] eqn:E.
    + split.
      * intros H. exists [], p, rest. split; [reflexivity|]. split; [constructor|].
        congruence.
      * intros (pre & proxy & post & Hp & Hpre & Hret).
        destruct pre as [|q pre]; cbn [app] in Hp.
        -- injection Hp as -> ->. congruence.
        -- injection Hp as -> ->. apply Forall_cons in Hpre as [[e He] _]. congruence.
    + rewrite IH. split.
      * intros (pre & proxy & post & -> & Hpre & Hret).
        exists (p :: pre), proxy, post. split; [reflexivity|]. split; [|exact Hret].
        constructor; [exists e; exact E | exact Hpre].
      * intros (pre & proxy & post & Hp & Hpre & Hret).
        destruct pre as [|q pre]; cbn [app] in Hp.
        -- injection Hp as -> ->. congruence.
        -- injection Hp as -> ->. apply Forall_cons in Hpre as [_ Hpre].
           exists pre, proxy, post. auto.
Qed.

Lemma fetchLoop_fails (proxies : list jsstring) (lastError : option error) :
  (exists e, fetchLoop fetch url proxies lastError = Throw e) <-> Forall (StrictShape.fails fetch url) proxies.
Proof.
  revert lastError; induction proxies as [|p rest IH]; intros lastError;
    cbn [fetchLoop].
  - split; [constructor | eauto].
  - destruct (attempt fetch (p ++ url)) as [h|e] eqn:E.
    + split; [intros [e He]; discriminate|].
      intros H. apply Forall_cons in H as [[e He] _]. congruence.
    + rewrite IH. split.
      * intros H. constructor; [exists e; exact E | exact H].
      * intros H. apply Forall_cons in H as [_ H]. exact H.
Qed.

End FetchFacts.

(** X8.  The strict [fetchWithProxies] returns the content of the
    first proxy, in the order of the list, whose attempt succeeds, and it
    throws exactly when the attempts of all four proxies fail. *)
Theorem fetchWithProxies_first_success (fetch : jsstring -> fetched) (url : jsstring) :
  (forall html,
      StrictGuide.fetchWithProxies fetch url = Return html <->
      exists pre proxy post,
        StrictGuide.proxies = pre ++ proxy :: post
        /\ Forall (StrictShape.fails fetch url) pre
        /\ StrictGuide.attempt fetch (proxy ++ url) = Return html)
  /\ ((exists e, StrictGuide.fetchWithProxies fetch url = Throw e) <->
      Forall (StrictShape.fails fetch url) StrictGuide.proxies).
Proof.
  split.
  - intros html. apply fetchLoop_returns.
  - apply fetchLoop_fails.
Qed.

(** ** The strict display engine: grouping *)

Section GroupFacts.
Import StrictDisplay.

Lemma blocksOf_flush (groups : list group) (currentGroup : list block) :
  concat (map blocksOf (flush groups currentGroup))
  = concat (map blocksOf groups) ++ currentGroup.
Proof.
  destruct currentGroup as [|b bs]; cbn [flush].
  - rewrite app_nil_r. reflexivity.
  - rewrite map_app, concat_app. cbn [map blocksOf concat]. rewrite app_nil_r. reflexivity.
Qed.

Lemma groupLoop_blocks (blocks : list block) (groups : list group)
    (currentGroup : list block) :
  let '(groups', currentGroup') := fold_left groupStep blocks (groups, currentGroup) in
  concat (map blocksOf groups') ++ currentGroup'
  = concat (map blocksOf groups) ++ currentGroup ++ List.filter displayed blocks.
Proof.
  revert groups currentGroup; induction blocks as [|b blocks IH];
    intros groups currentGroup; cbn [fold_left List.filter].
  - rewrite app_nil_r. reflexivity.
  - destruct b; cbn [groupStep displayed];
      match goal with
      | |- context [fold_left groupStep blocks (?gs, ?cur)] =>
          specialize (IH gs cur);
          destruct (fold_left groupStep blocks (gs, cur)) as [groups' currentGroup']
      end; rewrite IH;
      rewrite ?map_app, ?concat_app, ?blocksOf_flush; cbn [map blocksOf concat app];
      rewrite <- ?app_assoc; reflexivity.
Qed.

Lemma separated_snoc (groups : list group) (g : group) :
  separated groups ->
  (isParagraphGroup g = true -> endsSingle groups) ->
  separated (groups ++ [g]).
Proof.
  induction groups as [|a groups IH]; intros Hs Hg; cbn [app separated head].
  - auto.
  - destruct Hs as [Ha Hs]. split.
    + destruct groups as [|a' groups]; cbn [app head] in *.
      * destruct (isParagraphGroup g) eqn:Eg; [|apply andb_false_r].
        specialize (Hg eq_refl). unfold endsSingle in Hg. cbn in Hg.
        rewrite Hg. reflexivity.
      * exact Ha.
    + apply IH; [exact Hs|]. intros Eg. specialize (Hg Eg).
      unfold endsSingle in *. destruct groups as [|a' groups]; [exact I|].
      exact Hg.
Qed.

Lemma endsSingle_snoc (groups : list group) (b : block) :
  endsSingle (groups ++ [single b]).
Proof. unfold endsSingle. rewrite last_snoc. reflexivity. Qed.

Lemma flush_wellFormed (groups : list group) (currentGroup : list block) :
  Forall wellFormedGroup groups -> separated groups -> endsSingle groups ->
  Forall (fun b => isParagraph b = true) currentGroup ->
  Forall wellFormedGroup (flush groups currentGroup)
  /\ separated (flush groups currentGroup).
Proof.
  intros Hw Hs He Hp. destruct currentGroup as [|b bs]; cbn [flush]; [auto|].
  split.
  - apply Forall_app. split; [exact Hw|]. constructor; [|constructor].
    split; [discriminate | exact Hp].
  - apply separated_snoc; auto.
Qed.

Lemma groupLoop_wellFormed (blocks : list block) (groups : list group)
    (currentGroup : list block) :
  Forall wellFormedGroup groups -> separated groups -> endsSingle groups ->
  Forall (fun b => isParagraph b = true) currentGroup ->
  let '(groups', currentGroup') := fold_left groupStep blocks (groups, currentGroup) in
  Forall wellFormedGroup groups' /\ separated groups' /\ endsSingle groups'
  /\ Forall (fun b => isParagraph b = true) currentGroup'.
Proof.
  revert groups currentGroup; induction blocks as [|b blocks IH];
    intros groups currentGroup Hw Hs He Hp; cbn [fold_left].
  - auto.
  - destruct (flush_wellFormed _ _ Hw Hs He Hp) as [Hfw Hfs].
    destruct b; cbn [groupStep]; apply IH; auto.
    + apply Forall_app. split; [exact Hfw|]. constructor; [|constructor]. split; reflexivity.
    + apply separated_snoc; [exact Hfs | discriminate].
    + apply endsSingle_snoc.
    + apply Forall_app. split; [exact Hp|]. constructor; [reflexivity | constructor].
    + apply Forall_app. split; [exact Hfw|]. constructor; [|constructor]. split; reflexivity.
    + apply separated_snoc; [exact Hfs | discriminate].
    + apply endsSingle_snoc.
Qed.

End GroupFacts.

(** X9.  [groupContentBlocks] loses and reorders nothing it displays:
    the blocks of the groups, read in order, are the header, paragraph
    and decklist blocks of the input in their order. *)
Theorem groupContentBlocks_flattens (contentBlocks : list block) :
  concat (map StrictDisplay.blocksOf (StrictDisplay.groupContentBlocks contentBlocks))
  = List.filter StrictDisplay.displayed contentBlocks.
Proof.
  unfold StrictDisplay.groupContentBlocks.
  pose proof (groupLoop_blocks contentBlocks [] []) as H.
  destruct (fold_left StrictDisplay.groupStep contentBlocks ([], []))
    as [groups currentGroup].
  rewrite blocksOf_flush, H. reflexivity.
Qed.

(** X10.  The groups of [groupContentBlocks]: a paragraph group is
    never empty and holds paragraphs only, every other entry is a header
    or a decklist, and no two paragraph groups follow one another, so
    consecutive paragraphs always share one group. *)
Theorem groupContentBlocks_groups (contentBlocks : list block) :
  Forall StrictDisplay.wellFormedGroup (StrictDisplay.groupContentBlocks contentBlocks)
  /\ StrictDisplay.separated (StrictDisplay.groupContentBlocks contentBlocks).
Proof.
  unfold StrictDisplay.groupContentBlocks.
  pose proof (groupLoop_wellFormed contentBlocks [] [] ltac:(constructor) I I
                ltac:(constructor)) as H.
  destruct (fold_left StrictDisplay.groupStep contentBlocks ([], []))
    as [groups currentGroup].
  destruct H as (Hw & Hs & He & Hp). apply flush_wellFormed; assumption.
Qed.

(** ** The legacy classifier *)

Section WhitespaceFacts.
Import Text LegacyClassifier.

Lemma trimStart_drop (s : jsstring) : exists k, trimStart s = drop k s.
Proof.
  induction s as [|c s [k IH]]; cbn [trimStart].
  - exists 0. reflexivity.
  - destruct (is_space c); [exists (S k); exact IH | exists 0; reflexivity].
Qed.

Lemma trimStart_head (s : jsstring) :
  match head (trimStart s) with Some c => is_space c = false | None => True end.
Proof.
  induction s as [|c s IH]; cbn [trimStart]; [exact I|].
  destruct (is_space c) eqn:E; [exact IH | exact E].
Qed.

Lemma last_rev (s : jsstring) : last (rev s) = head s.
Proof. destruct s as [|c s]; [reflexivity|]. cbn [rev head]. apply last_snoc. Qed.

Lemma trimEnd_take (s : jsstring) : exists k, trimEnd s = take k s.
Proof.
  unfold trimEnd. destruct (trimStart_drop (rev s)) as [k ->].
  exists (length s - k). rewrite skipn_rev, rev_involutive. reflexivity.
Qed.

Lemma trimEnd_last (s : jsstring) :
  match last (trimEnd s) with Some c => is_space c = false | None => True end.
Proof. unfold trimEnd. rewrite last_rev. apply trimStart_head. Qed.

Lemma noRepeat_tail (p : N -> bool) (c : N) (s : jsstring) :
  noRepeat p (c :: s) = true -> noRepeat p s = true.
Proof.
  destruct s as [|d s]; [reflexivity|]. cbn [noRepeat].
  rewrite andb_true_iff. tauto.
Qed.

Lemma noRepeat_drop (p : N -> bool) (k : nat) (s : jsstring) :
  noRepeat p s = true -> noRepeat p (drop k s) = true.
Proof.
  revert s; induction k as [|k IH]; intros s H; [exact H|].
  destruct s as [|c s]; [reflexivity|]. cbn [drop skipn].
  apply IH. eapply noRepeat_tail; exact H.
Qed.

Lemma noRepeat_take (p : N -> bool) (k : nat) (s : jsstring) :
  noRepeat p s = true -> noRepeat p (take k s) = true.
Proof.
  revert s; induction k as [|k IH]; intros s H; [reflexivity|].
  destruct s as [|c s]; [reflexivity|]. cbn [take firstn].
  pose proof (IH s (noRepeat_tail _ _ _ H)) as Ht.
  destruct s as [|d s]; [destruct k; reflexivity|].
  destruct k as [|k]; [reflexivity|].
  cbn [take firstn noRepeat] in *.
  apply andb_true_iff in H as [H _]. rewrite H. exact Ht.
Qed.

(** What replacing the runs of a class leaves: of the class only the
    replacement, and never two of the class side by side. *)
Lemma collapse_spec (p : N -> bool) (r : N) (inRun : bool) (s : jsstring) :
  let t := collapseFrom p r inRun s in
  Forall (fun c => p c = true -> c = r) t
  /\ noRepeat p t = true
  /\ (inRun = true ->
      match head t with Some c => p c = false | None => True end).
Proof.
  revert inRun; induction s as [|c s IH]; intros inRun; cbn [collapseFrom].
  - cbv zeta. cbn [head noRepeat]. auto.
  - destruct (p c) eqn:Ec.
    + destruct (IH true) as (Hf & Hs & Hh). specialize (Hh eq_refl).
      destruct inRun; cbv zeta.
      * auto.
      * split; [constructor; [reflexivity | exact Hf]|]. split; [|discriminate].
        destruct (collapseFrom p r true s) as [|d t]; [reflexivity|].
        change (noRepeat p (r :: d :: t))
          with (negb (p r && p d) && noRepeat p (d :: t)).
        cbn [head] in Hh. rewrite Hs, Hh, andb_false_r. reflexivity.
    + destruct (IH false) as (Hf & Hs & _). cbv zeta.
      split; [constructor; [congruence | exact Hf]|]. split; [|intros _; exact Ec].
      destruct (collapseFrom p r false s) as [|d t]; [reflexivity|].
      change (noRepeat p (c :: d :: t))
        with (negb (p c && p d) && noRepeat p (d :: t)).
      rewrite Hs, Ec. reflexivity.
Qed.

Lemma collapse_Forall (Q : N -> Prop) (p : N -> bool) (r : N) (inRun : bool)
    (s : jsstring) :
  Q r -> Forall Q s -> Forall Q (collapseFrom p r inRun s).
Proof.
  intros Hr H. revert inRun; induction H as [|c s Hc _ IH]; intros inRun;
    cbn [collapseFrom]; [constructor|].
  destruct (p c); [destruct inRun|]; try constructor; auto.
Qed.

Lemma collapse_none (p : N -> bool) (r : N) (inRun : bool) (s : jsstring) :
  Forall (fun c => p c = false) s -> collapseFrom p r inRun s = s.
Proof.
  intros H. revert inRun; induction H as [|c s Hc _ IH]; intros inRun;
    cbn [collapseFrom]; [reflexivity|].
  rewrite Hc, IH. reflexivity.
Qed.

Lemma normalizeWhitespace_normalized (s : jsstring) :
  normalized (normalizeWhitespace s).
Proof.
  unfold normalizeWhitespace, collapse.
  destruct (collapse_spec is_space 32 false s) as (Hf & Hs & _). cbv zeta in Hf, Hs.
  set (r := collapseFrom is_space 32 false s) in *.
  rewrite (collapse_none (N.eqb 10) 32 false r).
  2:{ eapply Forall_impl; [exact Hf|]. intros c Hc. cbv beta in Hc.
      destruct (N.eqb 10 c) eqn:E; [|reflexivity].
      apply N.eqb_eq in E. subst c. specialize (Hc eq_refl). discriminate. }
  unfold trim.
  destruct (trimStart_drop r) as [k Hk].
  destruct (trimEnd_take (trimStart r)) as [j Hj].
  pose proof (trimStart_head r) as Hhead.
  pose proof (trimEnd_last (trimStart r)) as Hlast.
  unfold normalized. rewrite Hj at 1 2 3. rewrite Hk at 1 2.
  split; [apply Forall_take, Forall_drop, Hf|].
  split; [apply noRepeat_take, noRepeat_drop, Hs|].
  split; [|exact Hlast].
  destruct j as [|j]; [exact I|].
  destruct (trimStart r) as [|c t]; [exact I|]. exact Hhead.
Qed.

End WhitespaceFacts.

(** X11.  The text [cleanTextContent] returns is normalized: its only
    white-space characters are single spaces between other characters,
    so it holds no tab, line break or no-break space, no two spaces in a
    row, and no space at either end. *)
Theorem cleanTextContent_normalized (element : node) :
  LegacyClassifier.normalized (LegacyClassifier.cleanTextContent element).
Proof. apply normalizeWhitespace_normalized. Qed.

Section ClassifierFacts.
Import Dom LegacyClassifier.
Variable offsetParent : node -> option node.
Variable referenceError : error.

Lemma legacy_headingLevel_range (tag : jsstring) (level : N) :
  headingLevel tag = Some level -> (1 <= level <= 6)%N.
Proof.
  unfold headingLevel. destruct tag as [|h [|d [|]]]; try discriminate.
  destruct (N.eqb h 72 && in_range 49 54 d) eqn:E; [|discriminate].
  intros H. apply Some_eq in H. subst level. apply andb_true_iff in E as [_ E].
  unfold in_range in E. apply andb_true_iff in E as [E1 E2].
  apply N.leb_le in E1, E2. lia.
Qed.

Lemma classifyCard_spec (element : node) (b : block) :
  classifyCard element = Some b -> legacyBlock b.
Proof.
  unfold classifyCard. destruct (isCardElement element); [|discriminate].
  destruct (extractCardNameFromElement element) as [[|c cardName]|]; try discriminate.
  intros H. apply Some_eq in H. subst b. cbn [legacyBlock]. discriminate.
Qed.

Lemma classifyList_spec (element : node) (b : block) :
  classifyList referenceError element = Return (Some b) -> legacyBlock b.
Proof.
  unfold classifyList, extractListItems.
  destruct (_ || _); cbn [bind]; [discriminate|].
  intros H. apply Return_inj in H. eapply classifyCard_spec; exact H.
Qed.

Lemma classify_spec (element : node) (b : block) :
  classifyAndExtractElement referenceError element = Return (Some b) -> legacyBlock b.
Proof.
  unfold classifyAndExtractElement.
  destruct (headingLevel (tagName element)) as [level|] eqn:El.
  - intros H. apply Return_inj, Some_eq in H. subst b. cbn [legacyBlock].
    split; [eapply legacy_headingLevel_range; exact El|].
    apply normalizeWhitespace_normalized.
  - destruct (_ || _); [|apply classifyList_spec].
    destruct (MIN_PARAGRAPH_LENGTH <=? length (cleanTextContent element)) eqn:E;
      [|apply classifyList_spec].
    intros H. apply Return_inj, Some_eq in H. subst b. cbn [legacyBlock].
    split; [apply Nat.leb_le; exact E | apply normalizeWhitespace_normalized].
Qed.

Lemma classify_list_throws (element : node) :
  tagName element = js "UL" \/ tagName element = js "OL" ->
  classifyAndExtractElement referenceError element = Throw referenceError.
Proof.
  intros Htag. unfold classifyAndExtractElement, isParagraphLike, classifyList,
    extractListItems.
  destruct Htag as [-> | ->].
  - replace (headingLevel (js "UL")) with (@None N) by (vm_compute; reflexivity).
    replace (jsstring_eqb (js "UL") (js "P")) with false by (vm_compute; reflexivity).
    replace (existsb (jsstring_eqb (js "UL")) (map js ["DIV"; "SECTION"; "ARTICLE"; "MAIN"]%string))
      with false by (vm_compute; reflexivity).
    rewrite (jsstring_eqb_refl (js "UL")). reflexivity.
  - replace (headingLevel (js "OL")) with (@None N) by (vm_compute; reflexivity).
    replace (jsstring_eqb (js "OL") (js "P")) with false by (vm_compute; reflexivity).
    replace (existsb (jsstring_eqb (js "OL")) (map js ["DIV"; "SECTION"; "ARTICLE"; "MAIN"]%string))
      with false by (vm_compute; reflexivity).
    rewrite (jsstring_eqb_refl (js "OL")), orb_true_r. reflexivity.
Qed.

End ClassifierFacts.

Section LegacyLoopFacts.
Import Dom.
Variable shouldSkipElement : node -> bool.
Variable classifyAndExtractElement : node -> result (option block).
Variable isContentContainer : node -> bool.
Variable isCardElement : node -> bool.


(** When every element is skipped, no block is added. *)
Lemma extractContentBlocks_all_skipped (contentElement : node) (blocks : list block) :
  (forall element, shouldSkipElement element = true) ->
  LegacyGuide.extractContentBlocks shouldSkipElement classifyAndExtractElement
    isContentContainer isCardElement contentElement blocks = Return blocks.
Proof.
  intros Hskip. destruct contentElement as [d|tag attrs cs];
    cbn [LegacyGuide.extractContentBlocks]; [reflexivity|].
  induction cs as [|element rest IH]; [reflexivity|].
  destruct (negb (isElement element)); [exact IH|].
  rewrite Hskip. exact IH.
Qed.

End LegacyLoopFacts.

(** X12.  A block that the legacy [classifyAndExtractElement] returns
    is a header of level 1 to 6 with normalized text, a paragraph of at
    least [MIN_PARAGRAPH_LENGTH] characters of normalized text, or an
    individual card with a non-empty name; it is never a card list. *)
Theorem classifyAndExtractElement_blocks (referenceError : error)
    (element : node) (b : block) :
  LegacyClassifier.classifyAndExtractElement referenceError element = Return (Some b) ->
  LegacyClassifier.legacyBlock b.
Proof. apply classify_spec. Qed.

Lemma classifyAndExtractElement_blocks_witness :
  LegacyClassifier.legacyBlock (header 2 (js "The Deck")).
Proof.
  apply (classifyAndExtractElement_blocks JsError
           (Element (js "H2") [] [Text (js "  The   Deck ")])).
  vm_compute. reflexivity.
Defined.

(** X13.  The legacy classifier throws on every [UL] and [OL]
    element: [extractListItems] reads an identifier that is declared
    nowhere, so the engine's error comes before any list item is read. *)
Theorem classifyAndExtractElement_list_throws (referenceError : error)
    (element : node) :
  Dom.tagName element = js "UL" \/ Dom.tagName element = js "OL" ->
  LegacyClassifier.classifyAndExtractElement referenceError element
  = Throw referenceError.
Proof. apply classify_list_throws. Qed.

Lemma classifyAndExtractElement_list_throws_witness :
  LegacyClassifier.classifyAndExtractElement JsError Samples.landsList = Throw JsError.
Proof.
  apply (classifyAndExtractElement_list_throws JsError Samples.landsList).
  left. reflexivity.
Defined.



(** X15.  In a document without layout, where no element has an
    [offsetParent], the legacy extractor skips every element, finds no
    content block, and so always answers with the sample guide. *)
Theorem legacy_unrendered_gives_sample (offsetParent : node -> option node)
    (referenceError : error) (parseFromString : jsstring -> node)
    (fetch : jsstring -> fetched) (url : jsstring) :
  (forall element, offsetParent element = None) ->
  LegacyClassifier.extractUpgradeGuide offsetParent referenceError
    parseFromString fetch url
  = Return LegacyGuide.getSampleUpgradeGuide.
Proof.
  intros Hnone.
  unfold LegacyClassifier.extractUpgradeGuide, LegacyGuide.extractUpgradeGuide,
    LegacyGuide.tryExtract.
  destruct (LegacyGuide.fetchWithProxies fetch url) as [html|e]; [|reflexivity].
  cbn [bind]. destruct html as [|c html]; [reflexivity|].
  unfold LegacyGuide.parseUpgradeGuideContent.
  destruct (LegacyGuide.findMainContentElement _) as [contentElement|]; [|reflexivity].
  rewrite extractContentBlocks_all_skipped.
  2:{ intros element. unfold LegacyClassifier.shouldSkipElement.
      rewrite Hnone. reflexivity. }
  cbn [bind contentBlocks]. reflexivity.
Qed.

Lemma legacy_unrendered_gives_sample_witness :
  LegacyClassifier.extractUpgradeGuide GuideSamples.notRendered JsError
    (fun _ => GuideSamples.listPage) Samples.servesEmptyPage Samples.guideUrl
  = Return LegacyGuide.getSampleUpgradeGuide.
Proof.
  apply (legacy_unrendered_gives_sample GuideSamples.notRendered JsError
           (fun _ => GuideSamples.listPage) Samples.servesEmptyPage Samples.guideUrl).
  intros element. reflexivity.
Defined.

(** ** Card lists: what [parseCardList] builds *)

Section ImportFacts.
Import ExportManager CardList.

Lemma trimStart_nil (s : jsstring) :
  trimStart s = [] -> Forall (fun c => is_space c = true) s.
Proof.
  induction s as [|c s IH]; cbn [trimStart]; [constructor|].
  destruct (is_space c) eqn:E; [|discriminate]. intros H. constructor; auto.
Qed.

Lemma trim_nil (s : jsstring) :
  trim s = [] -> Forall (fun c => is_space c = true) s.
Proof.
  unfold trim, trimEnd. intros H.
  assert (Hr : trimStart (rev (trimStart s)) = []).
  { destruct (trimStart (rev (trimStart s))) as [|c t]; [reflexivity|].
    cbn [rev] in H. apply app_eq_nil in H as [_ H]. discriminate. }
  apply trimStart_nil in Hr.
  apply trimStart_nil.
  pose proof (trimStart_head s) as Hh.
  destruct (trimStart s) as [|c t]; [reflexivity|]. cbn [head] in Hh.
  exfalso. apply Forall_forall with (x := c) in Hr; [congruence|].
  apply list_elem_of_In, in_rev. rewrite rev_involutive. left. reflexivity.
Qed.

(** A string with a character that is not white space is not trimmed
    away. *)
Lemma trim_inked (s : jsstring) (c : N) :
  In c s -> is_space c = false -> trim s <> [].
Proof.
  intros Hin Hc H. apply trim_nil in H.
  apply Forall_forall with (x := c) in H; [congruence|].
  apply list_elem_of_In. exact Hin.
Qed.

Lemma head_In {A : Type} (l : list A) (x : A) : head l = Some x -> In x l.
Proof. destruct l; [discriminate|]. intros [= ->]. left. reflexivity. Qed.

Lemma last_In {A : Type} (l : list A) (x : A) : last l = Some x -> In x l.
Proof.
  intros H. apply last_Some in H as [l' ->].
  apply in_or_app. right. left. reflexivity.
Qed.

Lemma inkEnd_trim (s : jsstring) : inkEnd s -> s <> [] -> trim s <> [].
Proof.
  intros [H | (c & Hc & Hs)] Hne; [congruence|].
  eapply trim_inked; [apply last_In; exact Hc | exact Hs].
Qed.

Lemma inkStart_trim (s : jsstring) : inkStart s -> s <> [] -> trim s <> [].
Proof.
  intros [H | (c & Hc & Hs)] Hne; [congruence|].
  eapply trim_inked; [apply head_In; exact Hc | exact Hs].
Qed.

Lemma trim_inkEnd (s : jsstring) : inkEnd (trim s).
Proof.
  pose proof (trimEnd_last (trimStart s)) as H. fold (trim s) in H.
  destruct (last (trim s)) as [c|] eqn:E.
  - right. exists c. auto.
  - left. apply last_None. exact E.
Qed.

Lemma last_drop_some {A : Type} (k : nat) (l : list A) :
  drop k l <> [] -> last (drop k l) = last l.
Proof.
  revert l; induction k as [|k IH]; intros l H; [reflexivity|].
  destruct l as [|x l]; [reflexivity|]. cbn [drop skipn] in *.
  rewrite (IH l H). destruct l as [|y l]; [|reflexivity].
  exfalso. apply H. destruct k; reflexivity.
Qed.

Lemma stripQuantity_drop (s rest : jsstring) :
  stripQuantity s = Some rest -> exists k, rest = drop k s.
Proof.
  unfold stripQuantity. destruct (span is_digit s) as [digits r] eqn:E.
  destruct (span_spec _ _ _ _ E) as (-> & _ & _).
  destruct digits as [|d digits]; [discriminate|].
  destruct r as [|x [|sp r]]; try discriminate.
  destruct (N.eqb x 120 && is_space sp); [|discriminate].
  intros H. apply Some_eq in H. subst rest.
  exists (length (d :: digits) + 2).
  rewrite drop_app_add. reflexivity.
Qed.

Lemma stripQuantity_inkEnd (s : jsstring) :
  inkEnd s ->
  inkEnd (match stripQuantity s with Some rest => rest | None => s end).
Proof.
  intros Hs. destruct (stripQuantity s) as [rest|] eqn:E; [|exact Hs].
  destruct (stripQuantity_drop _ _ E) as [k ->].
  destruct (drop k s) as [|c t] eqn:Ed; [left; reflexivity|].
  assert (Hne : drop k s <> []) by (rewrite Ed; discriminate).
  pose proof (last_drop_some k s Hne) as Hl. rewrite Ed in Hl.
  destruct Hs as [-> | (x & Hx & Hsp)].
  - rewrite drop_nil in Ed. discriminate.
  - right. exists x. rewrite Hl. auto.
Qed.

Lemma span_head (p : N -> bool) (s : jsstring) :
  fst (span p s) = [] \/ head (fst (span p s)) = head s.
Proof.
  destruct s as [|c s]; [left; reflexivity|]. cbn [span].
  destruct (p c); [|left; reflexivity].
  destruct (span p s). right. reflexivity.
Qed.

Lemma bracketMatch_inkStart (s inside rest : jsstring) :
  bracketMatch s = Some (inside, rest) -> inkStart rest.
Proof.
  induction s as [|x s IH]; cbn [bracketMatch]; [discriminate|].
  destruct (if N.eqb x 91 then upTo 93 s else None) as [[i r]|]; [|exact IH].
  intros H. apply Some_eq in H. injection H as _ H. subst rest.
  destruct (span_head (fun c => negb (is_line_terminator c)) (trimStart r)) as [E|E].
  - left. exact E.
  - pose proof (trimStart_head r) as Hh.
    destruct (head (trimStart r)) as [c|] eqn:Ec.
    + right. exists c. auto.
    + left. destruct (fst _); [reflexivity | discriminate].
Qed.

Lemma parseLine_imported (line : jsstring) (cards : list imported)
    (currentSection : jsstring) :
  Forall importedLine cards ->
  Forall importedLine (fst (parseLine line (cards, currentSection))).
Proof.
  intros Hcards. unfold parseLine.
  destruct (_ || _ || _); [exact Hcards|].
  destruct (_ && _); [exact Hcards|].
  set (trimmedLine := trim line).
  set (p0 := if includes trimmedLine (js "-") then _ else _).
  assert (H0 : inkEnd (fst p0)).
  { unfold p0. destruct (includes trimmedLine (js "-")); [|apply trim_inkEnd].
    destruct (2 <=? _); apply trim_inkEnd. }
  destruct p0 as [c0 i0]. cbn [fst] in H0.
  pose proof (stripQuantity_inkEnd c0 H0) as H1.
  set (c1 := match stripQuantity c0 with Some rest => rest | None => c0 end) in *.
  destruct (bracketMatch c1) as [[inside r]|] eqn:Eb.
  - pose proof (bracketMatch_inkStart _ _ _ Eb) as Hr.
    destruct r as [|x r]; [exact Hcards|]. cbn [fst].
    apply Forall_app. split; [exact Hcards|]. constructor; [|constructor].
    split; cbn [imported_name imported_inclusion].
    + apply inkStart_trim; [exact Hr | discriminate].
    + destruct inside; discriminate.
  - destruct c1 as [|x c1'] eqn:Ec; [exact Hcards|]. cbn [fst].
    apply Forall_app. split; [exact Hcards|]. constructor; [|constructor].
    split; cbn [imported_name imported_inclusion].
    + apply inkEnd_trim; [exact H1 | discriminate].
    + destruct i0; discriminate.
Qed.

Lemma parseLines_imported (lines : list jsstring) (st : list imported * jsstring) :
  Forall importedLine (fst st) ->
  Forall importedLine
    (fst (fold_left (fun st line => parseLine line st) lines st)).
Proof.
  revert st; induction lines as [|line lines IH]; intros [cards sec] H;
    cbn [fold_left]; [exact H|].
  apply IH. apply parseLine_imported. exact H.
Qed.

Lemma Forall_assign {V : Type} (P : jsstring * V -> Prop) (k : jsstring) (v : V)
    (o : JsObject.object V) :
  P (k, v) -> Forall P o -> Forall P (JsObject.assign k v o).
Proof.
  intros Hk Ho. induction Ho as [|[k' v'] o Hx Ho IH]; cbn [JsObject.assign].
  - constructor; [exact Hk | constructor].
  - destruct (jsstring_eqb k' k) eqn:E.
    + apply jsstring_eqb_eq in E. subst k'. constructor; assumption.
    + constructor; assumption.
Qed.

Lemma Forall_set {V : Type} (P : jsstring * V -> Prop) (k : jsstring) (v : V)
    (o : JsObject.object V) :
  P (k, v) -> Forall P o -> Forall P (JsObject.set k v o).
Proof.
  intros Hk Ho. unfold JsObject.set.
  destruct (jsstring_eqb k _); [exact Ho | apply Forall_assign; assumption].
Qed.

Lemma addImported_sections (c : imported)
    (sections sections' : JsObject.object section_value) :
  importedLine c -> Forall importedSection sections ->
  addImported c sections = Return sections' ->
  Forall importedSection sections'.
Proof.
  intros [Hn Hi] Hs. unfold addImported.
  assert (Hentry : importedCard (Card (imported_name c) (imported_inclusion c))).
  { split; assumption. }
  destruct (JsObject.get (imported_section c) sections) as [[cards|[|x s]]|] eqn:Eg.
  - intros H. apply Return_inj in H. subst sections'.
    apply Forall_set; [|exact Hs].
    apply get_Some_In in Eg.
    apply Forall_forall with (x := (imported_section c, Cards cards)) in Hs;
      [|apply list_elem_of_In; exact Eg].
    destruct Hs as (cards0 & E0 & Hne & Hall). cbn [snd] in E0.
    injection E0 as <-.
    exists (cards ++ [Card (imported_name c) (imported_inclusion c)]).
    split; [reflexivity|]. split.
    + intros H. apply app_eq_nil in H as [_ H]. discriminate.
    + apply Forall_app. split; [exact Hall|]. constructor; [exact Hentry | constructor].
  - intros H. apply Return_inj in H. subst sections'.
    apply Forall_set; [|exact Hs].
    eexists. split; [reflexivity|]. split; [discriminate|].
    constructor; [exact Hentry | constructor].
  - discriminate.
  - destruct (JsObject.isInherited _); [discriminate|].
    intros H. apply Return_inj in H. subst sections'.
    apply Forall_set; [|exact Hs].
    eexists. split; [reflexivity|]. split; [discriminate|].
    constructor; [exact Hentry | constructor].
Qed.

Lemma addImported_throws (c : imported) (sections : JsObject.object section_value)
    (e : error) :
  addImported c sections = Throw e -> e = JsTypeError.
Proof.
  unfold addImported.
  destruct (JsObject.get _ _) as [[cards|[|x s]]|]; try discriminate.
  - congruence.
  - destruct (JsObject.isInherited _); [congruence | discriminate].
Qed.

Lemma groupImported_sections (cards : list imported)
    (sections : JsObject.object section_value) :
  Forall importedLine cards -> Forall importedSection sections ->
  match forEach addImported cards sections with
  | Return sections' => Forall importedSection sections'
  | Throw e => e = JsTypeError
  end.
Proof.
  intros Hc. revert sections; induction Hc as [|c cards Hc _ IH]; intros sections Hs;
    cbn [forEach]; [exact Hs|].
  destruct (addImported c sections) as [s1|e] eqn:E; cbn [bind].
  - apply IH. eapply addImported_sections; eauto.
  - eapply addImported_throws; exact E.
Qed.

Lemma parseCardList_cases (textContent : jsstring) :
  match parseCardList textContent with
  | Return sections => Forall importedSection sections
  | Throw e => e = JsTypeError
  end.
Proof.
  unfold parseCardList.
  pose proof (parseLines_imported (split 10 textContent) ([], js "Imported Cards")
                ltac:(constructor)) as H.
  destruct (fold_left _ _ _) as [cards sec]. cbn [fst] in H.
  apply groupImported_sections; [exact H | constructor].
Qed.

End ImportFacts.

(** X16.  What [parseCardList] returns has no empty section and no
    blank card: every value is a non-empty array of cards, each with a
    name that holds more than white space and a non-empty inclusion.
    When it throws instead, it throws a [TypeError]. *)
Theorem parseCardList_sections (textContent : jsstring) :
  match ExportManager.parseCardList textContent with
  | Return sections => Forall CardList.importedSection sections
  | Throw e => e = JsTypeError
  end.
Proof. apply parseCardList_cases. Qed.

Section ValidateFacts.
Import ExportManager CardList.

Lemma validateCards_imported (section : jsstring) (index : nat) (cards : list card)
    (errors warnings : list jsstring) :
  Forall importedCard cards ->
  fst (validateCards section index cards (errors, warnings)) = errors.
Proof.
  intros H. revert index warnings; induction H as [|c cards [Hn _] _ IH];
    intros index warnings; cbn [validateCards]; [reflexivity|].
  unfold validateCard.
  assert (E : (match name c with [] => true | _ => false end
               || (length (trim (name c)) =? 0)) = false).
  { destruct (name c) as [|x n] eqn:En; [contradiction Hn; reflexivity|].
    destruct (trim (x :: n)); [contradiction Hn; reflexivity | reflexivity]. }
  rewrite E. apply IH.
Qed.

Lemma validateSections_imported (entries : list (jsstring * section_value))
    (totalCards : nat) (errors warnings : list jsstring) :
  Forall importedSection entries ->
  exists totalCards' warnings',
    forEach validateSection entries (totalCards, errors, warnings)
    = Return (totalCards', errors, warnings')
    /\ totalCards + length entries <= totalCards'.
Proof.
  intros H. revert totalCards warnings;
    induction H as [|[k v] entries (cards & Ev & Hne & Hcards) _ IH];
    intros totalCards warnings; cbn [forEach].
  - exists totalCards, warnings. split; [reflexivity | cbn [length]; lia].
  - cbn [snd] in Ev. subst v. unfold validateSection at 1. cbn [snd fst].
    pose proof (validateCards_imported k 0 cards errors
                  (if length cards =? 0
                   then warnings ++ [js "Section " ++ [34%N] ++ k ++ [34%N] ++ js " is empty"]
                   else warnings) Hcards) as Hv.
    destruct (validateCards k 0 cards _) as [errors1 warnings1].
    cbn [fst] in Hv. subst errors1. cbn [bind].
    destruct (IH (totalCards + length cards) warnings1) as (t' & w' & -> & Hle).
    exists t', w'. split; [reflexivity|].
    destruct cards; [contradiction Hne; reflexivity|]. cbn [length] in *. lia.
Qed.

Lemma validate_imported (sections : JsObject.object section_value) :
  Forall importedSection sections ->
  exists warnings,
    validateCardList sections
    = Return (match sections with
              | [] => Validation false [js "No card data found"] []
              | _ => Validation true [] warnings
              end).
Proof.
  intros H. destruct sections as [|entry rest]; [exists []; reflexivity|].
  unfold validateCardList. cbn beta iota.
  assert (He : Forall importedSection (JsObject.entries (entry :: rest))).
  { rewrite (entries_perm (entry :: rest)). exact H. }
  destruct (validateSections_imported _ 0 [] [] He) as (t & w & Ht & Hle).
  assert (Hlen : length (JsObject.entries (entry :: rest)) = length (entry :: rest)).
  { apply Permutation_length, entries_perm. }
  rewrite Hlen in Hle. cbn [length] in Hle. rewrite Ht. cbn [bind].
  destruct t as [|t]; [lia|]. cbn [Nat.eqb].
  eexists. reflexivity.
Qed.

End ValidateFacts.

(** X17.  A list that [parseCardList] returns always passes
    [validateCardList] unless it is empty: validation does not throw,
    reports no error for a non-empty result, and reports exactly
    [No card data found] for the empty one. *)
Theorem parsed_list_validates (textContent : jsstring)
    (sections : JsObject.object section_value) :
  ExportManager.parseCardList textContent = Return sections ->
  exists warnings,
    CardList.validateCardList sections
    = Return (match sections with
              | [] => CardList.Validation false [js "No card data found"] []
              | _ => CardList.Validation true [] warnings
              end).
Proof.
  intros H. apply validate_imported.
  pose proof (parseCardList_cases textContent) as Hc. rewrite H in Hc. exact Hc.
Qed.

Lemma parsed_list_validates_witness :
  exists warnings,
    CardList.validateCardList
      [ (js "Imported Cards", Cards [Card (js "Sol Ring") (js "68%")]) ]
    = Return (CardList.Validation true [] warnings).
Proof.
  apply (parsed_list_validates (js "Sol Ring - 68%")
           [ (js "Imported Cards", Cards [Card (js "Sol Ring") (js "68%")]) ]).
  vm_compute. reflexivity.
Defined.

Section CountFacts.
Import ExportManager CardList.

Lemma count_fold (l : list (jsstring * section_value)) (acc : nat) :
  fold_left (fun sum section =>
               sum + match snd section with
                     | Cards cards => length cards
                     | Str s => length s
                     end) l acc
  = acc + total l.
Proof.
  revert acc; induction l as [|kv l IH]; intros acc; cbn [fold_left].
  - unfold total. simpl. lia.
  - rewrite IH. unfold total. destruct kv as [k [cards|s]]; simpl; lia.
Qed.

Lemma total_perm (a b : JsObject.object section_value) :
  Permutation a b -> total a = total b.
Proof.
  unfold total. induction 1; simpl; lia.
Qed.

Lemma keys_assign (k x : jsstring) (v : section_value)
    (o : JsObject.object section_value) :
  In x (map fst (JsObject.assign k v o)) -> x = k \/ In x (map fst o).
Proof.
  induction o as [|[k' v'] o IH]; cbn [JsObject.assign map fst In].
  - intros [H | []]. left. congruence.
  - destruct (jsstring_eqb k' k) eqn:E; cbn [map fst In]; [tauto|].
    intros [H | H]; [tauto|]. destruct (IH H); tauto.
Qed.

Lemma total_assign (k : jsstring) (v : section_value)
    (o : JsObject.object section_value) :
  total (JsObject.assign k v o)
  + match JsObject.get k o with Some old => size old | None => 0 end
  = total o + size v.
Proof.
  unfold total, JsObject.get.
  induction o as [|[k' v'] o IH]; simpl.
  - lia.
  - destruct (jsstring_eqb k' k); simpl; lia.
Qed.

Lemma addImported_total (c : imported)
    (sections sections' : JsObject.object section_value) :
  noProto sections -> addImported c sections = Return sections' ->
  noProto sections' /\ total sections' = S (total sections).
Proof.
  intros Hp. unfold addImported.
  set (k := imported_section c). set (entry := Card _ _).
  assert (Hset : forall v,
            k <> js "__proto__" ->
            noProto (JsObject.set k v sections)
            /\ total (JsObject.set k v sections)
               + match JsObject.get k sections with
                 | Some old => size old
                 | None => 0
                 end
               = total sections + size v).
  { intros v Hk. unfold JsObject.set.
    destruct (jsstring_eqb k (js "__proto__")) eqn:E;
      [apply jsstring_eqb_eq in E; contradiction|].
    split; [|apply total_assign].
    intros Hin. apply keys_assign in Hin as [Hin | Hin]; [congruence | exact (Hp Hin)]. }
  destruct (JsObject.get k sections) as [[cards|[|x s]]|] eqn:Eg.
  - intros H. apply Return_inj in H. subst sections'.
    assert (Hk : k <> js "__proto__").
    { intros Hk. apply get_Some_In in Eg. apply Hp.
      rewrite <- Hk. apply (in_map fst) in Eg. exact Eg. }
    destruct (Hset (Cards (cards ++ [entry])) Hk) as [Hn Ht]. split; [exact Hn|].
    cbn [size] in Ht. rewrite length_app in Ht. cbn [length] in Ht. lia.
  - intros H. apply Return_inj in H. subst sections'.
    assert (Hk : k <> js "__proto__").
    { intros Hk. apply get_Some_In in Eg. apply Hp.
      rewrite <- Hk. apply (in_map fst) in Eg. exact Eg. }
    destruct (Hset (Cards [entry]) Hk) as [Hn Ht]. split; [exact Hn|].
    cbn [size length] in Ht. lia.
  - discriminate.
  - destruct (JsObject.isInherited k) eqn:Ei; [discriminate|].
    intros H. apply Return_inj in H. subst sections'.
    assert (Hk : k <> js "__proto__").
    { intros Hk. rewrite Hk in Ei. vm_compute in Ei. discriminate. }
    destruct (Hset (Cards [entry]) Hk) as [Hn Ht]. split; [exact Hn|].
    cbn [size length] in Ht. lia.
Qed.

Lemma groupImported_total (cards : list imported)
    (sections sections' : JsObject.object section_value) :
  noProto sections -> forEach addImported cards sections = Return sections' ->
  total sections' = total sections + length cards.
Proof.
  revert sections; induction cards as [|c cards IH]; intros sections Hp;
    cbn [forEach length].
  - intros H. apply Return_inj in H. subst. lia.
  - destruct (addImported c sections) as [s1|e] eqn:E; cbn [bind]; [|discriminate].
    destruct (addImported_total _ _ _ Hp E) as [Hp1 Ht]. intros H.
    rewrite (IH _ Hp1 H). lia.
Qed.

Lemma parseLine_length (line : jsstring) (st : list imported * jsstring) :
  length (fst st) <= length (fst (parseLine line st))
  /\ length (fst (parseLine line st)) <= S (length (fst st)).
Proof.
  destruct st as [cards sec]. unfold parseLine.
  destruct (_ || _ || _); [cbn [fst]; lia|].
  destruct (_ && _); [cbn [fst]; lia|].
  destruct (if includes _ _ then _ else _) as [c0 i0].
  destruct (bracketMatch _) as [[inside r]|].
  - destruct r; cbn [fst]; rewrite ?length_app; cbn [length]; lia.
  - destruct (match stripQuantity c0 with Some rest => rest | None => c0 end);
      cbn [fst]; rewrite ?length_app; cbn [length]; lia.
Qed.

Lemma parseLines_length (lines : list jsstring) (st : list imported * jsstring) :
  length (fst (fold_left (fun st line => parseLine line st) lines st))
  <= length (fst st) + length lines.
Proof.
  revert st; induction lines as [|line lines IH]; intros st; cbn [fold_left length].
  - lia.
  - pose proof (IH (parseLine line st)). pose proof (parseLine_length line st). lia.
Qed.

End CountFacts.

(** X18.  After an upload, [countTotalCards] is the number of card
    lines read: grouping the cards into sections neither loses nor
    repeats one, and the count is at most the number of lines of the
    text. *)
Theorem parsed_list_count (textContent : jsstring)
    (sections : JsObject.object section_value) :
  ExportManager.parseCardList textContent = Return sections ->
  CardList.countTotalCards (Some sections)
  = length (CardList.importedCards textContent)
  /\ length (CardList.importedCards textContent)
     <= length (ExportManager.split 10 textContent).
Proof.
  unfold ExportManager.parseCardList, CardList.importedCards, CardList.countTotalCards.
  pose proof (parseLines_length (ExportManager.split 10 textContent)
                ([], js "Imported Cards")) as Hlen.
  destruct (fold_left _ _ _) as [cards sec]. cbn [fst length] in *.
  intros H. split; [|lia].
  rewrite count_fold, (total_perm _ _ (entries_perm sections)).
  rewrite (groupImported_total cards [] sections); [reflexivity | | exact H].
  intros [].
Qed.

Lemma parsed_list_count_witness :
  CardList.countTotalCards
    (Some [ (js "Imported Cards", Cards [Card (js "Sol Ring") (js "68%")]) ])
  = length (CardList.importedCards (js "Sol Ring - 68%"))
  /\ length (CardList.importedCards (js "Sol Ring - 68%"))
     <= length (ExportManager.split 10 (js "Sol Ring - 68%")).
Proof.
  apply (parsed_list_count (js "Sol Ring - 68%")
           [ (js "Imported Cards", Cards [Card (js "Sol Ring") (js "68%")]) ]).
  vm_compute. reflexivity.
Defined.

Section ExportFacts.
Import ExportManager.
Variable bullet : jsstring.
Variable today : jsstring.

Lemma exportLines_throws (entries : list (jsstring * section_value))
    (lines : list jsstring) (e : error) :
  forEach (fun entry lines =>
             let? ls := sectionLines bullet entry in Return (lines ++ ls))
          entries lines = Throw e
  <-> e = JsTypeError /\ exists k s, In (k, Str s) entries.
Proof.
  revert lines; induction entries as [|[k v] entries IH]; intros lines; cbn [forEach].
  - split; [discriminate|]. intros (_ & k & s & []).
  - destruct v as [cards|s]; cbn [sectionLines bind].
    + rewrite IH. split.
      * intros (-> & k' & s' & Hin). split; [reflexivity|]. exists k', s'. right. exact Hin.
      * intros (-> & k' & s' & [Hin|Hin]); [discriminate|].
        split; [reflexivity|]. exists k', s'. exact Hin.
    + split.
      * intros H. split; [congruence|]. exists k, s. left. reflexivity.
      * intros (-> & _). reflexivity.
Qed.

End ExportFacts.

(** X19.  [exportToText] throws exactly when the card data holds a
    string among its values, such as the [_deckCount] entry that
    [parseHTML] adds, and what it throws is a [TypeError]; on any other
    data it returns the text. *)
Theorem exportToText_throws (bullet today : jsstring)
    (cardData : JsObject.object section_value) (e : error) :
  ExportManager.exportToText bullet today cardData = Throw e
  <-> e = JsTypeError /\ exists k s, In (k, Str s) cardData.
Proof.
  unfold ExportManager.exportToText.
  pose proof (exportLines_throws bullet (JsObject.entries cardData)
                [ js "EDHREC Card List"; js "Generated on: " ++ today ++ [10%N] ] e) as H.
  destruct (forEach _ (JsObject.entries cardData) _) as [lines|e'] eqn:E; cbn [bind].
  - split; [discriminate|]. intros (He & k & s & Hin).
    assert (Hbad : Return lines = Throw e :> result (list jsstring)).
    { apply H. split; [exact He|]. exists k, s.
      eapply Permutation_in; [symmetry; apply entries_perm | exact Hin]. }
    discriminate.
  - split.
    + intros Heq. assert (e' = e) by congruence. subst e'.
      destruct (proj1 H eq_refl) as (He & k & s & Hin).
      split; [exact He|]. exists k, s.
      eapply Permutation_in; [apply entries_perm | exact Hin].
    + intros (He & k & s & Hin).
      assert (Ht : Throw e' = Throw e :> result (list jsstring)).
      { apply H. split; [exact He|]. exists k, s.
        eapply Permutation_in; [symmetry; apply entries_perm | exact Hin]. }
      congruence.
Qed.

(** ** The commander statistics, continued *)

Section StatsShape.
Import Dom Commander Stats.

Lemma existsb_name (cardName : jsstring) (cards : list card) :
  existsb (fun c => jsstring_eqb (name c) cardName) cards = false ->
  ~ In cardName (map name cards).
Proof.
  induction cards as [|c cards IH]; cbn [existsb map In]; [tauto|].
  rewrite orb_false_iff. intros [Hc Hcards] [H | H].
  - rewrite H, jsstring_eqb_refl in Hc. discriminate.
  - exact (IH Hcards H).
Qed.

Lemma statSection_cards (deckCount : option jsstring) (k : jsstring)
    (cards : list card) (c : card) :
  statCard c -> ~ In (name c) (map name cards) ->
  statSection deckCount (k, Cards cards) \/ cards = [] ->
  statSection deckCount (k, Cards (cards ++ [c])).
Proof.
  intros Hc Hnew Hcards. unfold statSection. cbn [snd].
  split; [intros H; apply app_eq_nil in H as [_ H]; discriminate|].
  destruct Hcards as [(_ & Hn & Hall) | ->].
  - split.
    + rewrite map_app. apply NoDup_app. split; [exact Hn|]. split.
      * intros x Hx Hx'. apply list_elem_of_singleton in Hx'. subst x.
        apply Hnew. apply list_elem_of_In. exact Hx.
      * apply NoDup_singleton.
    + apply Forall_app. split; [exact Hall|]. constructor; [exact Hc | constructor].
  - split; [apply NoDup_singleton|]. constructor; [exact Hc | constructor].
Qed.

Lemma statSection_deckCount (deckCount : option jsstring)
    (entry : jsstring * section_value) :
  statSection None entry -> statSection deckCount entry.
Proof.
  unfold statSection. destruct (snd entry); [tauto|]. intros (_ & H & _). discriminate.
Qed.

Lemma sortSections_stats (deckCount : option jsstring)
    (sections : JsObject.object section_value) :
  Forall (statSection deckCount) sections ->
  Forall (statSection deckCount) (sortSections sections).
Proof.
  unfold sortSections. intros H. apply Forall_map.
  eapply Forall_impl; [exact H|]. intros [k [cards|s]]; unfold statSection; cbn [snd fst];
    [|tauto].
  intros (Hne & Hn & Hall).
  pose proof (sort_perm before cards) as Hperm. split; [|split].
  - intros E. rewrite E in Hperm. apply Permutation_nil in Hperm. congruence.
  - rewrite (Permutation_map name Hperm). exact Hn.
  - eapply Permutation_Forall; [symmetry; exact Hperm | exact Hall].
Qed.

End StatsShape.

Section StatsFacts.
Import Dom Commander Stats.
Variable toLowerCase : jsstring -> jsstring.
Variable toUpperCase : jsstring -> jsstring.

Lemma addContainer_stats (container : located)
    (sections sections' : JsObject.object section_value) :
  Forall (statSection None) sections ->
  addContainer toLowerCase toUpperCase container sections = Return sections' ->
  Forall (statSection None) sections'.
Proof.
  intros Hs. unfold addContainer.
  destruct (querySelector _ (here container)) as [nameElement|];
    [|intros H; apply Return_inj in H; subst; exact Hs].
  set (cardName := trim (textContent nameElement)).
  destruct (length cardName <? 2) eqn:El;
    [intros H; apply Return_inj in H; subst; exact Hs|].
  apply Nat.ltb_ge in El.
  set (inclusionText := inclusionOf toLowerCase (here container)).
  set (sectionName := sectionNameOf toUpperCase container).
  destruct (negb (includes inclusionText (js "$")) && includes inclusionText (js "%"))
    eqn:Ei; [|intros H; apply Return_inj in H; subst; exact Hs].
  apply andb_true_iff in Ei as [Hd Hp]. apply negb_true_iff in Hd.
  assert (Hc : statCard (Card cardName inclusionText)) by (repeat split; assumption).
  destruct (JsObject.get sectionName sections) as [[cards|[|x s]]|] eqn:Eg.
  - destruct (existsb _ cards) eqn:Ee;
      intros H; apply Return_inj in H; subst sections'; [exact Hs|].
    apply Forall_set; [|exact Hs].
    apply statSection_cards; [exact Hc | apply existsb_name; exact Ee |].
    left. apply get_Some_In in Eg.
    eapply Forall_forall in Hs; [exact Hs | apply list_elem_of_In; exact Eg].
  - apply get_Some_In in Eg.
    eapply Forall_forall in Hs; [|apply list_elem_of_In; exact Eg].
    destruct Hs as (_ & Hs & _). discriminate.
  - discriminate.
  - destruct (JsObject.isInherited sectionName); [discriminate|].
    intros H; apply Return_inj in H; subst sections'.
    apply Forall_set; [|exact Hs].
    apply (statSection_cards None sectionName [] (Card cardName inclusionText));
      [exact Hc | intros [] | right; reflexivity].
Qed.

Lemma addContainers_stats (containers : list located)
    (sections sections' : JsObject.object section_value) :
  Forall (statSection None) sections ->
  forEach (addContainer toLowerCase toUpperCase) containers sections = Return sections' ->
  Forall (statSection None) sections'.
Proof.
  revert sections; induction containers as [|c containers IH]; intros sections Hs;
    cbn [forEach].
  - intros H; apply Return_inj in H; subst; exact Hs.
  - destruct (addContainer _ _ c sections) as [s1|e] eqn:E; cbn [bind]; [|discriminate].
    apply IH. eapply addContainer_stats; eauto.
Qed.

End StatsFacts.

(** X20.  In the section map that [parseHTML] returns, every array of
    cards is non-empty, holds no card name twice, and each card has a
    name of at least two characters and an inclusion text with a percent
    sign and without a dollar sign; the only string it holds is the deck
    count, under [_deckCount]. *)
Theorem parseHTML_sections_wellformed (parseFromString : jsstring -> node)
    (toLowerCase toUpperCase : jsstring -> jsstring)
    (extractDeckCount : jsstring -> option jsstring)
    (htmlContent : jsstring) (sections : JsObject.object section_value) :
  Commander.parseHTML parseFromString toLowerCase toUpperCase extractDeckCount
    htmlContent = Return sections ->
  Forall (Stats.statSection (extractDeckCount htmlContent)) sections.
Proof.
  unfold Commander.parseHTML.
  destruct (forEach _ _ _) as [secs|e] eqn:E; cbn [bind]; [|discriminate].
  intros H. apply Return_inj in H. subst sections.
  apply (addContainers_stats toLowerCase toUpperCase) in E; [|constructor].
  apply sortSections_stats.
  assert (Hd : Forall (Stats.statSection (extractDeckCount htmlContent)) secs).
  { eapply Forall_impl; [exact E|]. intros entry. apply statSection_deckCount. }
  destruct (extractDeckCount htmlContent) as [[|c deckCount]|] eqn:Ed; try exact Hd.
  apply Forall_set; [|exact Hd].
  unfold Stats.statSection. cbn [snd fst]. repeat split. discriminate.
Qed.

Lemma parseHTML_sections_wellformed_witness :
  Forall (Stats.statSection None)
    [ (js "Top Cards",
       Cards [ Card (js "Sol Ring") (js "68%");
               Card (js "Cultivate") (js "12%");
               Card (js "Bloodthirster") (js "5%") ]) ].
Proof.
  apply (parseHTML_sections_wellformed (fun _ => Samples.statsPage)
           Samples.asciiLowerCase Samples.asciiUpperCase (fun _ => None) []).
  vm_compute. reflexivity.
Defined.

Section SampleFacts.
Import Commander.

Ltac sorted_by_computation :=
  repeat first
    [ apply SSorted_nil
    | apply SSorted_cons
    | apply List.Forall_nil
    | apply List.Forall_cons; [vm_compute; reflexivity|] ].

Lemma getSampleData_sorted (sectionName : jsstring) (cards : list card) :
  In (sectionName, Cards cards) getSampleData -> StronglySorted descending cards.
Proof.
  unfold getSampleData. cbn [In].
  intros [H | [H | [H | [H | []]]]]; injection H as _ <-; sorted_by_computation.
Qed.

End SampleFacts.

(** X21.  Whatever happens, the card sections of what [extractData]
    returns are in descending order of inclusion: a parsed page is
    sorted by [parseHTML], and the sample data that stands in after a
    failure is written in that order. *)
Theorem extractData_sections_sorted (parseFromString : jsstring -> node)
    (fetch : jsstring -> fetched) (toLowerCase toUpperCase : jsstring -> jsstring)
    (extractDeckCount : jsstring -> option jsstring)
    (generateEDHRECUrl : jsstring -> jsstring) (commanderName : jsstring) :
  exists sections,
    Commander.extractData parseFromString fetch toLowerCase toUpperCase
      extractDeckCount generateEDHRECUrl commanderName = Return sections
    /\ forall sectionName cards,
         In (sectionName, Cards cards) sections ->
         StronglySorted Commander.descending cards.
Proof.
  unfold Commander.extractData.
  destruct (Commander.tryExtract _ _ _ _ _ _ _) as [sections|e] eqn:E.
  - exists sections. split; [reflexivity|]. intros k cards Hin.
    unfold Commander.tryExtract in E.
    destruct (match fetch _ with Rejected e => _ | Response _ _ => _ end)
      as [html|e]; [|discriminate].
    unfold Commander.parseHTML in E.
    destruct (forEach _ _ _) as [secs|e]; cbn [bind] in E; [|discriminate].
    apply Return_inj in E. subst sections.
    eapply sortSections_sorted. exact Hin.
  - exists Commander.getSampleData. split; [reflexivity|].
    apply getSampleData_sorted.
Qed.

Section UrlFacts.
Import Text Stats.

Lemma trimStart_id (s : jsstring) :
  Forall (fun c => is_space c = false) s -> trimStart s = s.
Proof.
  intros H. destruct H as [|c s Hc _]; cbn [trimStart]; [reflexivity|].
  rewrite Hc. reflexivity.
Qed.

Lemma trim_id (s : jsstring) :
  Forall (fun c => is_space c = false) s -> trim s = s.
Proof.
  intros H. unfold trim, trimEnd. rewrite (trimStart_id s H).
  rewrite trimStart_id; [apply rev_involutive|].
  apply Forall_forall. intros c Hc.
  apply list_elem_of_In, in_rev, list_elem_of_In in Hc.
  eapply Forall_forall in H; [exact H | exact Hc].
Qed.

Lemma slugChar_not_space (c : N) : slugChar c = true -> is_space c = false.
Proof.
  unfold slugChar, is_lower, is_digit, is_space, in_range. intros H.
  apply not_true_is_false. intros Hs.
  rewrite !orb_true_iff, !andb_true_iff, !N.leb_le, !N.eqb_eq in H.
  rewrite !orb_true_iff, !andb_true_iff, !N.leb_le, !N.eqb_eq in Hs. lia.
Qed.

Lemma urlSafe_slugChar (c : N) :
  urlSafe c = true -> (is_space c = true -> c = 45%N) -> slugChar c = true.
Proof.
  unfold urlSafe, slugChar. intros H Hs.
  destruct (is_space c) eqn:E.
  - rewrite (Hs eq_refl). reflexivity.
  - rewrite orb_false_r in H. exact H.
Qed.

Lemma generateEDHRECUrl_slug (toLowerCase : jsstring -> jsstring)
    (commanderName : jsstring) :
  exists urlSafeName,
    generateEDHRECUrl toLowerCase commanderName = urlPrefix ++ urlSafeName
    /\ slug urlSafeName.
Proof.
  unfold generateEDHRECUrl, collapse.
  set (s0 := filter (fun c => urlSafe c = true) (toLowerCase (firstFace commanderName))).
  assert (H0 : Forall (fun c => urlSafe c = true) s0).
  { apply Forall_forall. intros c Hc. apply list_elem_of_filter in Hc as [Hc _]. exact Hc. }
  destruct (collapse_spec is_space 45 false s0) as (Hf1 & _ & _). cbv zeta in Hf1.
  pose proof (collapse_Forall (fun c => urlSafe c = true) is_space 45 false s0
                eq_refl H0) as Hu1.
  set (s1 := collapseFrom is_space 45 false s0) in *.
  assert (H1 : Forall (fun c => slugChar c = true) s1).
  { apply Forall_forall. intros c Hc.
    apply urlSafe_slugChar.
    - eapply Forall_forall in Hu1; [exact Hu1 | exact Hc].
    - eapply Forall_forall in Hf1; [exact Hf1 | exact Hc]. }
  destruct (collapse_spec (N.eqb 45) 45 false s1) as (_ & Hr2 & _). cbv zeta in Hr2.
  pose proof (collapse_Forall (fun c => slugChar c = true) (N.eqb 45) 45 false s1
                eq_refl H1) as H2.
  set (s2 := collapseFrom (N.eqb 45) 45 false s1) in *.
  exists s2. split; [|split; assumption].
  rewrite trim_id; [reflexivity|].
  eapply Forall_impl; [exact H2|]. intros c. apply slugChar_not_space.
Qed.

End UrlFacts.

(** X22.  The address [generateEDHRECUrl] builds is the commanders
    prefix followed by a slug: lower-case ASCII letters, digits and
    hyphens only, with no two hyphens in a row, whatever the name and
    whatever the engine's case mapping. *)
Theorem generateEDHRECUrl_is_slug (toLowerCase : jsstring -> jsstring)
    (commanderName : jsstring) :
  exists urlSafeName,
    Stats.generateEDHRECUrl toLowerCase commanderName
    = Stats.urlPrefix ++ urlSafeName
    /\ Stats.slug urlSafeName.
Proof. apply generateEDHRECUrl_slug. Qed.

(** A double-faced name gives the address of its first face. *)
Example generateEDHRECUrl_double_faced :
  Stats.generateEDHRECUrl Samples.asciiLowerCase
    (js "Etali, Primal Conqueror // Etali, Primal Sickness")
  = js "https://edhrec.com/commanders/etali-primal-conqueror".
Proof. vm_compute. reflexivity. Qed.

(** ** The inclusion filter, continued *)

Section FilterFacts.
Import JsNumber Store.

Lemma keepCard_cutoff (h : gmap nat obj) (cutoff cutoff' : jsnum) (card : val) :
  geb cutoff' cutoff = true ->
  match keepCard h cutoff' card with
  | Return keep' =>
      exists keep, keepCard h cutoff card = Return keep
                   /\ (keep' = true -> keep = true)
  | Throw e => keepCard h cutoff card = Throw e
  end.
Proof.
  intros Hc. unfold keepCard.
  destruct (inclusionProperty h card) as [inc|e]; cbn [bind]; [|reflexivity].
  destruct inc as [| | | |s|]; try reflexivity; try (exists true; auto).
  destruct (inclusionMatch s) as [number|]; [|exists true; auto].
  eexists. split; [reflexivity|]. intros H. eapply geb_trans; eauto.
Qed.

Lemma filterCards_cutoff (h : gmap nat obj) (cutoff cutoff' : jsnum)
    (cards kept : list val) :
  geb cutoff' cutoff = true ->
  filterCards h cutoff cards = Return kept ->
  sublist kept cards
  /\ exists kept',
       filterCards h cutoff' cards = Return kept' /\ sublist kept' kept.
Proof.
  intros Hc. revert kept; induction cards as [|card cards IH]; intros kept;
    cbn [filterCards].
  - intros H. apply Return_inj in H. subst kept.
    split; [reflexivity|]. exists []. split; reflexivity.
  - pose proof (keepCard_cutoff h cutoff cutoff' card Hc) as Hk.
    destruct (keepCard h cutoff card) as [keep|e] eqn:Ek; cbn [bind]; [|discriminate].
    destruct (filterCards h cutoff cards) as [kept0|e] eqn:Ef; cbn [bind]; [|discriminate].
    intros H. apply Return_inj in H. subst kept.
    destruct (IH kept0 eq_refl) as (Hs & kept0' & Ef' & Hs').
    destruct (keepCard h cutoff' card) as [keep'|e]; [|congruence].
    destruct Hk as (keep0 & Heq & Himp). apply Return_inj in Heq. subst keep0.
    rewrite Ef'. cbn [bind]. split.
    + destruct keep; [apply sublist_skip | apply sublist_cons]; exact Hs.
    + eexists. split; [reflexivity|].
      destruct keep'; [rewrite (Himp eq_refl); apply sublist_skip; exact Hs'|].
      destruct keep; [apply sublist_cons|]; exact Hs'.
Qed.

End FilterFacts.

(** X23.  The filter of [filterCardsByInclusion] keeps cards of the
    section in their order, and raising the cutoff only removes cards:
    what a higher cutoff keeps is kept by every lower one. *)
Theorem filterCards_monotone (h : gmap nat Store.obj)
    (cutoff cutoff' : JsNumber.jsnum) (cards kept : list Store.val) :
  JsNumber.geb cutoff' cutoff = true ->
  Store.filterCards h cutoff cards = Return kept ->
  sublist kept cards
  /\ exists kept',
       Store.filterCards h cutoff' cards = Return kept' /\ sublist kept' kept.
Proof. apply filterCards_cutoff. Qed.

Lemma filterCards_monotone_witness :
  sublist [Store.VRef 2; Store.VRef 3] [Store.VRef 2; Store.VRef 3]
  /\ exists kept',
       Store.filterCards Samples.store (JsNumber.Num (inject_Z 50))
         [Store.VRef 2; Store.VRef 3] = Return kept'
       /\ sublist kept' [Store.VRef 2; Store.VRef 3].
Proof.
  apply (filterCards_monotone Samples.store (JsNumber.Num (inject_Z 10))
           (JsNumber.Num (inject_Z 50)) [Store.VRef 2; Store.VRef 3]).
  - reflexivity.
  - vm_compute. reflexivity.
Defined.

(** ** The card-name heuristic, continued *)

Section CardNameFacts.
Import CardName.

Lemma startsWith_head (s p : jsstring) (c : N) :
  startsWith s (c :: p) = true -> head s = Some c.
Proof.
  destruct s as [|x s]; cbn [startsWith]; [discriminate|].
  rewrite andb_true_iff, N.eqb_eq. intros [-> _]. reflexivity.
Qed.

Lemma startsWith_ci_app (w post : jsstring) : startsWith_ci (w ++ post) w = true.
Proof.
  induction w as [|c w IH]; cbn [startsWith_ci app]; [reflexivity|].
  rewrite N.eqb_refl, IH. reflexivity.
Qed.

(** Every listed word starts and ends with a word character. *)
Lemma commonWords_edges :
  Forall (fun w => is_word_opt (head w) = true /\ is_word_opt (last w) = true)
         commonWords.
Proof. unfold commonWords. cbn [map]. repeat constructor. Qed.

Lemma wordAt_here (prev : option N) (w post : jsstring) :
  is_word_opt (head w) = true -> is_word_opt (last w) = true ->
  is_word_opt prev = false -> is_word_opt (head post) = false ->
  wordAt prev (w ++ post) w = true.
Proof.
  intros Hh Hl Hp Hn. unfold wordAt, wordBoundary.
  rewrite startsWith_ci_app, take_app_length, drop_app_length.
  destruct w as [|c w]; [discriminate|]. cbn [app head] in *.
  rewrite Hp, Hh, Hl, Hn. reflexivity.
Qed.

Lemma testCommonWords_found (w post : jsstring) :
  In w commonWords -> is_word_opt (head post) = false ->
  forall (pre : jsstring) (prev : option N),
    is_word_opt (match last pre with Some c => Some c | None => prev end) = false ->
    testCommonWords prev (pre ++ w ++ post) = true.
Proof.
  intros Hw Hn.
  assert (He : is_word_opt (head w) = true /\ is_word_opt (last w) = true).
  { pose proof commonWords_edges as H.
    eapply Forall_forall in H; [exact H | apply list_elem_of_In; exact Hw]. }
  destruct He as [Hh Hl].
  induction pre as [|c pre IH]; intros prev Hp.
  - cbn [app last] in *.
    assert (Hat : existsb (wordAt prev (w ++ post)) commonWords = true).
    { apply existsb_exists. exists w. split; [exact Hw|]. apply wordAt_here; assumption. }
    destruct (w ++ post); cbn [testCommonWords]; rewrite Hat; reflexivity.
  - change ((c :: pre) ++ w ++ post) with (c :: (pre ++ w ++ post)).
    cbn [testCommonWords]. rewrite (IH (Some c)); [apply orb_true_r|].
    destruct pre as [|d pre]; [exact Hp|].
    change (last (c :: d :: pre)) with (last (d :: pre)) in Hp.
    destruct (last (d :: pre)) eqn:E; [exact Hp|].
    apply last_None in E. discriminate.
Qed.

End CardNameFacts.

Lemma looksLikeCardName_two_patterns_eq (text : jsstring) :
  CardName.looksLikeCardName text
  = if match text with [] => true | _ => false end
       || (length text <? 2) || (CardName.MAX_CARDNAME_LENGTH <? length text)
    then false
    else if CardName.startsWithDigit text then false
    else if CardName.startsWithLower text then false
    else negb (includes text (js "...") || CardName.testCommonWords None text).
Proof.
  unfold CardName.looksLikeCardName, CardName.excludePatterns.
  destruct (_ || _ || _); [reflexivity|].
  destruct (CardName.startsWithDigit text) eqn:Ed; [reflexivity|].
  destruct (CardName.startsWithLower text) eqn:El; [reflexivity|].
  cbn [existsb].
  assert (Hh : startsWith text (js "http") = false).
  { destruct (startsWith text (js "http")) eqn:E; [|reflexivity].
    apply startsWith_head in E. destruct text as [|c t]; [discriminate|].
    injection E as ->. discriminate. }
  assert (Ha : CardName.allDigits text = false).
  { unfold CardName.allDigits. destruct text as [|c t]; [reflexivity|].
    cbn [CardName.startsWithDigit] in Ed. cbn [forallb]. rewrite Ed. reflexivity. }
  rewrite Hh, Ha. cbn [orb]. rewrite !orb_false_r. reflexivity.
Qed.

(** X24.  Two of the four exclusion patterns of [looksLikeCardName]
    never decide: a text that starts with [http] or consists of digits
    has been turned down before by the tests on its first character, so
    the answer is the same with only the truncation and the common-word
    patterns. *)
Theorem looksLikeCardName_two_patterns (text : jsstring) :
  CardName.looksLikeCardName text
  = if match text with [] => true | _ => false end
       || (length text <? 2) || (CardName.MAX_CARDNAME_LENGTH <? length text)
    then false
    else if CardName.startsWithDigit text then false
    else if CardName.startsWithLower text then false
    else negb (includes text (js "...") || CardName.testCommonWords None text).
Proof. apply looksLikeCardName_two_patterns_eq. Qed.

(** X25.  [looksLikeCardName] turns down every text in which one of
    the listed common words stands as a word of its own, so a name such
    as [Terror of the Peaks] is never taken for a card name. *)
Theorem looksLikeCardName_common_word (pre w post : jsstring) :
  In w CardName.commonWords ->
  CardName.is_word_opt (last pre) = false ->
  CardName.is_word_opt (head post) = false ->
  CardName.looksLikeCardName (pre ++ w ++ post) = false.
Proof.
  intros Hw Hp Hn. rewrite looksLikeCardName_two_patterns_eq.
  destruct (_ || _ || _); [reflexivity|].
  destruct (CardName.startsWithDigit _); [reflexivity|].
  destruct (CardName.startsWithLower _); [reflexivity|].
  rewrite (testCommonWords_found w post Hw Hn pre None).
  - rewrite orb_true_r. reflexivity.
  - destruct (last pre); [exact Hp | reflexivity].
Qed.

Lemma looksLikeCardName_common_word_witness :
  CardName.looksLikeCardName (js "Terror " ++ js "of" ++ js " the Peaks") = false.
Proof.
  apply (looksLikeCardName_common_word (js "Terror ") (js "of") (js " the Peaks")).
  - vm_compute. do 14 right. left. reflexivity.
  - reflexivity.
  - reflexivity.
Defined.

(** ** Routing *)

Section RoutingFacts.
Import Routing.

Lemma literal_mono (p : jsstring) (k k' : jsstring -> bool) :
  (forall s, k s = true -> k' s = true) ->
  forall s, literal p k s = true -> literal p k' s = true.
Proof.
  intros Hk s. unfold literal. rewrite !andb_true_iff. intros [Hp Hs]. auto.
Qed.

Lemma dotStar_mono (k k' : jsstring -> bool) :
  (forall s, k s = true -> k' s = true) ->
  forall s, dotStar k s = true -> dotStar k' s = true.
Proof.
  intros Hk s. induction s as [|c s IH]; cbn [dotStar];
    rewrite !orb_true_iff; intros [H | H]; auto.
  right. apply andb_true_iff in H as [Hc H]. rewrite Hc. cbn [andb]. auto.
Qed.

Lemma test_mono (m m' : jsstring -> bool) :
  (forall s, m s = true -> m' s = true) ->
  forall s, test m s = true -> test m' s = true.
Proof.
  intros Hm s. induction s as [|c s IH]; cbn [test];
    rewrite !orb_true_iff; intros [H | H]; auto.
Qed.

Lemma upgradeGuide_upgrade (url : jsstring) :
  upgradeGuidePattern url = true -> upgradePattern url = true.
Proof.
  unfold upgradeGuidePattern, upgradePattern.
  apply test_mono, literal_mono, dotStar_mono, literal_mono. reflexivity.
Qed.

End RoutingFacts.

(** X26.  The first pattern of [isUpgradeGuideURL] never decides:
    whatever it matches the second matches too, so an input is taken for
    an upgrade guide exactly when it is not empty and holds
    [edhrec.com/articles/] followed on the same line by [upgrade] or by
    [guide], in any letter case. *)
Theorem isUpgradeGuideURL_two_patterns (url : jsstring) :
  Routing.isUpgradeGuideURL url
  = match url with
    | [] => false
    | _ => Routing.upgradePattern url || Routing.guidePattern url
    end.
Proof.
  unfold Routing.isUpgradeGuideURL. destruct url as [|c url]; [reflexivity|].
  cbn [existsb]. rewrite orb_false_r.
  destruct (Routing.upgradeGuidePattern (c :: url)) eqn:E; [|reflexivity].
  rewrite (upgradeGuide_upgrade _ E). reflexivity.
Qed.

Example isUpgradeGuideURL_samples :
  Routing.isUpgradeGuideURL (js "https://edhrec.com/articles/veloci-ramp-tor-Upgrade-Guide") = true
  /\ Routing.isUpgradeGuideURL (js "https://edhrec.com/commanders/etali-primal-conqueror") = false
  /\ Routing.isUpgradeGuideURL (js "https://example.org/?edhrec.com/articles/guide") = true.
Proof. repeat split; vm_compute; reflexivity. Qed.

(** ** The inclusion filter with a cutoff of zero *)

Section ZeroCutoffFacts.
Import JsNumber Store.

Lemma Num_nonneg (z : Z) : (0 <= z)%Z -> geb (Num (inject_Z z)) (Num 0) = true.
Proof. intros H. cbn [geb]. apply Qle_bool_iff. unfold Qle. cbn. lia. Qed.

Lemma Num_red_nonneg (z : Z) (p : positive) :
  (0 <= z)%Z -> geb (Num (Qred (z # p))) (Num 0) = true.
Proof.
  intros H. cbn [geb]. apply Qle_bool_iff. rewrite Qred_correct.
  unfold Qle. cbn. lia.
Qed.

Lemma roundPositive_nonneg (a b : Z) :
  (0 <= a)%Z -> (0 < b)%Z -> geb (roundPositive a b) (Num 0) = true.
Proof.
  intros Ha Hb. unfold roundPositive. cbv zeta.
  match goal with
  | |- context [Z.max ?x (-1074)%Z] => generalize (Z.max x (-1074)%Z)
  end.
  intros e. destruct (0 <=? e)%Z eqn:E.
  - apply Z.leb_le in E.
    assert (Hd : (0 < b * 2 ^ e)%Z)
      by (apply Z.mul_pos_pos; [exact Hb | apply Z.pow_pos_nonneg; lia]).
    assert (Hq : (0 <= a / (b * 2 ^ e))%Z) by (apply Z.div_pos; assumption).
    assert (Hp : (0 <= 2 ^ e)%Z) by (apply Z.pow_nonneg; lia).
    destruct (_ || _); destruct (2 ^ 1024 <=? _)%Z; try reflexivity;
      apply Num_nonneg; apply Z.mul_nonneg_nonneg; lia.
  - assert (Hn : (0 <= a * 2 ^ (- e))%Z)
      by (apply Z.mul_nonneg_nonneg; [exact Ha | apply Z.pow_nonneg; lia]).
    assert (Hq : (0 <= a * 2 ^ (- e) / b)%Z) by (apply Z.div_pos; assumption).
    destruct (_ || _); apply Num_red_nonneg; lia.
Qed.

Lemma decimalToDouble_nonneg (m : N) (e10 : Z) :
  geb (decimalToDouble m e10) (Num 0) = true.
Proof.
  unfold decimalToDouble. destruct (m =? 0)%N; [reflexivity|].
  destruct (0 <=? e10)%Z eqn:E.
  - apply roundPositive_nonneg; [|lia].
    apply Z.mul_nonneg_nonneg; [lia | apply Z.pow_nonneg; lia].
  - apply roundPositive_nonneg; [lia|]. apply Z.pow_pos_nonneg; lia.
Qed.

Lemma digit_facts (d : N) :
  is_digit d = true ->
  is_space d = false /\ N.eqb d 45 = false /\ N.eqb d 43 = false /\ N.eqb d 73 = false.
Proof.
  intros H. split; [|unfold is_digit, in_range in H;
    rewrite andb_true_iff, !N.leb_le in H;
    repeat split; apply N.eqb_neq; lia].
  destruct (is_space d) eqn:E; [|reflexivity].
  apply space_not_digit in E. congruence.
Qed.

(** [parseFloat] of a text that starts with a digit is not negative and
    not NaN. *)
Lemma parseFloat_digits_nonneg (d : N) (rest : jsstring) :
  is_digit d = true -> geb (parseFloat (d :: rest)) (Num 0) = true.
Proof.
  intros Hd. destruct (digit_facts d Hd) as (Hs & Hm & Hp & Hi).
  unfold parseFloat. cbn [trimStart]. rewrite Hs. cbn [signOf]. rewrite Hm, Hp.
  assert (HI : startsWith (d :: rest) (js "Infinity") = false).
  { change (js "Infinity") with (73%N :: js "nfinity").
    cbn [startsWith]. rewrite Hi. reflexivity. }
  rewrite HI.
  cbn [span]. rewrite Hd.
  destruct (span is_digit rest) as [ip t1].
  destruct (match t1 with
            | c :: r => if N.eqb c 46 then span is_digit r else ([], t1)
            | [] => ([], t1)
            end) as [fpart t2].
  cbn [app]. apply decimalToDouble_nonneg.
Qed.

Lemma percentHere_digit (s number : jsstring) :
  percentHere s = Some number ->
  exists d rest, number = d :: rest /\ is_digit d = true.
Proof.
  unfold percentHere. destruct (span is_digit s) as [ipart rest] eqn:E.
  destruct (span_spec _ _ _ _ E) as (_ & Hd & _).
  destruct ipart as [|d ipart]; [discriminate|].
  cbn [forallb] in Hd. apply andb_true_iff in Hd as [Hd _].
  destruct (match rest with
            | c :: r =>
                if N.eqb c 46
                then match span is_digit r with
                     | ([], _) => (d :: ipart, rest)
                     | (fpart, r') => ((d :: ipart) ++ c :: fpart, r')
                     end
                else (d :: ipart, rest)
            | [] => (d :: ipart, rest)
            end) as [number0 rest'] eqn:En.
  assert (Hn : exists t, number0 = d :: t).
  { destruct rest as [|c r]; [injection En as <- _; eauto|].
    destruct (N.eqb c 46); [|injection En as <- _; eauto].
    destruct (span is_digit r) as [[|f fpart] r'']; injection En as <- _; eauto. }
  destruct Hn as [t ->].
  destruct rest' as [|c r]; [discriminate|].
  destruct (N.eqb c 37); [|discriminate].
  intros H. apply Some_eq in H. subst number. eauto.
Qed.

Lemma inclusionMatch_digit (s number : jsstring) :
  inclusionMatch s = Some number ->
  exists d rest, number = d :: rest /\ is_digit d = true.
Proof.
  induction s as [|c s IH]; cbn [inclusionMatch].
  - destruct (percentHere []) eqn:E; [|discriminate].
    intros H. apply Some_eq in H. subst. eapply percentHere_digit; exact E.
  - destruct (percentHere (c :: s)) eqn:E; [|exact IH].
    intros H. apply Some_eq in H. subst. eapply percentHere_digit; exact E.
Qed.

Lemma keepCard_low_cutoff (h : gmap nat obj) (cutoff : jsnum) (card : val) (keep : bool) :
  geb (Num 0) cutoff = true -> keepCard h cutoff card = Return keep -> keep = true.
Proof.
  intros Hc. unfold keepCard.
  destruct (inclusionProperty h card) as [inc|e]; cbn [bind]; [|discriminate].
  destruct inc as [| | | |s|]; try discriminate;
    try (intros H; apply Return_inj in H; congruence).
  destruct (inclusionMatch s) as [number|] eqn:Em;
    [|intros H; apply Return_inj in H; congruence].
  destruct (inclusionMatch_digit _ _ Em) as (d & rest & -> & Hd).
  intros H. apply Return_inj in H. subst keep.
  eapply geb_trans; [apply parseFloat_digits_nonneg; exact Hd | exact Hc].
Qed.

Lemma filterCards_low_cutoff (h : gmap nat obj) (cutoff : jsnum) (cards kept : list val) :
  geb (Num 0) cutoff = true -> filterCards h cutoff cards = Return kept -> kept = cards.
Proof.
  intros Hc. revert kept; induction cards as [|card cards IH]; intros kept;
    cbn [filterCards].
  - intros H. apply Return_inj in H. congruence.
  - destruct (keepCard h cutoff card) as [keep|e] eqn:Ek; cbn [bind]; [|discriminate].
    destruct (filterCards h cutoff cards) as [kept0|e]; cbn [bind]; [|discriminate].
    rewrite (keepCard_low_cutoff _ _ _ _ Hc Ek), (IH kept0 eq_refl).
    intros H. apply Return_inj in H. congruence.
Qed.

End ZeroCutoffFacts.

(** X27.  With a cutoff of zero, the value the cutoff field defaults
    to, or a negative one, the filter of [filterCardsByInclusion] removes
    nothing: every percentage read from an inclusion text is a number
    that is not negative. *)
Theorem filterCards_zero_cutoff (h : gmap nat Store.obj) (cutoff : JsNumber.jsnum)
    (cards kept : list Store.val) :
  JsNumber.geb (JsNumber.Num 0) cutoff = true ->
  Store.filterCards h cutoff cards = Return kept ->
  kept = cards.
Proof. apply filterCards_low_cutoff. Qed.

Lemma filterCards_zero_cutoff_witness :
  [Store.VRef 2; Store.VRef 3] = [Store.VRef 2; Store.VRef 3].
Proof.
  apply (filterCards_zero_cutoff Samples.store (JsNumber.Num 0)
           [Store.VRef 2; Store.VRef 3] [Store.VRef 2; Store.VRef 3]).
  - reflexivity.
  - vm_compute. reflexivity.
Defined.
